(** * WDSPWrapper: the chunked streaming adapter around WDSP EMNR / ANR

    A shallow embedding of [ThirdParty/wdsp/WDSPWrapper.c].  The C code
    works on a heap (handle structs, the complex IQ scratch buffer, the
    caller's float buffer, the opaque engine objects); it is modelled by a
    state-and-error monad over an explicit store.  The two noise-reduction
    engines are external: they are taken as an interface ([Engines]).  The
    global [ch] table of the file is never read or written by the wrapper
    and has no counterpart here. *)

From Stdlib Require Import ZArith List Lia.
From stdpp Require Import base option list gmap.

Local Open Scope Z_scope.

(** ** Sample representations

    [float] and [double] are the C types; [to_double] is the cast
    [(double)x], [to_float] the cast [(float)y], and [dlit m e] is the
    [double] literal [m * 10^e] (so [0.0] is [dlit 0 0] and [6.25e-10] is
    [dlit 625 (-12)]). *)
Class Samples := {
  float : Type;
  double : Type;
  to_double : float -> double;
  to_float : double -> float;
  dlit : Z -> Z -> double
}.

(** [0.0], which is also what [calloc] leaves in a [double] cell. *)
Definition dzero `{Samples} : double := dlit 0 0.

(** ** C [int] arithmetic, with the 32-bit wrap-around written out *)
Definition INT_MIN : Z := - 2 ^ 31.
Definition INT_MAX : Z := 2 ^ 31 - 1.
Definition is_int (z : Z) : Prop := INT_MIN <= z <= INT_MAX.
Definition wrap32 (z : Z) : Z := (z + 2 ^ 31) mod 2 ^ 32 - 2 ^ 31.
Definition int_add (a b : Z) : Z := wrap32 (a + b).
Definition int_sub (a b : Z) : Z := wrap32 (a - b).
Definition int_mul (a b : Z) : Z := wrap32 (a * b).
Definition int_div (a b : Z) : Z := wrap32 (Z.quot a b).

(** ** Pointers and variants *)
Definition loc := positive.
Definition ptr := option loc.
Abbreviation NULL := (@None loc).

Inductive variant := EMNR | ANR.

#[global] Instance variant_eq_dec : EqDecision variant.
Proof. solve_decision. Defined.

(** ** The external engines

    Arguments of [create_emnr] and [create_anr] other than the two buffer
    pointers. *)
Record emnr_args `{Samples} := {
  emnr_run : Z; emnr_position : Z; emnr_size : Z;
  emnr_fsize : Z; emnr_ovrlp : Z; emnr_rate : Z; emnr_wintype : Z;
  emnr_gain : double; emnr_gain_method : Z; emnr_npe_method : Z;
  emnr_ae_run : Z
}.

Record anr_args `{Samples} := {
  anr_run : Z; anr_position : Z; anr_buff_size : Z;
  anr_dline_size : Z; anr_n_taps : Z; anr_delay : Z;
  anr_two_mu : double; anr_gamma : double;
  anr_lidx : double; anr_lidx_min : double; anr_lidx_max : double;
  anr_ngamma : double; anr_den_mult : double;
  anr_lincr : double; anr_ldecr : double
}.

(** Modelled from the spec: the engines ([emnr.c], [anr.c]) are external
    collaborators.  Each exposes create / destroy and an in-place "process
    one block" operation over a complex-paired buffer of a fixed size.  An
    engine is deterministic: its state after construction is a function of
    its numeric arguments, and one block is a function of its state and of
    the buffer; it writes the buffer it was given and nothing else, so the
    buffer keeps its length. *)
Class Engines `{Samples} := {
  eng_state : Type;
  emnr_initial : emnr_args -> eng_state;
  anr_initial : anr_args -> eng_state;
  eng_block : variant -> eng_state -> list double -> eng_state * list double;
  eng_block_length : forall v s buf,
    length (eng_block v s buf).2 = length buf
}.

(** Modelled from the spec: [ANR_DLINE_SIZE] comes from [anr.h], which is
    not part of the wrapper; the delay-line length is 2048. *)
Definition ANR_DLINE_SIZE : Z := 2048.

(** What a run of C code comes to. *)
Inductive result (A : Type) :=
| Ok (a : A)
| Fault        (* undefined behaviour: bad pointer, index out of range *)
| OutOfFuel.
Arguments Ok {A} a.
Arguments Fault {A}.
Arguments OutOfFuel {A}.

Section Wrapper.
Context {Smp : Samples} {Eng : Engines}.

(** ** The store *)

(** An engine object: which engine it is, its private state, and the
    [in] / [out] buffer pointers and block size given at construction. *)
Record engine_obj := {
  e_variant : variant;
  e_state : eng_state;
  e_in : ptr;
  e_out : ptr;
  e_size : Z
}.

Inductive cell :=
| CCtx (impl : ptr) (workBuf : ptr) (bufSize : Z)
    (* struct WDSP_EMNR / struct WDSP_ANR *)
| CDoubles (ds : list double)
| CFloats (fs : list float)
| CEngine (o : engine_obj).

(** What a run does to the outside, in order. *)
Inductive event :=
| EvAlloc (p : ptr)                    (* calloc returned p (NULL: failed) *)
| EvFree (l : loc)
| EvEngineCreate (v : variant) (p : ptr) (* NULL: construction failed *)
| EvEngineDestroy (v : variant) (l : loc)
| EvEngineRun (v : variant) (l : loc) (input output : list double).

(** [oracle] decides the allocation attempts still to come, in order
    ([false]: the attempt fails); when it is used up, attempts succeed. *)
Record world := {
  heap : gmap loc cell;
  oracle : list bool;
  trace : list event
}.

Definition set_heap (h : gmap loc cell) (w : world) : world :=
  {| heap := h; oracle := oracle w; trace := trace w |}.
Definition set_oracle (o : list bool) (w : world) : world :=
  {| heap := heap w; oracle := o; trace := trace w |}.
Definition add_event (e : event) (w : world) : world :=
  {| heap := heap w; oracle := oracle w; trace := trace w ++ [e] |}.

(** ** The monad: state, undefined behaviour, fuel *)
Definition M (A : Type) : Type := world -> result (A * world).

Definition ret {A} (a : A) : M A := fun w => Ok (a, w).
Definition bind {A B} (m : M A) (k : A -> M B) : M B :=
  fun w => match m w with
           | Ok (a, w') => k a w'
           | Fault => Fault
           | OutOfFuel => OutOfFuel
           end.
Definition fault {A} : M A := fun _ => Fault.
Definition out_of_fuel {A} : M A := fun _ => OutOfFuel.
Definition get_heap : M (gmap loc cell) := fun w => Ok (heap w, w).
Definition put_heap (h : gmap loc cell) : M unit :=
  fun w => Ok (tt, set_heap h w).
Definition log (e : event) : M unit := fun w => Ok (tt, add_event e w).

Notation "'let*' x ':=' m 'in' k" := (bind m (fun x => k))
  (at level 10, x name, m at level 100, k at level 200).
Notation "m ';;' k" := (bind m (fun _ => k))
  (at level 100, k at level 200, right associativity).

(** [for (int i = lo; i < hi; i++) body(i)], for a body that assigns
    neither [i] nor the bound. *)
Fixpoint for_loop (n : nat) (i : Z) (body : Z -> M unit) : M unit :=
  match n with
  | O => ret tt
  | S n' => body i ;; for_loop n' (i + 1) body
  end.
Definition for_ (lo hi : Z) (body : Z -> M unit) : M unit :=
  for_loop (Z.to_nat (hi - lo)) lo body.

(** [while (cond(x)) x = body(x)] with one unit of fuel per iteration;
    the test itself costs nothing. *)
Fixpoint while_ (fuel : nat) (cond : Z -> bool) (body : Z -> M Z) (x : Z)
  : M Z :=
  if cond x then
    match fuel with
    | O => out_of_fuel
    | S fuel' => let* x' := body x in while_ fuel' cond body x'
    end
  else ret x.

(** ** Memory operations *)

(** The next allocation decision. *)
Definition next_decision : M bool :=
  fun w => Ok (hd true (oracle w), set_oracle (tl (oracle w)) w).

(** A new cell at an address that is not live. *)
Definition new_cell (c : cell) : M loc :=
  fun w => let l := fresh (dom (heap w)) in
           Ok (l, set_heap (<[l := c]> (heap w)) w).

(** [calloc(1, sizeof(WDSP_EMNR))], [calloc(1, sizeof(WDSP_ANR))]: all
    fields zero. *)
Definition calloc_ctx : M ptr :=
  let* ok := next_decision in
  if ok : bool then
    let* l := new_cell (CCtx NULL NULL 0) in
    log (EvAlloc (Some l)) ;; ret (Some l)
  else log (EvAlloc NULL) ;; ret NULL.

(** [calloc(n, sizeof(double))]. *)
Definition calloc_doubles (n : Z) : M ptr :=
  let* ok := next_decision in
  if ok : bool then
    let* l := new_cell (CDoubles (replicate (Z.to_nat n) dzero)) in
    log (EvAlloc (Some l)) ;; ret (Some l)
  else log (EvAlloc NULL) ;; ret NULL.

(** [free(p)]: nothing for [NULL]; undefined on a block that is not
    live. *)
Definition free (p : ptr) : M unit :=
  match p with
  | None => ret tt
  | Some l =>
      let* h := get_heap in
      match h !! l with
      | Some _ => put_heap (delete l h) ;; log (EvFree l)
      | None => fault
      end
  end.

Definition load_cell (p : ptr) : M cell :=
  match p with
  | None => fault
  | Some l =>
      let* h := get_heap in
      match h !! l with
      | Some c => ret c
      | None => fault
      end
  end.

Definition store_cell (p : ptr) (c : cell) : M unit :=
  match p with
  | None => fault
  | Some l => let* h := get_heap in put_heap (<[l := c]> h)
  end.

(** [ctx->impl], [ctx->workBuf], [ctx->bufSize], read and written. *)
Definition ctx_impl (ctx : ptr) : M ptr :=
  let* c := load_cell ctx in
  match c with CCtx a _ _ => ret a | _ => fault end.
Definition ctx_workBuf (ctx : ptr) : M ptr :=
  let* c := load_cell ctx in
  match c with CCtx _ b _ => ret b | _ => fault end.
Definition ctx_bufSize (ctx : ptr) : M Z :=
  let* c := load_cell ctx in
  match c with CCtx _ _ n => ret n | _ => fault end.
Definition set_ctx_impl (ctx : ptr) (a : ptr) : M unit :=
  let* c := load_cell ctx in
  match c with CCtx _ b n => store_cell ctx (CCtx a b n) | _ => fault end.
Definition set_ctx_workBuf (ctx : ptr) (b : ptr) : M unit :=
  let* c := load_cell ctx in
  match c with CCtx a _ n => store_cell ctx (CCtx a b n) | _ => fault end.
Definition set_ctx_bufSize (ctx : ptr) (n : Z) : M unit :=
  let* c := load_cell ctx in
  match c with CCtx a b _ => store_cell ctx (CCtx a b n) | _ => fault end.

(** [p[i]] on a [double] array and on a [float] array, read and written;
    an index outside the array is undefined behaviour. *)
Definition load_double (p : ptr) (i : Z) : M double :=
  let* c := load_cell p in
  match c with
  | CDoubles ds =>
      if 0 <=? i then
        match ds !! Z.to_nat i with Some x => ret x | None => fault end
      else fault
  | _ => fault
  end.
Definition store_double (p : ptr) (i : Z) (x : double) : M unit :=
  let* c := load_cell p in
  match c with
  | CDoubles ds =>
      if (0 <=? i) && (i <? Z.of_nat (length ds)) then
        store_cell p (CDoubles (<[Z.to_nat i := x]> ds))
      else fault
  | _ => fault
  end.
Definition load_float (p : ptr) (i : Z) : M float :=
  let* c := load_cell p in
  match c with
  | CFloats fs =>
      if 0 <=? i then
        match fs !! Z.to_nat i with Some x => ret x | None => fault end
      else fault
  | _ => fault
  end.
Definition store_float (p : ptr) (i : Z) (x : float) : M unit :=
  let* c := load_cell p in
  match c with
  | CFloats fs =>
      if (0 <=? i) && (i <? Z.of_nat (length fs)) then
        store_cell p (CFloats (<[Z.to_nat i := x]> fs))
      else fault
  | _ => fault
  end.

(** ** The engines' entry points *)

Definition load_engine (v : variant) (a : ptr) : M engine_obj :=
  let* c := load_cell a in
  match c with
  | CEngine o => if decide (e_variant o = v) then ret o else fault
  | _ => fault
  end.

(** Modelled from the spec: [create_emnr] and [create_anr] are not part of
    the wrapper.  Construction gives, on success, a new engine object that
    remembers its two buffer pointers and its block size, and [NULL] on
    failure. *)
Definition create_engine (v : variant) (s : eng_state)
    (size : Z) (inb outb : ptr) : M ptr :=
  let* ok := next_decision in
  if ok : bool then
    let* l := new_cell (CEngine {| e_variant := v; e_state := s;
                                   e_in := inb; e_out := outb;
                                   e_size := size |}) in
    log (EvEngineCreate v (Some l)) ;; ret (Some l)
  else log (EvEngineCreate v NULL) ;; ret NULL.

Definition create_emnr (run position size : Z) (inb outb : ptr)
    (fsize ovrlp rate wintype : Z) (gain : double)
    (gain_method npe_method ae_run : Z) : M ptr :=
  create_engine EMNR
    (emnr_initial {| emnr_run := run; emnr_position := position;
                     emnr_size := size; emnr_fsize := fsize;
                     emnr_ovrlp := ovrlp; emnr_rate := rate;
                     emnr_wintype := wintype; emnr_gain := gain;
                     emnr_gain_method := gain_method;
                     emnr_npe_method := npe_method;
                     emnr_ae_run := ae_run |})
    size inb outb.

Definition create_anr (run position buff_size : Z) (in_buff out_buff : ptr)
    (dline_size n_taps delay : Z)
    (two_mu gamma lidx lidx_min lidx_max ngamma den_mult lincr ldecr
       : double) : M ptr :=
  create_engine ANR
    (anr_initial {| anr_run := run; anr_position := position;
                    anr_buff_size := buff_size;
                    anr_dline_size := dline_size; anr_n_taps := n_taps;
                    anr_delay := delay; anr_two_mu := two_mu;
                    anr_gamma := gamma; anr_lidx := lidx;
                    anr_lidx_min := lidx_min; anr_lidx_max := lidx_max;
                    anr_ngamma := ngamma; anr_den_mult := den_mult;
                    anr_lincr := lincr; anr_ldecr := ldecr |})
    buff_size in_buff out_buff.

(** Modelled from the spec: [xemnr] and [xanr] are not part of the
    wrapper.  One block: the engine reads its [in] buffer ([size] IQ
    pairs), and writes its [out] buffer and its own state.  The wrapper
    always passes the position it constructed the engine at. *)
Definition run_engine (v : variant) (a : ptr) (pos : Z) : M unit :=
  let* o := load_engine v a in
  let* c := load_cell (e_in o) in
  match c with
  | CDoubles input =>
      if decide (Z.of_nat (length input) = 2 * e_size o) then
        let '(s', output) := eng_block v (e_state o) input in
        let* c' := load_cell (e_out o) in
        match c' with
        | CDoubles _ =>
            store_cell (e_out o) (CDoubles output) ;;
            store_cell a (CEngine {| e_variant := v; e_state := s';
                                     e_in := e_in o; e_out := e_out o;
                                     e_size := e_size o |}) ;;
            match a with
            | Some l => log (EvEngineRun v l input output)
            | None => fault
            end
        | _ => fault
        end
      else fault
  | _ => fault
  end.
Definition xemnr : ptr -> Z -> M unit := run_engine EMNR.
Definition xanr : ptr -> Z -> M unit := run_engine ANR.

(** Modelled from the spec: [destroy_emnr] and [destroy_anr] are not part
    of the wrapper.  Teardown: the engine object is gone. *)
Definition destroy_engine (v : variant) (a : ptr) : M unit :=
  let* o := load_engine v a in
  match a with
  | Some l =>
      let* h := get_heap in
      put_heap (delete l h) ;; log (EvEngineDestroy v l)
  | None => fault
  end.
Definition destroy_emnr : ptr -> M unit := destroy_engine EMNR.
Definition destroy_anr : ptr -> M unit := destroy_engine ANR.

(** ** WDSPWrapper.c *)

(** [wdsp_emnr_create], lines 26-60. *)
Definition wdsp_emnr_create (sampleRate : Z) : M ptr :=
  let* ctx := calloc_ctx in
  match ctx with
  | None => ret NULL
  | Some _ =>
      let fsize := 1920 in
      let ovrlp := 4 in
      let bsize := int_div fsize ovrlp in
      set_ctx_bufSize ctx bsize ;;
      let* wb := calloc_doubles (int_mul 2 bsize) in
      set_ctx_workBuf ctx wb ;;
      let* workBuf := ctx_workBuf ctx in
      match workBuf with
      | None => free ctx ;; ret NULL
      | Some _ =>
          let* workBuf_in := ctx_workBuf ctx in
          let* workBuf_out := ctx_workBuf ctx in
          let* a := create_emnr 1 0 bsize workBuf_in workBuf_out
                      fsize ovrlp sampleRate 0 (dlit 1 0) 2 0 1 in
          set_ctx_impl ctx a ;;
          let* impl := ctx_impl ctx in
          match impl with
          | None =>
              (let* workBuf := ctx_workBuf ctx in free workBuf) ;;
              free ctx ;; ret NULL
          | Some _ => ret ctx
          end
      end
  end.

(** The body of the loop of [wdsp_emnr_process], lines 65-86; the value
    is the new [offset].  The bound [ctx->bufSize] of the padding loop is
    read once: the loop stores to the [double] array only, and a store
    through a [double*] into the struct is a fault here. *)
Definition emnr_chunk (ctx inOut : ptr) (frameCount offset : Z) : M Z :=
  let chunk := int_sub frameCount offset in
  let* bufSize := ctx_bufSize ctx in
  let* chunk := (if chunk >? bufSize then ctx_bufSize ctx else ret chunk) in
  for_ 0 chunk (fun i =>
    (let* x := load_float inOut (int_add offset i) in
     let* workBuf := ctx_workBuf ctx in
     store_double workBuf (int_add (int_mul 2 i) 0) (to_double x)) ;;
    let* workBuf := ctx_workBuf ctx in
    store_double workBuf (int_add (int_mul 2 i) 1) dzero) ;;
  (let* bufSize := ctx_bufSize ctx in
   for_ chunk bufSize (fun i =>
     (let* workBuf := ctx_workBuf ctx in
      store_double workBuf (int_add (int_mul 2 i) 0) dzero) ;;
     let* workBuf := ctx_workBuf ctx in
     store_double workBuf (int_add (int_mul 2 i) 1) dzero)) ;;
  (let* impl := ctx_impl ctx in xemnr impl 0) ;;
  for_ 0 chunk (fun i =>
    let* workBuf := ctx_workBuf ctx in
    let* y := load_double workBuf (int_add (int_mul 2 i) 0) in
    store_float inOut (int_add offset i) (to_float y)) ;;
  ret (int_add offset chunk).

(** [wdsp_emnr_process], lines 62-88. *)
Definition wdsp_emnr_process (fuel : nat) (ctx inOut : ptr) (frameCount : Z)
  : M unit :=
  let offset := 0 in
  while_ fuel (fun offset => offset <? frameCount)
    (emnr_chunk ctx inOut frameCount) offset ;;
  ret tt.

(** [wdsp_emnr_destroy], lines 90-95. *)
Definition wdsp_emnr_destroy (ctx : ptr) : M unit :=
  match ctx with
  | None => ret tt
  | Some _ =>
      (let* impl := ctx_impl ctx in destroy_emnr impl) ;;
      (let* workBuf := ctx_workBuf ctx in free workBuf) ;;
      free ctx
  end.

(** [wdsp_anr_create], lines 105-141; [(void)sampleRate] is all that is
    done with the argument. *)
Definition wdsp_anr_create (sampleRate : Z) : M ptr :=
  let _ := sampleRate in
  let* ctx := calloc_ctx in
  match ctx with
  | None => ret NULL
  | Some _ =>
      let bsize := 480 in
      set_ctx_bufSize ctx bsize ;;
      let* wb := calloc_doubles (int_mul 2 bsize) in
      set_ctx_workBuf ctx wb ;;
      let* workBuf := ctx_workBuf ctx in
      match workBuf with
      | None => free ctx ;; ret NULL
      | Some _ =>
          let* workBuf_in := ctx_workBuf ctx in
          let* workBuf_out := ctx_workBuf ctx in
          let* a := create_anr 1 0 bsize workBuf_in workBuf_out
                      ANR_DLINE_SIZE 64 16
                      (dlit 1 (-4)) (dlit 1 (-1))
                      (dlit 120 0) (dlit 120 0) (dlit 200 0)
                      (dlit 1 (-3)) (dlit 625 (-12))
                      (dlit 1 0) (dlit 3 0) in
          set_ctx_impl ctx a ;;
          let* impl := ctx_impl ctx in
          match impl with
          | None =>
              (let* workBuf := ctx_workBuf ctx in free workBuf) ;;
              free ctx ;; ret NULL
          | Some _ => ret ctx
          end
      end
  end.

(** The body of the loop of [wdsp_anr_process], lines 146-163. *)
Definition anr_chunk (ctx inOut : ptr) (frameCount offset : Z) : M Z :=
  let chunk := int_sub frameCount offset in
  let* bufSize := ctx_bufSize ctx in
  let* chunk := (if chunk >? bufSize then ctx_bufSize ctx else ret chunk) in
  for_ 0 chunk (fun i =>
    (let* x := load_float inOut (int_add offset i) in
     let* workBuf := ctx_workBuf ctx in
     store_double workBuf (int_add (int_mul 2 i) 0) (to_double x)) ;;
    let* workBuf := ctx_workBuf ctx in
    store_double workBuf (int_add (int_mul 2 i) 1) dzero) ;;
  (let* bufSize := ctx_bufSize ctx in
   for_ chunk bufSize (fun i =>
     (let* workBuf := ctx_workBuf ctx in
      store_double workBuf (int_add (int_mul 2 i) 0) dzero) ;;
     let* workBuf := ctx_workBuf ctx in
     store_double workBuf (int_add (int_mul 2 i) 1) dzero)) ;;
  (let* impl := ctx_impl ctx in xanr impl 0) ;;
  for_ 0 chunk (fun i =>
    let* workBuf := ctx_workBuf ctx in
    let* y := load_double workBuf (int_add (int_mul 2 i) 0) in
    store_float inOut (int_add offset i) (to_float y)) ;;
  ret (int_add offset chunk).

(** [wdsp_anr_process], lines 143-165. *)
Definition wdsp_anr_process (fuel : nat) (ctx inOut : ptr) (frameCount : Z)
  : M unit :=
  let offset := 0 in
  while_ fuel (fun offset => offset <? frameCount)
    (anr_chunk ctx inOut frameCount) offset ;;
  ret tt.

(** [wdsp_anr_destroy], lines 167-172. *)
Definition wdsp_anr_destroy (ctx : ptr) : M unit :=
  match ctx with
  | None => ret tt
  | Some _ =>
      (let* impl := ctx_impl ctx in destroy_anr impl) ;;
      (let* workBuf := ctx_workBuf ctx in free workBuf) ;;
      free ctx
  end.

(** The two [process] functions are one text up to the engine called. *)
Definition chunk_of (v : variant) (ctx inOut : ptr) (frameCount offset : Z)
  : M Z :=
  match v with
  | EMNR => emnr_chunk ctx inOut frameCount offset
  | ANR => anr_chunk ctx inOut frameCount offset
  end.
Definition process_of (v : variant) : nat -> ptr -> ptr -> Z -> M unit :=
  match v with EMNR => wdsp_emnr_process | ANR => wdsp_anr_process end.
Definition create_of (v : variant) : Z -> M ptr :=
  match v with EMNR => wdsp_emnr_create | ANR => wdsp_anr_create end.
Definition destroy_of (v : variant) : ptr -> M unit :=
  match v with EMNR => wdsp_emnr_destroy | ANR => wdsp_anr_destroy end.

(** ** What one call of [process] computes, as functions on lists *)

(** [us] as IQ pairs with Q = 0. *)
Definition pairs (us : list double) : list double :=
  us ≫= (fun u => [u; dzero]).

(** The scratch buffer handed to the engine for a chunk: the samples,
    then zeros up to [B] pairs. *)
Definition pack (B : nat) (chunk : list float) : list double :=
  pairs ((to_double <$> chunk) ++ replicate (B - length chunk)%nat dzero).

(** The first [n] real slots of the engine's output, as floats. *)
Definition unpack (n : nat) (out : list double) : list float :=
  (fun i => to_float (default dzero (out !! (2 * i)%nat))) <$> seq 0 n.

(** [ys] written over [fs] from index [off]. *)
Definition splice (off : nat) (ys fs : list float) : list float :=
  take off fs ++ ys ++ drop (off + length ys)%nat fs.

(** [n] iterations of the loop from offset [off]: the engine state, the
    caller's samples, and each engine call's input and output. *)
Fixpoint run_chunks (v : variant) (B F : nat) (n : nat) (off : nat)
    (s : eng_state) (fs : list float)
  : eng_state * list float * list (list double * list double) :=
  match n with
  | O => (s, fs, [])
  | S n' =>
      let len := Nat.min (F - off) B in
      let input := pack B (take len (drop off fs)) in
      let '(s1, out) := eng_block v s input in
      let '(s2, fs2, ios) :=
        run_chunks v B F n' (off + len)%nat s1
          (splice off (unpack len out) fs) in
      (s2, fs2, (input, out) :: ios)
  end.

(** What a sequence of calls returns, from engine state [s]. *)
Fixpoint session_outs (v : variant) (s : eng_state)
    (inputs : list (list float)) : list (list float) :=
  match inputs with
  | [] => []
  | xs :: rest =>
      let n := length xs in
      let r := run_chunks v 480 n ((n + 479) / 480) 0 s xs in
      r.1.2 :: session_outs v r.1.1 rest
  end.

(** Chunks needed for [F] samples. *)
Definition nchunks (B F : nat) : nat := ((F + (B - 1)) / B)%nat.

(** ** The common text of the two loop bodies

    [emnr_chunk] and [anr_chunk] are [chunk_gen] at their engine
    ([chunk_of_gen] below). *)
Definition pack_body (ctx inOut : ptr) (offset : Z) (i : Z) : M unit :=
  (let* x := load_float inOut (int_add offset i) in
   let* workBuf := ctx_workBuf ctx in
   store_double workBuf (int_add (int_mul 2 i) 0) (to_double x)) ;;
  let* workBuf := ctx_workBuf ctx in
  store_double workBuf (int_add (int_mul 2 i) 1) dzero.

Definition pad_body (ctx : ptr) (i : Z) : M unit :=
  (let* workBuf := ctx_workBuf ctx in
   store_double workBuf (int_add (int_mul 2 i) 0) dzero) ;;
  let* workBuf := ctx_workBuf ctx in
  store_double workBuf (int_add (int_mul 2 i) 1) dzero.

Definition unpack_body (ctx inOut : ptr) (offset : Z) (i : Z) : M unit :=
  let* workBuf := ctx_workBuf ctx in
  let* y := load_double workBuf (int_add (int_mul 2 i) 0) in
  store_float inOut (int_add offset i) (to_float y).

Definition chunk_gen (v : variant) (ctx inOut : ptr) (frameCount offset : Z)
  : M Z :=
  let chunk := int_sub frameCount offset in
  let* bufSize := ctx_bufSize ctx in
  let* chunk := (if chunk >? bufSize then ctx_bufSize ctx else ret chunk) in
  for_ 0 chunk (pack_body ctx inOut offset) ;;
  (let* bufSize := ctx_bufSize ctx in
   for_ chunk bufSize (pad_body ctx)) ;;
  (let* impl := ctx_impl ctx in run_engine v impl 0) ;;
  for_ 0 chunk (unpack_body ctx inOut offset) ;;
  ret (int_add offset chunk).

(** ** The common text of the two constructors

    [wdsp_emnr_create] and [wdsp_anr_create] are [create_gen] at their
    block size and engine ([create_of_gen] below). *)
Definition create_gen (v : variant) (bsize : Z) (s0 : eng_state) : M ptr :=
  let* ctx := calloc_ctx in
  match ctx with
  | None => ret NULL
  | Some _ =>
      set_ctx_bufSize ctx bsize ;;
      let* wb := calloc_doubles (int_mul 2 bsize) in
      set_ctx_workBuf ctx wb ;;
      let* workBuf := ctx_workBuf ctx in
      match workBuf with
      | None => free ctx ;; ret NULL
      | Some _ =>
          let* workBuf_in := ctx_workBuf ctx in
          let* workBuf_out := ctx_workBuf ctx in
          let* a := create_engine v s0 bsize workBuf_in workBuf_out in
          set_ctx_impl ctx a ;;
          let* impl := ctx_impl ctx in
          match impl with
          | None =>
              (let* workBuf := ctx_workBuf ctx in free workBuf) ;;
              free ctx ;; ret NULL
          | Some _ => ret ctx
          end
      end
  end.

(** The engine state a constructor asks for. *)
Definition initial_state (v : variant) (sampleRate : Z) : eng_state :=
  match v with
  | EMNR =>
      emnr_initial {| emnr_run := 1; emnr_position := 0; emnr_size := 480;
                      emnr_fsize := 1920; emnr_ovrlp := 4;
                      emnr_rate := sampleRate; emnr_wintype := 0;
                      emnr_gain := dlit 1 0; emnr_gain_method := 2;
                      emnr_npe_method := 0; emnr_ae_run := 1 |}
  | ANR =>
      anr_initial {| anr_run := 1; anr_position := 0; anr_buff_size := 480;
                     anr_dline_size := ANR_DLINE_SIZE; anr_n_taps := 64;
                     anr_delay := 16; anr_two_mu := dlit 1 (-4);
                     anr_gamma := dlit 1 (-1); anr_lidx := dlit 120 0;
                     anr_lidx_min := dlit 120 0; anr_lidx_max := dlit 200 0;
                     anr_ngamma := dlit 1 (-3);
                     anr_den_mult := dlit 625 (-12);
                     anr_lincr := dlit 1 0; anr_ldecr := dlit 3 0 |}
  end.

(** ** Instances in the store *)

(** The engine object of an instance whose scratch buffer is at [b]. *)
Definition obj (v : variant) (b : loc) (B : nat) (s : eng_state)
  : engine_obj :=
  {| e_variant := v; e_state := s; e_in := Some b; e_out := Some b;
     e_size := Z.of_nat B |}.

(** The store [h0] in which the engine at [a] is in state [s], the scratch
    buffer at [b] holds [ds] and the caller's buffer at [p] holds [fs];
    [evs] has been appended to the trace [t0]. *)
Definition W (v : variant) (a b p : loc) (h0 : gmap loc cell)
    (o : list bool) (t0 : list event) (B : nat)
    (s : eng_state) (ds : list double) (fs : list float)
    (evs : list event) : world :=
  {| heap := <[p := CFloats fs]>
               (<[b := CDoubles ds]> (<[a := CEngine (obj v b B s)]> h0));
     oracle := o;
     trace := t0 ++ evs |}.

(** The engine invocations of a call, as events. *)
Definition events_of (v : variant) (a : loc)
    (ios : list (list double * list double)) : list event :=
  (fun io => EvEngineRun v a io.1 io.2) <$> ios.

(** The scratch buffer after the invocations [ios]. *)
Definition last_out (ios : list (list double * list double))
    (ds : list double) : list double :=
  default ds (last (snd <$> ios)).

(** The block size of both variants. *)
Definition BLOCK : nat := 480.

(** Length of the final chunk of [x > 0] samples. *)
Definition last_len (B x : nat) : nat :=
  if decide (x mod B = 0)%nat then B else (x mod B)%nat.

(** The store after [process] over [F] samples on the instance
    [(a, b, s)] whose scratch buffer holds [ds], the caller's buffer at [p]
    holding [fs]. *)
Definition after (v : variant) (w : world) (a b p : loc) (F : nat)
    (s : eng_state) (ds : list double) (fs : list float) : world :=
  let r := run_chunks v BLOCK F (nchunks BLOCK F) 0 s fs in
  W v a b p (heap w) (oracle w) (trace w) BLOCK
    r.1.1 (last_out r.2 ds) r.1.2 (events_of v a r.2).

(** The instance behind the handle [ctx], if [ctx] is the handle of a
    constructed [v] denoiser: its engine, its scratch buffer and the
    engine's state. *)
Definition instance (v : variant) (w : world) (ctx : loc)
  : option (loc * loc * eng_state) :=
  match heap w !! ctx with
  | Some (CCtx (Some a) (Some b) n) =>
      match heap w !! a, heap w !! b with
      | Some (CEngine o), Some (CDoubles ds) =>
          if decide (n = Z.of_nat BLOCK /\ e_variant o = v /\
                     e_in o = Some b /\ e_out o = Some b /\
                     e_size o = Z.of_nat BLOCK /\
                     length ds = (2 * BLOCK)%nat)
          then Some (a, b, e_state o) else None
      | _, _ => None
      end
  | _ => None
  end.

(** State [Ready] of the handle. *)
Definition ready (v : variant) (w : world) (ctx : loc) : Prop :=
  is_Some (instance v w ctx).

(** The caller's buffer. *)
Definition floats_at (w : world) (p : loc) : option (list float) :=
  match heap w !! p with
  | Some (CFloats fs) => Some fs
  | _ => None
  end.

(** An allocation or construction attempt that failed. *)
Definition failed_step (e : event) : bool :=
  match e with
  | EvAlloc None | EvEngineCreate _ None => true
  | _ => false
  end.

Definition is_engine_run (e : event) : bool :=
  match e with EvEngineRun _ _ _ _ => true | _ => false end.

(** ** A caller

    [feed] puts [xs] in its buffer (which it owns), has it processed in
    full and reads the result; [session] feeds a sequence of inputs to
    one handle; [duet] feeds the same inputs, one after the other, to two
    handles in turn. *)
Definition feed (v : variant) (ctx inOut : ptr) (xs : list float)
  : M (list float) :=
  (let* old := load_cell inOut in
   match old with
   | CFloats _ => store_cell inOut (CFloats xs)
   | _ => fault
   end) ;;
  process_of v (length xs) ctx inOut (Z.of_nat (length xs)) ;;
  let* c := load_cell inOut in
  match c with
  | CFloats ys => ret ys
  | _ => fault
  end.

Fixpoint session (v : variant) (ctx inOut : ptr)
    (inputs : list (list float)) : M (list (list float)) :=
  match inputs with
  | [] => ret []
  | xs :: rest =>
      let* ys := feed v ctx inOut xs in
      let* outs := session v ctx inOut rest in
      ret (ys :: outs)
  end.

Fixpoint duet (v : variant) (ctx1 ctx2 inOut1 inOut2 : ptr)
    (inputs : list (list float)) : M (list (list float * list float)) :=
  match inputs with
  | [] => ret []
  | xs :: rest =>
      let* ys1 := feed v ctx1 inOut1 xs in
      let* ys2 := feed v ctx2 inOut2 xs in
      let* outs := duet v ctx1 ctx2 inOut1 inOut2 rest in
      ret ((ys1, ys2) :: outs)
  end.

End Wrapper.

(** ** A small platform on which the code runs

    Samples are integers, the casts are visible in the results, and the
    engine adds its state to three times each slot and counts its calls;
    the EMNR engine starts from the sample rate it is given. *)
Module Toy.

Definition toy_samples : Samples :=
  {| float := Z; double := Z;
     to_double := fun x => 2 * x;
     to_float := fun y => y + 1;
     dlit := fun m e => m * 10 ^ e |}.

Definition toy_engines : @Engines toy_samples :=
  {| eng_state := Z;
     emnr_initial := fun args => @emnr_rate toy_samples args;
     anr_initial := fun args => @anr_n_taps toy_samples args;
     eng_block := fun _ s buf => (s + 1, List.map (fun x => 3 * x + s) buf);
     eng_block_length := fun _ s buf =>
       List.length_map (fun x => 3 * x + s) buf |}.

#[local] Existing Instance toy_samples.
#[local] Existing Instance toy_engines.

(** A caller's buffer of three samples at address 1. *)
Definition toy_w0 : world :=
  {| heap := {[ 1%positive := CFloats [5; 7; 9] ]};
     oracle := []; trace := [] |}.

(** The same after [wdsp_emnr_create 48000]. *)
Definition toy_ready : world :=
  {| heap := {[ 1%positive := CFloats [5; 7; 9];
                2%positive := CCtx (Some 4%positive) (Some 3%positive) 480;
                3%positive := CDoubles (replicate 960 0);
                4%positive := CEngine (obj EMNR 3%positive 480 48000) ]};
     oracle := [];
     trace := [EvAlloc (Some 2%positive); EvAlloc (Some 3%positive);
               EvEngineCreate EMNR (Some 4%positive)] |}.

(** A second store, its buffer at address 7 and its first allocation
    decisions given. *)
Definition toy_w1 : world :=
  {| heap := {[ 7%positive := CFloats [1; 2] ]};
     oracle := [true; true]; trace := [] |}.

Definition toy_ready1 : world :=
  {| heap := {[ 7%positive := CFloats [1; 2];
                8%positive := CCtx (Some 10%positive) (Some 9%positive) 480;
                9%positive := CDoubles (replicate 960 0);
                10%positive := CEngine (obj EMNR 9%positive 480 48000) ]};
     oracle := [];
     trace := [EvAlloc (Some 8%positive); EvAlloc (Some 9%positive);
               EvEngineCreate EMNR (Some 10%positive)] |}.

(** A handle as no constructor makes it: block size 0. *)
Definition toy_stuck : world :=
  {| heap := {[ 1%positive := CFloats [5; 7; 9];
                2%positive := CCtx (Some 4%positive) (Some 3%positive) 0;
                3%positive := CDoubles (replicate 960 0);
                4%positive := CEngine (obj EMNR 3%positive 480 48000) ]};
     oracle := []; trace := [] |}.

(** What a call came to, in short: the caller's samples, and the first
    eight slots of the scratch buffer at each engine invocation. *)
Definition summary (p : loc) (r : result (unit * world))
  : result (option (list float) * list (list double)) :=
  match r with
  | Ok (_, w) =>
      Ok (floats_at w p,
          omap (fun e => match e with
                         | EvEngineRun _ _ input _ => Some (take 8 input)
                         | _ => None
                         end) (trace w))
  | Fault => Fault
  | OutOfFuel => OutOfFuel
  end.

(** The number of engine invocations in the trace after a call. *)
Definition invocations (r : result (unit * world)) : result nat :=
  match r with
  | Ok (_, w) => Ok (length (filter (fun e => is_engine_run e = true) (trace w)))
  | Fault => Fault
  | OutOfFuel => OutOfFuel
  end.

(** [toy_ready] with 960 samples of silence in the caller's buffer. *)
Definition toy_silence : world :=
  set_heap (<[1%positive := CFloats (replicate 960 0)]> (heap toy_ready))
    toy_ready.

End Toy.

(** ** The stream seen from the front

    [n] chunks of the first [F] samples of [fs], from engine state [s]:
    the first chunk is packed and run, its real outputs replace it, and the
    rest of the samples follow with what is left of [F]. *)
Section Streaming.
Context {Smp : Samples} {Eng : Engines}.

Fixpoint stream (v : variant) (B : nat) (n : nat) (F : nat)
    (s : eng_state) (fs : list float)
  : eng_state * list float * list (list double * list double) :=
  match n with
  | O => (s, fs, [])
  | S n' =>
      let len := Nat.min F B in
      let input := pack B (take len fs) in
      let '(s1, out) := eng_block v s input in
      let '(s2, fs2, ios) := stream v B n' (F - len) s1 (drop len fs) in
      (s2, unpack len out ++ fs2, (input, out) :: ios)
  end.

(** The engine state after the blocks [inputs], from [s]. *)
Definition state_after (v : variant) (s : eng_state)
    (inputs : list (list double)) : eng_state :=
  foldl (fun st input => (eng_block v st input).1) s inputs.

End Streaming.

(** ** A pass-through platform

    The casts are exact and the engine hands its buffer back as it got it,
    counting its calls. *)
Module Echo.

Definition echo_samples : Samples :=
  {| float := Z; double := Z;
     to_double := fun x => x;
     to_float := fun y => y;
     dlit := fun m e => m * 10 ^ e |}.

Definition echo_engines : @Engines echo_samples :=
  {| eng_state := nat;
     emnr_initial := fun _ => O;
     anr_initial := fun _ => O;
     eng_block := fun _ s buf => (S s, buf);
     eng_block_length := fun _ _ buf => eq_refl |}.

#[local] Existing Instance echo_samples.
#[local] Existing Instance echo_engines.

(** A ready ANR handle at address 2 and a caller's buffer at address 1. *)
Definition echo_ready : world :=
  {| heap := {[ 1%positive := CFloats [5; 7; 9];
                2%positive := CCtx (Some 4%positive) (Some 3%positive) 480;
                3%positive := CDoubles (replicate 960 0);
                4%positive := CEngine (obj ANR 3%positive 480 O) ]};
     oracle := []; trace := [] |}.

End Echo.

(** ** More stores on the small platform *)
Module Toy2.
Import Toy.
#[local] Existing Instance toy_samples.
#[local] Existing Instance toy_engines.

(** [toy_ready] after a second [wdsp_emnr_create 48000]. *)
Definition toy_pair : world :=
  {| heap := {[ 1%positive := CFloats [5; 7; 9];
                2%positive := CCtx (Some 4%positive) (Some 3%positive) 480;
                3%positive := CDoubles (replicate 960 0);
                4%positive := CEngine (obj EMNR 3%positive 480 48000);
                5%positive := CCtx (Some 7%positive) (Some 6%positive) 480;
                6%positive := CDoubles (replicate 960 0);
                7%positive := CEngine (obj EMNR 6%positive 480 48000) ]};
     oracle := [];
     trace := [EvAlloc (Some 2%positive); EvAlloc (Some 3%positive);
               EvEngineCreate EMNR (Some 4%positive);
               EvAlloc (Some 5%positive); EvAlloc (Some 6%positive);
               EvEngineCreate EMNR (Some 7%positive)] |}.

(** Another store: other addresses, other samples after the second one,
    and a scratch buffer left full of threes. *)
Definition toy_other : world :=
  {| heap := {[ 11%positive := CFloats [5; 7; 1; 1];
                12%positive := CCtx (Some 14%positive) (Some 13%positive) 480;
                13%positive := CDoubles (replicate 960 3);
                14%positive := CEngine (obj EMNR 13%positive 480 48000) ]};
     oracle := [false]; trace := [] |}.

End Toy2.

(** * Proofs *)

Lemma wrap32_id z : is_int z -> wrap32 z = z.
Proof.
  unfold is_int, INT_MIN, INT_MAX, wrap32. intros Hz.
  rewrite Z.mod_small; lia.
Qed.

Section Proofs.
Context {Smp : Samples} {Eng : Engines}.

Lemma bind_ok {A B} (m : M A) (k : A -> M B) w a w1 :
  m w = Ok (a, w1) -> bind m k w = k a w1.
Proof. unfold bind. by intros ->. Qed.

Lemma for_loop_rule (I : nat -> world -> Prop) n lo body w :
  (forall k w1, (lo <= k < lo + n)%nat -> I k w1 ->
     exists w2, body (Z.of_nat k) w1 = Ok (tt, w2) /\ I (S k) w2) ->
  I lo w ->
  exists w', for_loop n (Z.of_nat lo) body w = Ok (tt, w') /\ I (lo + n)%nat w'.
Proof.
  revert lo w. induction n as [|n IH]; intros lo w Hbody HI.
  - exists w. rewrite Nat.add_0_r. done.
  - destruct (Hbody lo w) as (w2 & Hw2 & HI2); [lia|done|].
    destruct (IH (S lo) w2) as (w' & Hw' & HI').
    { intros k w1 Hk. apply Hbody. lia. }
    { done. }
    exists w'. split.
    + cbn [for_loop]. rewrite (bind_ok _ _ _ _ _ Hw2).
      replace (Z.of_nat lo + 1) with (Z.of_nat (S lo)) by lia. done.
    + by replace (lo + S n)%nat with (S lo + n)%nat by lia.
Qed.

(** *** Lists *)

Lemma pairs_app (us vs : list double) : pairs (us ++ vs) = pairs us ++ pairs vs.
Proof. unfold pairs. apply bind_app. Qed.

Lemma pairs_length (us : list double) : length (pairs us) = (2 * length us)%nat.
Proof.
  induction us as [|u us IH]; [done|].
  change (pairs (u :: us)) with (u :: dzero :: pairs us). cbn [length]. lia.
Qed.

Lemma pairs_lookup_re (us : list double) i :
  pairs us !! (2 * i)%nat = us !! i.
Proof.
  revert i. induction us as [|u us IH]; intros [|i]; try done.
  change (pairs (u :: us)) with (u :: dzero :: pairs us).
  replace (2 * S i)%nat with (S (S (2 * i))) by lia. cbn [lookup list_lookup].
  apply IH.
Qed.

Lemma pairs_lookup_im (us : list double) i :
  (i < length us)%nat -> pairs us !! (2 * i + 1)%nat = Some dzero.
Proof.
  revert i. induction us as [|u us IH]; intros [|i] Hi; cbn [length] in Hi;
    try lia; try done.
  change (pairs (u :: us)) with (u :: dzero :: pairs us).
  replace (2 * S i + 1)%nat with (S (S (2 * i + 1))) by lia.
  cbn [lookup list_lookup]. apply IH. lia.
Qed.

Lemma set_pair (pre rest : list double) k u z :
  length pre = (2 * k)%nat -> (2 <= length rest)%nat ->
  <[(2 * k + 1)%nat := z]> (<[(2 * k)%nat := u]> (pre ++ rest))
  = pre ++ [u; z] ++ drop 2 rest.
Proof.
  intros Hpre Hrest.
  destruct rest as [|r0 [|r1 rest]]; cbn [length] in Hrest; try lia.
  rewrite insert_app_r_alt by lia.
  rewrite insert_app_r_alt by lia.
  replace (2 * k - length pre)%nat with 0%nat by lia.
  replace (2 * k + 1 - length pre)%nat with 1%nat by lia.
  done.
Qed.

Lemma pack_length B (chunk : list float) :
  (length chunk <= B)%nat -> length (pack B chunk) = (2 * B)%nat.
Proof.
  intros H. unfold pack.
  rewrite pairs_length, length_app, length_fmap, length_replicate. lia.
Qed.

Lemma unpack_length n out : length (unpack n out) = n.
Proof. unfold unpack. by rewrite length_fmap, length_seq. Qed.

Lemma unpack_S n out :
  unpack (S n) out =
  unpack n out ++ [to_float (default dzero (out !! (2 * n)%nat))].
Proof. unfold unpack. by rewrite seq_S, fmap_app. Qed.

Lemma splice_length off ys (fs : list float) :
  (off + length ys <= length fs)%nat ->
  length (splice off ys fs) = length fs.
Proof.
  intros H. unfold splice.
  rewrite !length_app, length_take, length_drop. lia.
Qed.

Lemma splice_step off ys z (fs : list float) :
  (off + length ys < length fs)%nat ->
  <[(off + length ys)%nat := z]> (splice off ys fs) = splice off (ys ++ [z]) fs.
Proof.
  intros H. unfold splice.
  rewrite insert_app_r_alt by (rewrite length_take; lia).
  rewrite length_take.
  replace (off + length ys - off `min` length fs)%nat with (length ys) by lia.
  rewrite insert_app_r_alt by lia. rewrite Nat.sub_diag.
  rewrite length_app. cbn [length].
  destruct (drop (off + length ys) fs) as [|d ds] eqn:E.
  { apply (f_equal length) in E. rewrite length_drop in E. cbn in E. lia. }
  cbn [insert list_insert].
  rewrite <- (app_assoc ys [z]). cbn [app].
  do 3 f_equal.
  replace (off + (length ys + 1))%nat with (off + length ys + 1)%nat by lia.
  rewrite <- drop_drop, E. done.
Qed.

Lemma splice_nil off (fs : list float) : splice off [] fs = fs.
Proof. unfold splice. cbn. rewrite Nat.add_0_r. apply take_drop. Qed.

Lemma splice_lookup_lt off ys (fs : list float) j :
  (off <= length fs)%nat -> (j < off)%nat -> splice off ys fs !! j = fs !! j.
Proof.
  intros Hoff Hj. unfold splice.
  rewrite lookup_app_l by (rewrite length_take; lia).
  by rewrite lookup_take_lt.
Qed.

Lemma splice_lookup_mid off ys (fs : list float) i :
  (off <= length fs)%nat -> (i < length ys)%nat ->
  splice off ys fs !! (off + i)%nat = ys !! i.
Proof.
  intros Hoff Hi. unfold splice.
  rewrite lookup_app_r by (rewrite length_take; lia).
  rewrite length_take.
  replace (off + i - off `min` length fs)%nat with i by lia.
  by rewrite lookup_app_l.
Qed.

Lemma splice_lookup_ge off ys (fs : list float) j :
  (off + length ys <= length fs)%nat -> (off + length ys <= j)%nat ->
  splice off ys fs !! j = fs !! j.
Proof.
  intros Hfs Hj. unfold splice.
  rewrite lookup_app_r by (rewrite length_take; lia).
  rewrite lookup_app_r by (rewrite length_take; lia).
  rewrite lookup_drop, length_take. f_equal. lia.
Qed.

Lemma drop_splice k off ys (fs : list float) :
  (off + length ys <= length fs)%nat -> (off + length ys <= k)%nat ->
  drop k (splice off ys fs) = drop k fs.
Proof.
  intros Hfs Hk. apply list_eq. intros i. rewrite !lookup_drop.
  apply splice_lookup_ge; lia.
Qed.

Lemma unpack_lookup n out i :
  (i < n)%nat ->
  unpack n out !! i = Some (to_float (default dzero (out !! (2 * i)%nat))).
Proof.
  intros Hi. unfold unpack. rewrite list_lookup_fmap.
  by rewrite lookup_seq_lt.
Qed.

Lemma pack_lookup_re B (chunk : list float) i x :
  chunk !! i = Some x -> pack B chunk !! (2 * i)%nat = Some (to_double x).
Proof.
  intros Hx. unfold pack. rewrite pairs_lookup_re.
  rewrite lookup_app_l by (rewrite length_fmap; by eapply lookup_lt_Some).
  by rewrite list_lookup_fmap, Hx.
Qed.

Lemma pack_lookup_pad B (chunk : list float) i :
  (length chunk <= i < B)%nat -> pack B chunk !! (2 * i)%nat = Some dzero.
Proof.
  intros Hi. unfold pack. rewrite pairs_lookup_re.
  rewrite lookup_app_r by (rewrite length_fmap; lia).
  rewrite length_fmap. apply lookup_replicate_2. lia.
Qed.

Lemma pack_lookup_im B (chunk : list float) i :
  (length chunk <= B)%nat -> (i < B)%nat ->
  pack B chunk !! (2 * i + 1)%nat = Some dzero.
Proof.
  intros Hc Hi. unfold pack. apply pairs_lookup_im.
  rewrite length_app, length_fmap, length_replicate. lia.
Qed.

(** *** The iteration, on lists *)

Lemma run_chunks_count v B F n off s fs :
  length (run_chunks v B F n off s fs).2 = n.
Proof.
  revert off s fs. induction n as [|n IH]; intros off s fs; [done|].
  cbn [run_chunks].
  destruct (eng_block _ _ _) as [s1 out].
  specialize (IH (off + Nat.min (F - off) B)%nat s1
                 (splice off (unpack (Nat.min (F - off) B) out) fs)).
  destruct (run_chunks _ _ _ _ _ _ _) as [[s2 fs2] ios].
  cbn [snd length] in *. by rewrite IH.
Qed.

Lemma run_chunks_inputs v B F n off s fs :
  Forall (fun io => exists chunk : list float,
            (length chunk <= B)%nat /\ io.1 = pack B chunk /\
            length io.2 = (2 * B)%nat)
         (run_chunks v B F n off s fs).2.
Proof.
  revert off s fs. induction n as [|n IH]; intros off s fs; [constructor|].
  cbn [run_chunks].
  destruct (eng_block _ _ _) as [s1 out] eqn:E.
  specialize (IH (off + Nat.min (F - off) B)%nat s1
                 (splice off (unpack (Nat.min (F - off) B) out) fs)).
  destruct (run_chunks _ _ _ _ _ _ _) as [[s2 fs2] ios].
  cbn [snd] in *. constructor; [|done].
  exists (take (Nat.min (F - off) B) (drop off fs)). cbn [fst snd].
  assert (length (take (Nat.min (F - off) B) (drop off fs)) <= B)%nat
    by (rewrite length_take; lia).
  split_and!; [done|done|].
  pose proof (eng_block_length v s
    (pack B (take (Nat.min (F - off) B) (drop off fs)))) as Hl.
  rewrite E in Hl. cbn [snd] in Hl. rewrite Hl. by apply pack_length.
Qed.

Lemma run_chunks_frame v B F n off s fs :
  (off <= F)%nat -> (F <= length fs)%nat ->
  length (run_chunks v B F n off s fs).1.2 = length fs /\
  forall j, (j < off \/ F <= j)%nat ->
    (run_chunks v B F n off s fs).1.2 !! j = fs !! j.
Proof.
  revert off s fs. induction n as [|n IH]; intros off s fs Hoff Hfs; [done|].
  cbn [run_chunks].
  set (len := Nat.min (F - off) B).
  destruct (eng_block _ _ _) as [s1 out] eqn:E.
  assert (Hsp : length (splice off (unpack len out) fs) = length fs).
  { rewrite splice_length; rewrite ?unpack_length; lia. }
  destruct (IH (off + len)%nat s1 (splice off (unpack len out) fs))
    as [IH1 IH2]; [lia|lia|].
  destruct (run_chunks _ _ _ _ _ _ _) as [[s2 fs2] ios].
  cbn [fst snd] in *. split; [lia|].
  intros j Hj. rewrite IH2 by lia.
  destruct Hj as [Hj|Hj].
  - apply splice_lookup_lt; lia.
  - apply splice_lookup_ge; rewrite unpack_length; lia.
Qed.

End Proofs.

(** *** Counting chunks *)

Lemma nchunks_0 B : (0 < B)%nat -> nchunks B 0 = 0%nat.
Proof. intros. unfold nchunks. apply Nat.div_small. lia. Qed.

Lemma nchunks_pos B x :
  (0 < B)%nat -> (0 < x)%nat ->
  nchunks B x = S (nchunks B (x - Nat.min x B)).
Proof.
  intros HB Hx. unfold nchunks.
  destruct (Nat.le_gt_cases x B) as [Hle|Hgt].
  - rewrite Nat.min_l by done. rewrite Nat.sub_diag.
    rewrite (Nat.div_small (0 + (B - 1))) by lia.
    symmetry. apply (Nat.div_unique _ _ 1 (x - 1)); lia.
  - rewrite Nat.min_r by lia.
    replace (x + (B - 1))%nat with ((x - B + (B - 1)) + 1 * B)%nat by lia.
    rewrite Nat.div_add by lia. lia.
Qed.

Lemma nchunks_Z B F :
  (0 < B)%nat ->
  Z.of_nat (nchunks B F) = (Z.of_nat F + (Z.of_nat B - 1)) / Z.of_nat B.
Proof.
  intros HB. unfold nchunks. rewrite Nat2Z.inj_div. f_equal. lia.
Qed.

Lemma last_len_small B x : (0 < x <= B)%nat -> last_len B x = x.
Proof.
  intros Hx. unfold last_len.
  destruct (decide (x = B)) as [->|Hne].
  - rewrite Nat.Div0.mod_same. by rewrite decide_True.
  - rewrite Nat.mod_small by lia. by rewrite decide_False by lia.
Qed.

Lemma last_len_big B x :
  (0 < B)%nat -> (B < x)%nat ->
  last_len B x = last_len B (x - B) /\ (last_len B x <= x - B)%nat.
Proof.
  intros HB Hx. unfold last_len.
  assert (x mod B = (x - B) mod B)%nat as ->.
  { replace x with ((x - B) + 1 * B)%nat at 1 by lia.
    apply Nat.Div0.mod_add. }
  split; [done|].
  pose proof (Nat.div_mod_eq (x - B) B) as Hd.
  pose proof (Nat.mod_upper_bound (x - B) B ltac:(lia)) as Hm.
  case_decide as Hr; [|lia].
  rewrite Hr, Nat.add_0_r in Hd.
  destruct ((x - B) / B)%nat; [lia|nia].
Qed.

(** *** The final chunk *)
Section Last.
Context {Smp : Samples} {Eng : Engines}.

Lemma run_chunks_last v B F n : forall off s fs,
  (0 < B)%nat -> (off < F)%nat -> (F <= length fs)%nat ->
  n = nchunks B (F - off) ->
  exists ios out,
    (run_chunks v B F n off s fs).2
    = ios ++ [(pack B (take (last_len B (F - off))
                         (drop (F - last_len B (F - off)) fs)), out)] /\
    forall i, (i < last_len B (F - off))%nat ->
      (run_chunks v B F n off s fs).1.2
        !! (F - last_len B (F - off) + i)%nat
      = Some (to_float (default dzero (out !! (2 * i)%nat))).
Proof.
  induction n as [|n IH]; intros off s fs HB Hoff HF Hn.
  { rewrite (nchunks_pos B (F - off)) in Hn by lia. done. }
  rewrite (nchunks_pos B (F - off)) in Hn by lia. injection Hn as Hn.
  cbn [run_chunks].
  set (len := Nat.min (F - off) B) in *.
  destruct (eng_block _ _ _) as [s1 out] eqn:E.
  destruct (Nat.le_gt_cases (F - off) B) as [Hle|Hgt].
  - assert (len = (F - off)%nat) as Hlen by lia.
    rewrite last_len_small by lia.
    rewrite Hlen, Nat.sub_diag, nchunks_0 in Hn by done. subst n.
    cbn [run_chunks fst snd]. exists [], out. split.
    + cbn [app]. do 2 f_equal. rewrite Hlen.
      by replace (F - (F - off))%nat with off by lia.
    + intros i Hi. replace (F - (F - off))%nat with off by lia.
      rewrite Hlen.
      rewrite splice_lookup_mid by (rewrite ?unpack_length; lia).
      by apply unpack_lookup.
  - assert (len = B) as Hlen by lia.
    destruct (last_len_big B (F - off) HB Hgt) as [Hll Hlb].
    assert (Hsp : length (splice off (unpack len out) fs) = length fs).
    { rewrite splice_length; rewrite ?unpack_length; lia. }
    destruct (IH (off + len)%nat s1 (splice off (unpack len out) fs))
      as (ios & out' & Hios & Hlook); [done|lia|lia| |].
    { rewrite Hn. f_equal. lia. }
    replace (F - (off + len))%nat with (F - off - B)%nat in * by lia.
    rewrite <- Hll in *.
    destruct (run_chunks _ _ _ _ _ _ _) as [[s2 fs2] ios2].
    cbn [fst snd] in *.
    exists ((pack B (take len (drop off fs)), out) :: ios), out'. split.
    + rewrite Hios. cbn [app].
      rewrite drop_splice by (rewrite unpack_length; lia). done.
    + done.
Qed.

End Last.

(** *** The common text of the two loop bodies *)
Section Common.
Context {Smp : Samples} {Eng : Engines}.

Lemma chunk_of_gen v : chunk_of v = chunk_gen v.
Proof. by destruct v. Qed.

Lemma process_of_unfold v fuel ctx inOut frameCount :
  process_of v fuel ctx inOut frameCount =
  bind (while_ fuel (fun offset => offset <? frameCount)
          (chunk_of v ctx inOut frameCount) 0) (fun _ => ret tt).
Proof. by destruct v. Qed.

End Common.

(** *** One instance in the store

    [W s ds fs evs] is the store in which the engine of the instance at
    [c] is in state [s], its scratch buffer holds [ds], the caller's
    buffer at [p] holds [fs], and [evs] has been appended to the trace. *)
Section OneInstance.
Context {Smp : Samples} {Eng : Engines}.
Variables (v : variant) (c a b p : loc).
Variables (h0 : gmap loc cell) (o : list bool) (t0 : list event) (B : nat).
Hypothesis Hc : h0 !! c = Some (CCtx (Some a) (Some b) (Z.of_nat B)).
Hypothesis Hca : c <> a.
Hypothesis Hcb : c <> b.
Hypothesis Hcp : c <> p.
Hypothesis Hab : a <> b.
Hypothesis Hap : a <> p.
Hypothesis Hbp : b <> p.
Hypothesis HB : (0 < B)%nat.
Hypothesis HB2 : 2 * Z.of_nat B + 1 <= INT_MAX.

Local Abbreviation obj := (obj v b B).
Local Abbreviation W := (W v a b p h0 o t0 B).
Local Abbreviation events_of := (events_of v a).

Lemma W_c s ds fs evs :
  heap (W s ds fs evs) !! c = Some (CCtx (Some a) (Some b) (Z.of_nat B)).
Proof. cbn [W heap]. by rewrite !lookup_insert_ne. Qed.
Lemma W_a s ds fs evs : heap (W s ds fs evs) !! a = Some (CEngine (obj s)).
Proof.
  cbn [W heap]. rewrite !lookup_insert_ne by done. apply lookup_insert_eq.
Qed.
Lemma W_b s ds fs evs : heap (W s ds fs evs) !! b = Some (CDoubles ds).
Proof.
  cbn [W heap]. rewrite lookup_insert_ne by done. apply lookup_insert_eq.
Qed.
Lemma W_p s ds fs evs : heap (W s ds fs evs) !! p = Some (CFloats fs).
Proof. cbn [W heap]. apply lookup_insert_eq. Qed.

Lemma W_set_b s ds ds' fs evs :
  set_heap (<[b := CDoubles ds']> (heap (W s ds fs evs))) (W s ds fs evs)
  = W s ds' fs evs.
Proof.
  unfold set_heap, W. cbn [heap oracle trace]. f_equal.
  rewrite (insert_insert_ne _ b p) by done. by rewrite insert_insert_eq.
Qed.
Lemma W_set_p s ds fs fs' evs :
  set_heap (<[p := CFloats fs']> (heap (W s ds fs evs))) (W s ds fs evs)
  = W s ds fs' evs.
Proof.
  unfold set_heap, W. cbn [heap oracle trace]. f_equal.
  by rewrite insert_insert_eq.
Qed.
Lemma W_set_a s s' ds fs evs :
  set_heap (<[a := CEngine (obj s')]> (heap (W s ds fs evs))) (W s ds fs evs)
  = W s' ds fs evs.
Proof.
  unfold set_heap, W. cbn [heap oracle trace]. f_equal.
  rewrite (insert_insert_ne _ a p) by done.
  rewrite (insert_insert_ne _ a b) by done.
  by rewrite insert_insert_eq.
Qed.
Lemma W_log s ds fs evs e :
  add_event e (W s ds fs evs) = W s ds fs (evs ++ [e]).
Proof. unfold add_event, W. cbn [heap oracle trace]. by rewrite app_assoc. Qed.

Lemma load_cell_W l x s ds fs evs :
  heap (W s ds fs evs) !! l = Some x ->
  load_cell (Some l) (W s ds fs evs) = Ok (x, W s ds fs evs).
Proof. intros E. unfold load_cell, bind, get_heap. by rewrite E. Qed.

Lemma ctx_bufSize_W s ds fs evs :
  ctx_bufSize (Some c) (W s ds fs evs) = Ok (Z.of_nat B, W s ds fs evs).
Proof.
  unfold ctx_bufSize.
  by rewrite (bind_ok _ _ _ _ _ (load_cell_W _ _ _ _ _ _ (W_c _ _ _ _))).
Qed.
Lemma ctx_workBuf_W s ds fs evs :
  ctx_workBuf (Some c) (W s ds fs evs) = Ok (Some b, W s ds fs evs).
Proof.
  unfold ctx_workBuf.
  by rewrite (bind_ok _ _ _ _ _ (load_cell_W _ _ _ _ _ _ (W_c _ _ _ _))).
Qed.
Lemma ctx_impl_W s ds fs evs :
  ctx_impl (Some c) (W s ds fs evs) = Ok (Some a, W s ds fs evs).
Proof.
  unfold ctx_impl.
  by rewrite (bind_ok _ _ _ _ _ (load_cell_W _ _ _ _ _ _ (W_c _ _ _ _))).
Qed.

Lemma load_float_W (i : nat) x s ds fs evs :
  fs !! i = Some x ->
  load_float (Some p) (Z.of_nat i) (W s ds fs evs) = Ok (x, W s ds fs evs).
Proof.
  intros E. unfold load_float.
  rewrite (bind_ok _ _ _ _ _ (load_cell_W _ _ _ _ _ _ (W_p _ _ _ _))).
  destruct (Z.leb_spec 0 (Z.of_nat i)); [|lia].
  by rewrite Nat2Z.id, E.
Qed.
Lemma load_double_W (i : nat) x s ds fs evs :
  ds !! i = Some x ->
  load_double (Some b) (Z.of_nat i) (W s ds fs evs) = Ok (x, W s ds fs evs).
Proof.
  intros E. unfold load_double.
  rewrite (bind_ok _ _ _ _ _ (load_cell_W _ _ _ _ _ _ (W_b _ _ _ _))).
  destruct (Z.leb_spec 0 (Z.of_nat i)); [|lia].
  by rewrite Nat2Z.id, E.
Qed.
Lemma store_double_W (i : nat) x s ds fs evs :
  (i < length ds)%nat ->
  store_double (Some b) (Z.of_nat i) x (W s ds fs evs)
  = Ok (tt, W s (<[i := x]> ds) fs evs).
Proof.
  intros Hi. unfold store_double.
  rewrite (bind_ok _ _ _ _ _ (load_cell_W _ _ _ _ _ _ (W_b _ _ _ _))).
  destruct (Z.leb_spec 0 (Z.of_nat i)); [|lia].
  destruct (Z.ltb_spec (Z.of_nat i) (Z.of_nat (length ds))); [|lia].
  cbn [andb]. unfold store_cell, bind, get_heap, put_heap.
  by rewrite Nat2Z.id, W_set_b.
Qed.
Lemma store_float_W (i : nat) x s ds fs evs :
  (i < length fs)%nat ->
  store_float (Some p) (Z.of_nat i) x (W s ds fs evs)
  = Ok (tt, W s ds (<[i := x]> fs) evs).
Proof.
  intros Hi. unfold store_float.
  rewrite (bind_ok _ _ _ _ _ (load_cell_W _ _ _ _ _ _ (W_p _ _ _ _))).
  destruct (Z.leb_spec 0 (Z.of_nat i)); [|lia].
  destruct (Z.ltb_spec (Z.of_nat i) (Z.of_nat (length fs))); [|lia].
  cbn [andb]. unfold store_cell, bind, get_heap, put_heap.
  by rewrite Nat2Z.id, W_set_p.
Qed.

Lemma load_engine_W s ds fs evs :
  load_engine v (Some a) (W s ds fs evs) = Ok (obj s, W s ds fs evs).
Proof.
  unfold load_engine.
  rewrite (bind_ok _ _ _ _ _ (load_cell_W _ _ _ _ _ _ (W_a _ _ _ _))).
  cbn [obj e_variant]. by rewrite decide_True.
Qed.

Lemma run_engine_W pos s ds fs evs :
  length ds = (2 * B)%nat ->
  run_engine v (Some a) pos (W s ds fs evs)
  = Ok (tt, W (eng_block v s ds).1 (eng_block v s ds).2 fs
              (evs ++ [EvEngineRun v a ds (eng_block v s ds).2])).
Proof.
  intros Hlen. unfold run_engine.
  rewrite (bind_ok _ _ _ _ _ (load_engine_W _ _ _ _)).
  cbn [obj e_in e_out e_size e_state].
  rewrite (bind_ok _ _ _ _ _ (load_cell_W _ _ _ _ _ _ (W_b _ _ _ _))).
  rewrite decide_True by lia.
  destruct (eng_block v s ds) as [s' out] eqn:E.
  rewrite (bind_ok _ _ _ _ _ (load_cell_W _ _ _ _ _ _ (W_b _ _ _ _))).
  unfold store_cell, bind, get_heap, put_heap, log.
  rewrite W_set_b. fold (obj s'). rewrite W_set_a, W_log. done.
Qed.

Lemma pack_body_W (off k : nat) x s ds fs evs :
  Z.of_nat (off + k) <= INT_MAX -> (k < B)%nat ->
  fs !! (off + k)%nat = Some x -> length ds = (2 * B)%nat ->
  pack_body (Some c) (Some p) (Z.of_nat off) (Z.of_nat k) (W s ds fs evs)
  = Ok (tt, W s (<[(2 * k + 1)%nat := dzero]>
                  (<[(2 * k)%nat := to_double x]> ds)) fs evs).
Proof.
  intros Hmax Hk Hx Hlen. unfold pack_body, int_add, int_mul.
  rewrite (wrap32_id (2 * _)) by (unfold is_int, INT_MIN, INT_MAX in *; lia).
  rewrite !wrap32_id by (unfold is_int, INT_MIN, INT_MAX in *; lia).
  replace (Z.of_nat off + Z.of_nat k) with (Z.of_nat (off + k)) by lia.
  replace (2 * Z.of_nat k + 0) with (Z.of_nat (2 * k)) by lia.
  replace (2 * Z.of_nat k + 1) with (Z.of_nat (2 * k + 1)) by lia.
  erewrite bind_ok; cycle 1.
  { rewrite (bind_ok _ _ _ _ _ (load_float_W _ _ _ _ _ _ Hx)).
    rewrite (bind_ok _ _ _ _ _ (ctx_workBuf_W _ _ _ _)).
    apply store_double_W. lia. }
  rewrite (bind_ok _ _ _ _ _ (ctx_workBuf_W _ _ _ _)).
  apply store_double_W. rewrite length_insert. lia.
Qed.

Lemma pad_body_W (k : nat) s ds fs evs :
  (k < B)%nat -> length ds = (2 * B)%nat ->
  pad_body (Some c) (Z.of_nat k) (W s ds fs evs)
  = Ok (tt, W s (<[(2 * k + 1)%nat := dzero]>
                  (<[(2 * k)%nat := dzero]> ds)) fs evs).
Proof.
  intros Hk Hlen. unfold pad_body, int_add, int_mul.
  rewrite (wrap32_id (2 * _)) by (unfold is_int, INT_MIN, INT_MAX in *; lia).
  rewrite !wrap32_id by (unfold is_int, INT_MIN, INT_MAX in *; lia).
  replace (2 * Z.of_nat k + 0) with (Z.of_nat (2 * k)) by lia.
  replace (2 * Z.of_nat k + 1) with (Z.of_nat (2 * k + 1)) by lia.
  erewrite bind_ok; cycle 1.
  { rewrite (bind_ok _ _ _ _ _ (ctx_workBuf_W _ _ _ _)).
    apply store_double_W. lia. }
  rewrite (bind_ok _ _ _ _ _ (ctx_workBuf_W _ _ _ _)).
  apply store_double_W. rewrite length_insert. lia.
Qed.

Lemma unpack_body_W (off k : nat) s ds fs evs :
  Z.of_nat (off + k) <= INT_MAX -> (k < B)%nat ->
  (off + k < length fs)%nat -> length ds = (2 * B)%nat ->
  unpack_body (Some c) (Some p) (Z.of_nat off) (Z.of_nat k) (W s ds fs evs)
  = Ok (tt, W s ds (<[(off + k)%nat :=
                       to_float (default dzero (ds !! (2 * k)%nat))]> fs) evs).
Proof.
  intros Hmax Hk Hx Hlen. unfold unpack_body, int_add, int_mul.
  rewrite (wrap32_id (2 * _)) by (unfold is_int, INT_MIN, INT_MAX in *; lia).
  rewrite !wrap32_id by (unfold is_int, INT_MIN, INT_MAX in *; lia).
  replace (Z.of_nat off + Z.of_nat k) with (Z.of_nat (off + k)) by lia.
  replace (2 * Z.of_nat k + 0) with (Z.of_nat (2 * k)) by lia.
  rewrite (bind_ok _ _ _ _ _ (ctx_workBuf_W _ _ _ _)).
  destruct (lookup_lt_is_Some_2 ds (2 * k)) as [y Hy]; [lia|].
  rewrite (bind_ok _ _ _ _ _ (load_double_W _ _ _ _ _ _ Hy)).
  rewrite Hy. cbn [default]. by apply store_float_W.
Qed.

Lemma pack_loop_W (off len : nat) s ds fs evs :
  Z.of_nat (off + len) <= INT_MAX -> (len <= B)%nat ->
  (off + len <= length fs)%nat -> length ds = (2 * B)%nat ->
  for_ 0 (Z.of_nat len) (pack_body (Some c) (Some p) (Z.of_nat off))
    (W s ds fs evs)
  = Ok (tt, W s (pairs (to_double <$> take len (drop off fs))
                 ++ drop (2 * len) ds) fs evs).
Proof.
  intros Hmax Hlen Hfs Hds. unfold for_.
  replace (Z.to_nat (Z.of_nat len - 0)) with len by lia.
  set (chunk := take len (drop off fs)).
  assert (Hchunk : length chunk = len).
  { unfold chunk. rewrite length_take, length_drop. lia. }
  destruct (for_loop_rule
    (fun k w => w = W s (pairs (to_double <$> take k chunk)
                         ++ drop (2 * k) ds) fs evs)
    len 0 (pack_body (Some c) (Some p) (Z.of_nat off)) (W s ds fs evs))
    as (w' & Hw' & ->).
  - intros k w1 Hk ->.
    destruct (lookup_lt_is_Some_2 chunk k) as [x Hx]; [lia|].
    eexists. split; [|reflexivity].
    rewrite pack_body_W with (x := x); try lia.
    + do 3 f_equal.
      rewrite set_pair.
      * rewrite (take_S_r _ _ _ Hx), fmap_app, pairs_app, <- app_assoc.
        rewrite drop_drop. do 2 f_equal. f_equal. lia.
      * rewrite pairs_length, length_fmap, length_take. lia.
      * rewrite length_drop. lia.
    + unfold chunk in Hx. rewrite lookup_take_lt, lookup_drop in Hx by lia.
      done.
    + rewrite length_app, pairs_length, length_fmap, length_take, length_drop.
      lia.
  - by rewrite take_0, drop_0.
  - change (Z.of_nat 0) with 0 in Hw'. rewrite Hw'. cbn [Nat.add].
    by rewrite take_ge by lia.
Qed.

Lemma pad_loop_W (len : nat) (us : list double) s ds fs evs :
  (len <= B)%nat -> length us = len -> length ds = (2 * B)%nat ->
  for_ (Z.of_nat len) (Z.of_nat B) (pad_body (Some c))
    (W s (pairs us ++ drop (2 * len) ds) fs evs)
  = Ok (tt, W s (pairs (us ++ replicate (B - len) dzero)) fs evs).
Proof.
  intros Hlen Hus Hds. unfold for_.
  replace (Z.to_nat (Z.of_nat B - Z.of_nat len)) with (B - len)%nat by lia.
  destruct (for_loop_rule
    (fun k w => w = W s (pairs (us ++ replicate (k - len) dzero)
                         ++ drop (2 * k) ds) fs evs)
    (B - len) len (pad_body (Some c))
    (W s (pairs us ++ drop (2 * len) ds) fs evs))
    as (w' & Hw' & ->).
  - intros k w1 Hk ->.
    eexists. split; [|reflexivity].
    rewrite pad_body_W; try lia.
    + do 3 f_equal.
      rewrite set_pair.
      * replace (S k - len)%nat with (S (k - len)) by lia.
        rewrite replicate_S_end, (app_assoc us), (pairs_app _ [dzero]).
        rewrite <- app_assoc, drop_drop. do 2 f_equal. f_equal. lia.
      * rewrite pairs_length, length_app, length_replicate. lia.
      * rewrite length_drop. lia.
    + rewrite length_app, pairs_length, length_app, length_replicate,
        length_drop. lia.
  - rewrite Nat.sub_diag. cbn [replicate]. by rewrite app_nil_r.
  - rewrite Hw'. replace (len + (B - len))%nat with B by lia.
    rewrite drop_ge by lia. by rewrite app_nil_r.
Qed.

Lemma unpack_loop_W (off len : nat) s ds fs evs :
  Z.of_nat (off + len) <= INT_MAX -> (len <= B)%nat ->
  (off + len <= length fs)%nat -> length ds = (2 * B)%nat ->
  for_ 0 (Z.of_nat len) (unpack_body (Some c) (Some p) (Z.of_nat off))
    (W s ds fs evs)
  = Ok (tt, W s ds (splice off (unpack len ds) fs) evs).
Proof.
  intros Hmax Hlen Hfs Hds. unfold for_.
  replace (Z.to_nat (Z.of_nat len - 0)) with len by lia.
  destruct (for_loop_rule
    (fun k w => w = W s ds (splice off (unpack k ds) fs) evs)
    len 0 (unpack_body (Some c) (Some p) (Z.of_nat off)) (W s ds fs evs))
    as (w' & Hw' & ->).
  - intros k w1 Hk ->.
    eexists. split; [|reflexivity].
    rewrite unpack_body_W; try lia.
    + do 2 f_equal. rewrite unpack_S.
      rewrite <- (splice_step off (unpack k ds));
        rewrite unpack_length; [done|lia].
    + rewrite splice_length; rewrite ?unpack_length; lia.
  - change (unpack 0 ds) with (@nil float). by rewrite splice_nil.
  - change (Z.of_nat 0) with 0 in Hw'. by rewrite Hw'.
Qed.

Lemma chunk_W (F off : nat) s ds fs evs :
  Z.of_nat F <= INT_MAX -> (off < F)%nat -> (F <= length fs)%nat ->
  length ds = (2 * B)%nat ->
  chunk_gen v (Some c) (Some p) (Z.of_nat F) (Z.of_nat off) (W s ds fs evs)
  = let len := Nat.min (F - off) B in
    let input := pack B (take len (drop off fs)) in
    let r := eng_block v s input in
    Ok (Z.of_nat (off + len),
        W r.1 r.2 (splice off (unpack len r.2) fs)
          (evs ++ [EvEngineRun v a input r.2])).
Proof.
  intros HF Hoff Hfs Hds. cbv zeta.
  set (len := Nat.min (F - off) B).
  assert (Hlen : (0 < len <= B)%nat /\ (off + len <= F)%nat) by lia.
  unfold chunk_gen.
  rewrite (bind_ok _ _ _ _ _ (ctx_bufSize_W _ _ _ _)).
  assert (Hsub : int_sub (Z.of_nat F) (Z.of_nat off) = Z.of_nat (F - off)).
  { unfold int_sub. rewrite wrap32_id; [lia|].
    unfold is_int, INT_MIN, INT_MAX in *. lia. }
  rewrite Hsub.
  erewrite (bind_ok _ _ _ (Z.of_nat len)); cycle 1.
  { destruct (Z.gtb_spec (Z.of_nat (F - off)) (Z.of_nat B)).
    - rewrite ctx_bufSize_W. do 3 f_equal. lia.
    - unfold ret. do 3 f_equal. lia. }
  rewrite (bind_ok _ _ _ _ _ (pack_loop_W off len s ds fs evs
             ltac:(lia) ltac:(lia) ltac:(lia) Hds)).
  erewrite bind_ok; cycle 1.
  { rewrite (bind_ok _ _ _ _ _ (ctx_bufSize_W _ _ _ _)).
    apply pad_loop_W; [lia| |done].
    rewrite length_fmap, length_take, length_drop. lia. }
  replace (B - len)%nat with (B - length (take len (drop off fs)))%nat
    by (rewrite length_take, length_drop; lia).
  change (pairs (_ ++ _)) with (pack B (take len (drop off fs))).
  set (input := pack B (take len (drop off fs))).
  assert (Hin : length input = (2 * B)%nat).
  { apply pack_length. rewrite length_take. lia. }
  erewrite bind_ok; cycle 1.
  { rewrite (bind_ok _ _ _ _ _ (ctx_impl_W _ _ _ _)).
    by apply run_engine_W. }
  erewrite bind_ok; cycle 1.
  { apply unpack_loop_W; try lia. by rewrite eng_block_length. }
  unfold ret, int_add. rewrite wrap32_id; [do 3 f_equal; lia|].
  unfold is_int, INT_MIN, INT_MAX in *. lia.
Qed.

Lemma last_out_cons io ios ds : last_out (io :: ios) ds = last_out ios io.2.
Proof.
  unfold last_out. cbn [fmap list_fmap].
  destruct (snd <$> ios) as [|d l]; [done|].
  rewrite last_cons_cons.
  destruct (last (d :: l)) eqn:E; [done|]. by apply last_None in E.
Qed.

Lemma loop_W (F : nat) n : forall fuel off s ds fs evs,
  Z.of_nat F <= INT_MAX -> (off <= F)%nat -> (F <= length fs)%nat ->
  length ds = (2 * B)%nat ->
  n = nchunks B (F - off) -> (n <= fuel)%nat ->
  while_ fuel (fun x => x <? Z.of_nat F)
    (chunk_of v (Some c) (Some p) (Z.of_nat F)) (Z.of_nat off)
    (W s ds fs evs)
  = let r := run_chunks v B F n off s fs in
    Ok (Z.of_nat F, W r.1.1 (last_out r.2 ds) r.1.2 (evs ++ events_of r.2)).
Proof.
  induction n as [|n IH]; intros fuel off s ds fs evs HF Hoff Hfs Hds Hn Hfuel.
  - assert (off = F) as ->.
    { destruct (decide (off = F)) as [|Hne]; [done|].
      rewrite (nchunks_pos B (F - off)) in Hn by lia. done. }
    cbn [run_chunks]. cbv zeta. cbn [fst snd events_of fmap list_fmap].
    unfold last_out. cbn [fmap list_fmap last default]. rewrite app_nil_r.
    destruct fuel; cbn [while_]; by rewrite Z.ltb_irrefl.
  - assert (off < F)%nat as Hlt.
    { destruct (decide (off = F)) as [->|]; [|lia].
      rewrite Nat.sub_diag, nchunks_0 in Hn by done. done. }
    destruct fuel as [|fuel]; [lia|].
    cbn [while_].
    destruct (Z.ltb_spec (Z.of_nat off) (Z.of_nat F)); [|lia].
    rewrite chunk_of_gen.
    rewrite (bind_ok _ _ _ _ _ (chunk_W F off s ds fs evs HF Hlt Hfs Hds)).
    rewrite <- chunk_of_gen.
    set (len := Nat.min (F - off) B).
    set (input := pack B (take len (drop off fs))).
    assert (Hin : length input = (2 * B)%nat).
    { apply pack_length. rewrite length_take. lia. }
    rewrite (IH fuel); try lia.
    + cbn [run_chunks]. fold len. fold input.
      destruct (eng_block v s input) as [s1 out] eqn:E. cbn [fst snd].
      destruct (run_chunks v B F n (off + len) s1
                  (splice off (unpack len out) fs)) as [[s2 fs2] ios].
      cbn [fst snd]. rewrite last_out_cons. cbn [snd].
      unfold events_of at 2. cbn [fmap list_fmap fst snd].
      by rewrite <- app_assoc.
    + rewrite splice_length; rewrite ?unpack_length; lia.
    + by rewrite eng_block_length.
    + rewrite (nchunks_pos B (F - off)) in Hn by lia.
      injection Hn as ->. f_equal. lia.
Qed.

(** **** A frame count beyond the caller's buffer *)

Lemma for_loop_app n m body : forall i (w : world),
  for_loop (n + m) i body w
  = bind (for_loop n i body) (fun _ => for_loop m (i + Z.of_nat n) body) w.
Proof.
  induction n as [|n IH]; intros i w.
  { cbn [Nat.add for_loop]. unfold bind, ret. by rewrite Z.add_0_r. }
  cbn [Nat.add for_loop]. unfold bind.
  destruct (body i w) as [[[] w1]| |]; [|done|done].
  rewrite IH. unfold bind.
  by replace (i + 1 + Z.of_nat n) with (i + Z.of_nat (S n)) by lia.
Qed.

Lemma load_float_W_past (i : nat) s ds fs evs :
  fs !! i = None ->
  load_float (Some p) (Z.of_nat i) (W s ds fs evs) = Fault.
Proof.
  intros E. unfold load_float.
  rewrite (bind_ok _ _ _ _ _ (load_cell_W _ _ _ _ _ _ (W_p _ _ _ _))).
  destruct (Z.leb_spec 0 (Z.of_nat i)); [|lia].
  by rewrite Nat2Z.id, E.
Qed.

Lemma pack_loop_W_past (off len : nat) s ds fs evs :
  Z.of_nat (off + len) <= INT_MAX -> (len <= B)%nat ->
  (off <= length fs < off + len)%nat -> length ds = (2 * B)%nat ->
  for_ 0 (Z.of_nat len) (pack_body (Some c) (Some p) (Z.of_nat off))
    (W s ds fs evs) = Fault.
Proof.
  intros Hmax Hlen Hfs Hds. unfold for_.
  replace (Z.to_nat (Z.of_nat len - 0)) with len by lia.
  set (j := (length fs - off)%nat).
  replace len with (j + S (len - S j))%nat by lia.
  rewrite for_loop_app.
  pose proof (pack_loop_W off j s ds fs evs
                ltac:(lia) ltac:(lia) ltac:(lia) Hds) as Hpre.
  unfold for_ in Hpre.
  replace (Z.to_nat (Z.of_nat j - 0)) with j in Hpre by lia.
  rewrite (bind_ok _ _ _ _ _ Hpre).
  cbn [for_loop]. unfold bind at 1. unfold pack_body at 1.
  unfold bind at 1 2. unfold int_add at 1.
  rewrite wrap32_id by (unfold is_int, INT_MIN, INT_MAX in *; lia).
  replace (Z.of_nat off + (0 + Z.of_nat j)) with (Z.of_nat (off + j)) by lia.
  rewrite load_float_W_past; [done|].
  apply lookup_ge_None_2. lia.
Qed.

(** [chunk_W] for a chunk that is within the buffer, whatever the frame
    count. *)
Lemma chunk_W_within (F off : nat) s ds fs evs :
  Z.of_nat F <= INT_MAX -> (off < F)%nat ->
  (off + Nat.min (F - off) B <= length fs)%nat ->
  length ds = (2 * B)%nat ->
  chunk_gen v (Some c) (Some p) (Z.of_nat F) (Z.of_nat off) (W s ds fs evs)
  = let len := Nat.min (F - off) B in
    let input := pack B (take len (drop off fs)) in
    let r := eng_block v s input in
    Ok (Z.of_nat (off + len),
        W r.1 r.2 (splice off (unpack len r.2) fs)
          (evs ++ [EvEngineRun v a input r.2])).
Proof.
  intros HF Hoff Hfs Hds. cbv zeta.
  set (len := Nat.min (F - off) B) in *.
  assert (Hlen : (0 < len <= B)%nat /\ (off + len <= F)%nat) by lia.
  unfold chunk_gen.
  rewrite (bind_ok _ _ _ _ _ (ctx_bufSize_W _ _ _ _)).
  assert (Hsub : int_sub (Z.of_nat F) (Z.of_nat off) = Z.of_nat (F - off)).
  { unfold int_sub. rewrite wrap32_id; [lia|].
    unfold is_int, INT_MIN, INT_MAX in *. lia. }
  rewrite Hsub.
  erewrite (bind_ok _ _ _ (Z.of_nat len)); cycle 1.
  { destruct (Z.gtb_spec (Z.of_nat (F - off)) (Z.of_nat B)).
    - rewrite ctx_bufSize_W. do 3 f_equal. lia.
    - unfold ret. do 3 f_equal. lia. }
  rewrite (bind_ok _ _ _ _ _ (pack_loop_W off len s ds fs evs
             ltac:(lia) ltac:(lia) ltac:(lia) Hds)).
  erewrite bind_ok; cycle 1.
  { rewrite (bind_ok _ _ _ _ _ (ctx_bufSize_W _ _ _ _)).
    apply pad_loop_W; [lia| |done].
    rewrite length_fmap, length_take, length_drop. lia. }
  replace (B - len)%nat with (B - length (take len (drop off fs)))%nat
    by (rewrite length_take, length_drop; lia).
  change (pairs (_ ++ _)) with (pack B (take len (drop off fs))).
  set (input := pack B (take len (drop off fs))).
  assert (Hin : length input = (2 * B)%nat).
  { apply pack_length. rewrite length_take. lia. }
  erewrite bind_ok; cycle 1.
  { rewrite (bind_ok _ _ _ _ _ (ctx_impl_W _ _ _ _)).
    by apply run_engine_W. }
  erewrite bind_ok; cycle 1.
  { apply unpack_loop_W; try lia. by rewrite eng_block_length. }
  unfold ret, int_add. rewrite wrap32_id; [do 3 f_equal; lia|].
  unfold is_int, INT_MIN, INT_MAX in *. lia.
Qed.

Lemma chunk_W_past (F off : nat) s ds fs evs :
  Z.of_nat F <= INT_MAX -> (off < F)%nat ->
  (off <= length fs < off + Nat.min (F - off) B)%nat ->
  length ds = (2 * B)%nat ->
  chunk_gen v (Some c) (Some p) (Z.of_nat F) (Z.of_nat off) (W s ds fs evs)
  = Fault.
Proof.
  intros HF Hoff Hfs Hds.
  set (len := Nat.min (F - off) B) in *.
  assert (Hlen : (0 < len <= B)%nat /\ (off + len <= F)%nat) by lia.
  unfold chunk_gen.
  rewrite (bind_ok _ _ _ _ _ (ctx_bufSize_W _ _ _ _)).
  assert (Hsub : int_sub (Z.of_nat F) (Z.of_nat off) = Z.of_nat (F - off)).
  { unfold int_sub. rewrite wrap32_id; [lia|].
    unfold is_int, INT_MIN, INT_MAX in *. lia. }
  rewrite Hsub.
  erewrite (bind_ok _ _ _ (Z.of_nat len)); cycle 1.
  { destruct (Z.gtb_spec (Z.of_nat (F - off)) (Z.of_nat B)).
    - rewrite ctx_bufSize_W. do 3 f_equal. lia.
    - unfold ret. do 3 f_equal. lia. }
  unfold bind at 1.
  by rewrite (pack_loop_W_past off len s ds fs evs
                ltac:(lia) ltac:(lia) ltac:(lia) Hds).
Qed.

Lemma loop_W_past (F : nat) n : forall fuel off s ds fs evs,
  Z.of_nat F <= INT_MAX -> (off <= length fs < F)%nat ->
  length ds = (2 * B)%nat ->
  n = ((length fs - off) / B)%nat -> (n < fuel)%nat ->
  while_ fuel (fun x => x <? Z.of_nat F)
    (chunk_of v (Some c) (Some p) (Z.of_nat F)) (Z.of_nat off)
    (W s ds fs evs) = Fault.
Proof.
  induction n as [|n IH]; intros fuel off s ds fs evs HF Hfs Hds Hn Hfuel;
    (destruct fuel as [|fuel]; [lia|]); cbn [while_];
    (destruct (Z.ltb_spec (Z.of_nat off) (Z.of_nat F)); [|lia]);
    rewrite chunk_of_gen.
  - symmetry in Hn. apply Nat.div_small_iff in Hn; [|lia].
    unfold bind. by rewrite chunk_W_past by (try done; lia).
  - assert (HBle : (B <= length fs - off)%nat).
    { destruct (Nat.le_gt_cases B (length fs - off)) as [|Hlt]; [done|].
      rewrite Nat.div_small in Hn by done. done. }
    rewrite (bind_ok _ _ _ _ _
               (chunk_W_within F off s ds fs evs HF ltac:(lia) ltac:(lia) Hds)).
    rewrite <- chunk_of_gen.
    replace (Nat.min (F - off) B) with B by lia.
    apply IH; try done.
    + rewrite splice_length; rewrite ?unpack_length; lia.
    + rewrite eng_block_length. apply pack_length. rewrite length_take. lia.
    + rewrite splice_length by (rewrite ?unpack_length; lia).
      replace (length fs - off)%nat with ((length fs - (off + B)) + 1 * B)%nat
        in Hn by lia.
      rewrite Nat.div_add in Hn by lia. lia.
    + lia.
Qed.

End OneInstance.

(** *** [process] on a ready handle *)
Section Process.
Context {Smp : Samples} {Eng : Engines}.

Lemma instance_Some v w c a b s :
  instance v w c = Some (a, b, s) ->
  exists ds,
    heap w !! c = Some (CCtx (Some a) (Some b) (Z.of_nat BLOCK)) /\
    heap w !! a = Some (CEngine (obj v b BLOCK s)) /\
    heap w !! b = Some (CDoubles ds) /\
    length ds = (2 * BLOCK)%nat.
Proof.
  unfold instance. intros Hi.
  destruct (heap w !! c) as [[[a'|] [b'|] n| | |]|] eqn:Ec; try done.
  destruct (heap w !! a') as [[| | |o]|] eqn:Ea; try done.
  destruct (heap w !! b') as [[|ds| |]|] eqn:Eb; try done.
  case_decide as Hd; [|done].
  injection Hi as -> -> <-.
  destruct Hd as (-> & Hv & Hin & Hout & Hsz & Hlen).
  exists ds. rewrite Ea, Eb. split_and!; try done.
  destruct o as [v' s' i' o' z']. cbn in *. subst. done.
Qed.

Lemma instance_intro v w c a b s ds :
  heap w !! c = Some (CCtx (Some a) (Some b) (Z.of_nat BLOCK)) ->
  heap w !! a = Some (CEngine (obj v b BLOCK s)) ->
  heap w !! b = Some (CDoubles ds) ->
  length ds = (2 * BLOCK)%nat ->
  instance v w c = Some (a, b, s).
Proof.
  intros Hc Ha Hb Hlen. unfold instance. rewrite Hc, Ha, Hb.
  by rewrite decide_True.
Qed.

Lemma BLOCK_bound : 2 * Z.of_nat BLOCK + 1 <= INT_MAX.
Proof. by vm_compute. Qed.

Lemma process_spec v w c a b s ds p fs (F : nat) fuel :
  instance v w c = Some (a, b, s) ->
  heap w !! b = Some (CDoubles ds) ->
  heap w !! p = Some (CFloats fs) ->
  Z.of_nat F <= INT_MAX -> (F <= length fs)%nat ->
  (nchunks BLOCK F <= fuel)%nat ->
  process_of v fuel (Some c) (Some p) (Z.of_nat F) w
  = Ok (tt, after v w a b p F s ds fs).
Proof.
  intros Hi Hb Hp HF Hfs Hfuel.
  destruct (instance_Some _ _ _ _ _ _ Hi) as (ds' & Hc & Ha & Hb' & Hlen).
  rewrite Hb in Hb'. injection Hb' as <-.
  assert (Hw : w = W v a b p (heap w) (oracle w) (trace w) BLOCK s ds fs []).
  { destruct w as [h o t]. unfold W. cbn [heap oracle trace].
    rewrite app_nil_r. f_equal. cbn [heap] in *.
    rewrite (insert_id h a) by done. rewrite (insert_id h b) by done.
    by rewrite insert_id. }
  rewrite process_of_unfold. rewrite Hw at 1.
  erewrite bind_ok; [reflexivity|].
  change 0 with (Z.of_nat 0).
  rewrite (loop_W v c a b p (heap w) (oracle w) (trace w) BLOCK)
    with (n := nchunks BLOCK F);
    first [ done | congruence | lia | apply BLOCK_bound
          | by rewrite Nat.sub_0_r | (unfold BLOCK; lia) ].
Qed.

End Process.

(** *** What [process] does: termination, counting, frame, padding *)
Section Claims.
Context {Smp : Samples} {Eng : Engines}.

Lemma filter_all {A} (P : A -> Prop) `{forall x, Decision (P x)} (l : list A) :
  Forall P l -> filter P l = l.
Proof.
  induction 1 as [|x l Hx _ IH]; [done|].
  by rewrite filter_cons_True, IH.
Qed.

Lemma floats_at_Some w p fs :
  floats_at w p = Some fs <-> heap w !! p = Some (CFloats fs).
Proof.
  unfold floats_at. destruct (heap w !! p) as [[| | |]|]; naive_solver.
Qed.

Lemma ceil_nchunks F :
  0 <= F -> Z.to_nat ((F + 479) / 480) = nchunks BLOCK (Z.to_nat F).
Proof.
  intros HF. apply Nat2Z.inj. rewrite nchunks_Z by (unfold BLOCK; lia).
  rewrite Z2Nat.id by (apply Z.div_pos; lia).
  rewrite Z2Nat.id by done. done.
Qed.

Lemma distinct_cells w (l1 l2 : loc) c1 c2 :
  heap w !! l1 = Some c1 -> heap w !! l2 = Some c2 -> c1 <> c2 -> l1 <> l2.
Proof. intros H1 H2 Hne ->. congruence. Qed.

(** What a call on a ready handle comes to, whatever the fuel beyond the
    number of chunks. *)
Lemma process_run v w c p fs F :
  ready v w c -> floats_at w p = Some fs ->
  0 <= F <= INT_MAX -> F <= Z.of_nat (length fs) ->
  exists a b s ds,
    instance v w c = Some (a, b, s) /\
    heap w !! b = Some (CDoubles ds) /\
    a <> b /\ a <> p /\ b <> p /\ c <> a /\ c <> b /\ c <> p /\
    forall fuel, (Z.to_nat ((F + 479) / 480) <= fuel)%nat ->
      process_of v fuel (Some c) (Some p) F w
      = Ok (tt, after v w a b p (Z.to_nat F) s ds fs).
Proof.
  intros [[[a b] s] Hi] Hp HF Hfs.
  apply floats_at_Some in Hp.
  destruct (instance_Some _ _ _ _ _ _ Hi) as (ds & Hc & Ha & Hb & Hlen).
  exists a, b, s, ds. split_and!; try done;
    try (eapply distinct_cells; [eassumption|eassumption|done]).
  intros fuel Hfuel. rewrite ceil_nchunks in Hfuel by lia.
  rewrite <- (Z2Nat.id F) at 1 by lia.
  apply process_spec; try done; lia.
Qed.

Lemma after_trace v w a b p F s ds fs :
  trace (after v w a b p F s ds fs)
  = trace w ++ events_of v a
      (run_chunks v BLOCK F (nchunks BLOCK F) 0 s fs).2.
Proof. done. Qed.

Lemma after_floats v w a b p F s ds fs :
  floats_at (after v w a b p F s ds fs) p
  = Some (run_chunks v BLOCK F (nchunks BLOCK F) 0 s fs).1.2.
Proof.
  unfold floats_at, after, W. cbn [heap]. by rewrite lookup_insert_eq.
Qed.

Lemma after_other v w a b p F s ds fs l :
  l <> a -> l <> b -> l <> p ->
  heap (after v w a b p F s ds fs) !! l = heap w !! l.
Proof.
  intros. unfold after, W. cbn [heap]. by rewrite !lookup_insert_ne.
Qed.

Lemma after_instance v w c a b p F s ds fs :
  instance v w c = Some (a, b, s) -> heap w !! b = Some (CDoubles ds) ->
  a <> b -> a <> p -> b <> p -> c <> a -> c <> b -> c <> p ->
  instance v (after v w a b p F s ds fs) c
  = Some (a, b, (run_chunks v BLOCK F (nchunks BLOCK F) 0 s fs).1.1).
Proof.
  intros Hi Hb Hab Hap Hbp Hca Hcb Hcp.
  destruct (instance_Some _ _ _ _ _ _ Hi) as (ds' & Hc & Ha & Hb' & Hlen).
  rewrite Hb in Hb'. injection Hb' as <-.
  pose proof (run_chunks_inputs v BLOCK F (nchunks BLOCK F) 0 s fs) as Hin.
  apply instance_intro with
    (ds := last_out (run_chunks v BLOCK F (nchunks BLOCK F) 0 s fs).2 ds).
  - by rewrite after_other.
  - unfold after, W. cbn [heap].
    rewrite !lookup_insert_ne by done. by rewrite lookup_insert_eq.
  - unfold after, W. cbn [heap].
    rewrite lookup_insert_ne by done. by rewrite lookup_insert_eq.
  - unfold last_out.
    destruct (last (snd <$> _)) as [out|] eqn:El; [|done].
    cbn [default]. apply last_Some_elem_of in El.
    apply list_elem_of_fmap in El as ([i o'] & -> & Hel).
    rewrite Forall_forall in Hin. by destruct (Hin _ Hel) as (? & ? & ? & ?).
Qed.

Lemma world_as_W v w c a b s ds p fs :
  instance v w c = Some (a, b, s) ->
  heap w !! b = Some (CDoubles ds) -> heap w !! p = Some (CFloats fs) ->
  w = W v a b p (heap w) (oracle w) (trace w) BLOCK s ds fs [].
Proof.
  intros Hi Hb Hp.
  destruct (instance_Some _ _ _ _ _ _ Hi) as (ds' & Hc & Ha & Hb' & Hlen).
  destruct w as [h o t]. unfold W. cbn [heap oracle trace] in *.
  rewrite app_nil_r. f_equal.
  rewrite (insert_id h a) by done. rewrite (insert_id h b) by done.
  by rewrite insert_id.
Qed.

(** One iteration of the loop from a ready store. *)
Lemma chunk_step v w c p fs F offset :
  ready v w c -> floats_at w p = Some fs ->
  0 <= offset < F -> F <= INT_MAX -> F <= Z.of_nat (length fs) ->
  exists w1 fs1,
    chunk_of v (Some c) (Some p) F offset w
    = Ok (offset + Z.min (F - offset) 480, w1) /\
    ready v w1 c /\ floats_at w1 p = Some fs1 /\ length fs1 = length fs.
Proof.
  intros [[[a b] s] Hi] Hp Hoff HF Hfs.
  apply floats_at_Some in Hp.
  destruct (instance_Some _ _ _ _ _ _ Hi) as (ds & Hc & Ha & Hb & Hlen).
  assert (a <> b /\ a <> p /\ b <> p /\ c <> a /\ c <> b /\ c <> p)
    as (Hab & Hap & Hbp & Hca & Hcb & Hcp).
  { split_and!; (eapply distinct_cells; [eassumption|eassumption|done]). }
  replace (chunk_of v (Some c) (Some p) F offset w)
    with (chunk_gen v (Some c) (Some p) (Z.of_nat (Z.to_nat F))
            (Z.of_nat (Z.to_nat offset))
            (W v a b p (heap w) (oracle w) (trace w) BLOCK s ds fs []));
    cycle 1.
  { rewrite chunk_of_gen, !Z2Nat.id by lia. f_equal. symmetry.
    by eapply world_as_W. }
  rewrite (chunk_W v c a b p (heap w) (oracle w) (trace w) BLOCK);
    try done; try lia; try apply BLOCK_bound; try (unfold BLOCK; lia).
  cbv zeta.
  set (len := Nat.min (Z.to_nat F - Z.to_nat offset) BLOCK).
  set (input := pack BLOCK (take len (drop (Z.to_nat offset) fs))).
  assert (Hin : length input = (2 * BLOCK)%nat).
  { apply pack_length. rewrite length_take. lia. }
  eexists _, _. split_and!.
  - do 2 f_equal. unfold len, BLOCK. lia.
  - eexists. apply instance_intro with (ds := (eng_block v s input).2).
    + by apply W_c.
    + by apply W_a.
    + by apply W_b.
    + by rewrite eng_block_length.
  - apply floats_at_Some. apply W_p.
  - rewrite splice_length; rewrite ?unpack_length; lia.
Qed.

(** C6: on a ready handle [process] terminates, for every frame count
    from zero up, without fault: with fuel for [ceil(F / 480)] iterations
    it returns, and with more fuel it returns the same; each iteration of
    the loop returns too, moves the offset up by the chunk length, which
    is at least 1 and stays within [F], and leaves the handle ready. *)
Theorem process_terminates v w c p fs F :
  ready v w c -> floats_at w p = Some fs ->
  0 <= F <= INT_MAX -> F <= Z.of_nat (length fs) ->
  (exists w', forall fuel, (Z.to_nat ((F + 479) / 480) <= fuel)%nat ->
     process_of v fuel (Some c) (Some p) F w = Ok (tt, w')) /\
  (forall w0 fs0 offset,
     ready v w0 c -> floats_at w0 p = Some fs0 ->
     F <= Z.of_nat (length fs0) -> 0 <= offset < F ->
     exists offset' w1 fs1,
       chunk_of v (Some c) (Some p) F offset w0 = Ok (offset', w1) /\
       offset + 1 <= offset' <= F /\
       ready v w1 c /\ floats_at w1 p = Some fs1 /\
       length fs1 = length fs0).
Proof.
  intros Hr Hp HF Hfs. split.
  - destruct (process_run v w c p fs F Hr Hp HF Hfs)
      as (a & b & s & ds & _ & _ & _ & _ & _ & _ & _ & _ & Hrun).
    eauto.
  - intros w0 fs0 offset Hr0 Hp0 Hfs0 Hoff.
    destruct (chunk_step v w0 c p fs0 F offset) as (w1 & fs1 & Hc & ?);
      try done; try lia.
    exists (offset + Z.min (F - offset) 480), w1, fs1. split; [done|].
    split; [lia|done].
Qed.

(** C2: [process] invokes the engine exactly [ceil(F / 480)] times, once
    per chunk, and does nothing else that leaves a trace. *)
Theorem engine_invocation_count v w c p fs F :
  ready v w c -> floats_at w p = Some fs ->
  0 <= F <= INT_MAX -> F <= Z.of_nat (length fs) ->
  exists evs,
    (forall fuel, (Z.to_nat ((F + 479) / 480) <= fuel)%nat ->
       exists w', process_of v fuel (Some c) (Some p) F w = Ok (tt, w') /\
                  trace w' = trace w ++ evs) /\
    Forall (fun e => is_engine_run e = true) evs /\
    Z.of_nat (length (filter (fun e => is_engine_run e = true) evs))
      = (F + 479) / 480.
Proof.
  intros Hr Hp HF Hfs.
  destruct (process_run v w c p fs F Hr Hp HF Hfs)
    as (a & b & s & ds & _ & _ & _ & _ & _ & _ & _ & _ & Hrun).
  set (r := run_chunks v BLOCK (Z.to_nat F) (nchunks BLOCK (Z.to_nat F))
              0 s fs).
  assert (Hall : Forall (fun e => is_engine_run e = true) (events_of v a r.2)).
  { unfold events_of. apply Forall_fmap. by apply Forall_true. }
  exists (events_of v a r.2). split_and!.
  - intros fuel Hfuel. eexists. split; [by apply Hrun|]. apply after_trace.
  - done.
  - rewrite (filter_all _ _ Hall).
    unfold events_of. rewrite length_fmap. unfold r.
    rewrite run_chunks_count.
    rewrite nchunks_Z by (unfold BLOCK; lia). rewrite Z2Nat.id by lia. done.
Qed.

(** C4: at every engine invocation made by [process], the scratch buffer
    is [480] IQ pairs and each of its imaginary slots [2i+1] is zero. *)
Theorem imaginary_slots_zero v w c p fs F :
  ready v w c -> floats_at w p = Some fs ->
  0 <= F <= INT_MAX -> F <= Z.of_nat (length fs) ->
  exists evs,
    (forall fuel, (Z.to_nat ((F + 479) / 480) <= fuel)%nat ->
       exists w', process_of v fuel (Some c) (Some p) F w = Ok (tt, w') /\
                  trace w' = trace w ++ evs) /\
    forall v' l input output,
      EvEngineRun v' l input output ∈ evs ->
      length input = 960%nat /\
      forall i, (i < 480)%nat -> input !! (2 * i + 1)%nat = Some dzero.
Proof.
  intros Hr Hp HF Hfs.
  destruct (process_run v w c p fs F Hr Hp HF Hfs)
    as (a & b & s & ds & _ & _ & _ & _ & _ & _ & _ & _ & Hrun).
  set (r := run_chunks v BLOCK (Z.to_nat F) (nchunks BLOCK (Z.to_nat F))
              0 s fs).
  exists (events_of v a r.2). split.
  - intros fuel Hfuel. eexists. split; [by apply Hrun|]. apply after_trace.
  - intros v' l input output Hel.
    unfold events_of in Hel.
    apply list_elem_of_fmap in Hel as ([i o'] & Heq & Hel).
    cbn [fst snd] in Heq. injection Heq as -> -> -> ->.
    pose proof (run_chunks_inputs v BLOCK (Z.to_nat F)
                  (nchunks BLOCK (Z.to_nat F)) 0 s fs) as Hin.
    rewrite Forall_forall in Hin.
    destruct (Hin _ Hel) as (chunk & Hlen & Hpack & _).
    cbn [fst] in Hpack. subst i.
    split; [by apply pack_length|].
    intros k Hk. by apply pack_lookup_im.
Qed.

(** C3: [process] leaves the caller's buffer at its length, changes no
    element at an index from [F] up, and changes no other buffer of
    samples. *)
Theorem process_touches_only_prefix v w c p fs F :
  ready v w c -> floats_at w p = Some fs ->
  0 <= F <= INT_MAX -> F <= Z.of_nat (length fs) ->
  exists w' fs',
    (forall fuel, (Z.to_nat ((F + 479) / 480) <= fuel)%nat ->
       process_of v fuel (Some c) (Some p) F w = Ok (tt, w')) /\
    floats_at w' p = Some fs' /\
    length fs' = length fs /\
    (forall j : nat, F <= Z.of_nat j -> fs' !! j = fs !! j) /\
    (forall q, q <> p -> floats_at w' q = floats_at w q).
Proof.
  intros Hr Hp HF Hfs.
  destruct (process_run v w c p fs F Hr Hp HF Hfs)
    as (a & b & s & ds & Hi & Hb & Hab & Hap & Hbp & Hca & Hcb & Hcp & Hrun).
  destruct (instance_Some _ _ _ _ _ _ Hi) as (ds' & Hc & Ha & _ & _).
  destruct (run_chunks_frame v BLOCK (Z.to_nat F) (nchunks BLOCK (Z.to_nat F))
              0 s fs) as [Hlen Hframe]; [lia|lia|].
  eexists _, _. split_and!.
  - exact Hrun.
  - apply after_floats.
  - exact Hlen.
  - intros j Hj. apply Hframe. lia.
  - intros q Hq. unfold floats_at.
    destruct (decide (q = a)) as [->|Hqa].
    { rewrite Ha. unfold after, W. cbn [heap].
      rewrite !lookup_insert_ne by done. by rewrite lookup_insert_eq. }
    destruct (decide (q = b)) as [->|Hqb].
    { rewrite Hb. unfold after, W. cbn [heap].
      rewrite lookup_insert_ne by done. by rewrite lookup_insert_eq. }
    by rewrite after_other.
Qed.

(** C1: when [F] is not a multiple of 480, the last engine invocation of
    [process] is on the final chunk, of [F mod 480] samples from offset
    [F - F mod 480]: at that call the scratch buffer holds these samples
    in its first real slots and zero in both components of every slot
    from [F mod 480] up; after it the first [F mod 480] real slots of the
    output are in the caller's buffer from that offset, and nothing is
    written from index [F] up. *)
Theorem final_chunk_zero_padded v w c p fs F :
  ready v w c -> floats_at w p = Some fs ->
  0 <= F <= INT_MAX -> F <= Z.of_nat (length fs) ->
  F mod 480 <> 0 ->
  exists w' evs l input output fs',
    (forall fuel, (Z.to_nat ((F + 479) / 480) <= fuel)%nat ->
       process_of v fuel (Some c) (Some p) F w = Ok (tt, w')) /\
    trace w' = trace w ++ evs ++ [EvEngineRun v l input output] /\
    length input = 960%nat /\
    (forall i x, (i < Z.to_nat (F mod 480))%nat ->
       fs !! (Z.to_nat (F - F mod 480) + i)%nat = Some x ->
       input !! (2 * i)%nat = Some (to_double x)) /\
    (forall i, (Z.to_nat (F mod 480) <= i < 480)%nat ->
       input !! (2 * i)%nat = Some dzero /\
       input !! (2 * i + 1)%nat = Some dzero) /\
    floats_at w' p = Some fs' /\
    (forall i, (i < Z.to_nat (F mod 480))%nat ->
       exists y, output !! (2 * i)%nat = Some y /\
         fs' !! (Z.to_nat (F - F mod 480) + i)%nat = Some (to_float y)) /\
    (forall j : nat, F <= Z.of_nat j -> fs' !! j = fs !! j).
Proof.
  intros Hr Hp HF Hfs Hmod.
  destruct (process_run v w c p fs F Hr Hp HF Hfs)
    as (a & b & s & ds & _ & _ & _ & _ & _ & _ & _ & _ & Hrun).
  pose proof (Z.mod_pos_bound F 480 ltac:(lia)) as Hbound.
  set (Fn := Z.to_nat F) in *.
  assert (HFn : (0 < Fn)%nat).
  { destruct (decide (F = 0)) as [->|]; [done|lia]. }
  assert (Hm : last_len BLOCK (Fn - 0) = Z.to_nat (F mod 480)).
  { unfold last_len. rewrite Nat.sub_0_r.
    assert (Z.of_nat (Fn mod BLOCK) = F mod 480) as Hz.
    { rewrite Nat2Z.inj_mod. unfold Fn. by rewrite Z2Nat.id by lia. }
    rewrite decide_False by lia. lia. }
  assert (Hoff : (Fn - last_len BLOCK (Fn - 0))%nat
                 = Z.to_nat (F - F mod 480)).
  { rewrite Hm. unfold Fn. lia. }
  destruct (run_chunks_last v BLOCK Fn (nchunks BLOCK Fn) 0 s fs)
    as (ios & out & Hios & Hlook);
    [unfold BLOCK; lia|lia|lia|by rewrite Nat.sub_0_r|].
  rewrite Hoff, Hm in *.
  destruct (run_chunks_frame v BLOCK Fn (nchunks BLOCK Fn) 0 s fs)
    as [Hlen Hframe]; [lia|lia|].
  pose proof (run_chunks_inputs v BLOCK Fn (nchunks BLOCK Fn) 0 s fs) as Hin.
  rewrite Hios, Forall_app, Forall_singleton in Hin.
  destruct Hin as [_ (chunk & Hchunk & Hpack & Hout)]. cbn [fst snd] in *.
  pose proof (Z.mod_le F 480 ltac:(lia) ltac:(lia)) as Hle.
  assert (Hsum : (Z.to_nat (F - F mod 480) + Z.to_nat (F mod 480))%nat = Fn)
    by (unfold Fn; lia).
  assert (Hm480 : (0 < Z.to_nat (F mod 480) < 480)%nat) by lia.
  assert (HFl : (Fn <= length fs)%nat) by lia.
  set (m := Z.to_nat (F mod 480)) in *.
  set (off := Z.to_nat (F - F mod 480)) in *.
  assert (Hclen : length (take m (drop off fs)) = m).
  { rewrite length_take, length_drop. lia. }
  eexists _, (events_of v a ios), a, _, out, _. split_and!.
  - exact Hrun.
  - rewrite after_trace, Hios. unfold events_of. by rewrite fmap_app.
  - apply pack_length. unfold BLOCK. lia.
  - intros i x Hi Hx. apply pack_lookup_re.
    by rewrite lookup_take_lt, lookup_drop.
  - intros i Hi. split.
    + apply pack_lookup_pad. unfold BLOCK. lia.
    + apply pack_lookup_im; unfold BLOCK; lia.
  - apply after_floats.
  - intros i Hi.
    destruct (lookup_lt_is_Some_2 out (2 * i)) as [y Hy].
    { rewrite Hout. unfold BLOCK. lia. }
    exists y. split; [done|]. rewrite Hlook by done. by rewrite Hy.
  - intros j Hj. apply Hframe. lia.
Qed.

(** The handle stays ready over a call. *)
Lemma process_keeps_ready v w c p fs F :
  ready v w c -> floats_at w p = Some fs ->
  0 <= F <= INT_MAX -> F <= Z.of_nat (length fs) ->
  exists w',
    (forall fuel, (Z.to_nat ((F + 479) / 480) <= fuel)%nat ->
       process_of v fuel (Some c) (Some p) F w = Ok (tt, w')) /\
    ready v w' c.
Proof.
  intros Hr Hp HF Hfs.
  destruct (process_run v w c p fs F Hr Hp HF Hfs)
    as (a & b & s & ds & Hi & Hb & Hab & Hap & Hbp & Hca & Hcb & Hcp & Hrun).
  eexists. split; [exact Hrun|].
  eexists. by apply after_instance.
Qed.

(** No samples: nothing happens, on any handle. *)
Lemma process_empty_noop v fuel ctx inOut w :
  process_of v fuel ctx inOut 0 w = Ok (tt, w).
Proof.
  rewrite process_of_unfold. unfold bind. by destruct fuel.
Qed.

(** C10: for a negative frame count [process] does nothing at all: it
    returns at once, whatever the fuel and whatever the two pointers
    (null or dangling included), and the store and the trace are as they
    were. *)
Theorem process_negative_noop v fuel ctx inOut F w :
  F < 0 -> process_of v fuel ctx inOut F w = Ok (tt, w).
Proof.
  intros HF. rewrite process_of_unfold. unfold bind.
  destruct fuel; cbn [while_];
    (destruct (Z.ltb_spec 0 F); [lia|done]).
Qed.

End Claims.

(** *** Construction and destruction *)
Section Create.
Context {Smp : Samples} {Eng : Engines}.

Lemma create_of_gen v sampleRate :
  create_of v sampleRate = create_gen v 480 (initial_state v sampleRate).
Proof. by destruct v. Qed.

Local Abbreviation mk := Build_world.

Lemma calloc_ctx_run h o t :
  calloc_ctx (mk h o t)
  = if hd true o
    then Ok (Some (fresh (dom h)),
             mk (<[fresh (dom h) := CCtx NULL NULL 0]> h) (tl o)
                (t ++ [EvAlloc (Some (fresh (dom h)))]))
    else Ok (NULL, mk h (tl o) (t ++ [EvAlloc NULL])).
Proof.
  unfold calloc_ctx, bind, next_decision. cbn [oracle].
  by destruct (hd true o).
Qed.

Lemma calloc_doubles_run n h o t :
  calloc_doubles n (mk h o t)
  = if hd true o
    then Ok (Some (fresh (dom h)),
             mk (<[fresh (dom h) := CDoubles (replicate (Z.to_nat n) dzero)]> h)
                (tl o) (t ++ [EvAlloc (Some (fresh (dom h)))]))
    else Ok (NULL, mk h (tl o) (t ++ [EvAlloc NULL])).
Proof.
  unfold calloc_doubles, bind, next_decision. cbn [oracle].
  by destruct (hd true o).
Qed.

Lemma create_engine_run v s size inb outb h o t :
  create_engine v s size inb outb (mk h o t)
  = if hd true o
    then Ok (Some (fresh (dom h)),
             mk (<[fresh (dom h) :=
                    CEngine {| e_variant := v; e_state := s; e_in := inb;
                               e_out := outb; e_size := size |}]> h)
                (tl o) (t ++ [EvEngineCreate v (Some (fresh (dom h)))]))
    else Ok (NULL, mk h (tl o) (t ++ [EvEngineCreate v NULL])).
Proof.
  unfold create_engine, bind, next_decision. cbn [oracle].
  by destruct (hd true o).
Qed.

Lemma load_cell_run l x w :
  heap w !! l = Some x -> load_cell (Some l) w = Ok (x, w).
Proof. intros E. unfold load_cell, bind, get_heap. by rewrite E. Qed.

Lemma ctx_impl_run l a b n w :
  heap w !! l = Some (CCtx a b n) -> ctx_impl (Some l) w = Ok (a, w).
Proof.
  intros E. unfold ctx_impl.
  by rewrite (bind_ok _ _ _ _ _ (load_cell_run _ _ _ E)).
Qed.
Lemma ctx_workBuf_run l a b n w :
  heap w !! l = Some (CCtx a b n) -> ctx_workBuf (Some l) w = Ok (b, w).
Proof.
  intros E. unfold ctx_workBuf.
  by rewrite (bind_ok _ _ _ _ _ (load_cell_run _ _ _ E)).
Qed.
Lemma ctx_bufSize_run l a b n w :
  heap w !! l = Some (CCtx a b n) -> ctx_bufSize (Some l) w = Ok (n, w).
Proof.
  intros E. unfold ctx_bufSize.
  by rewrite (bind_ok _ _ _ _ _ (load_cell_run _ _ _ E)).
Qed.

Lemma set_ctx_impl_run l a b n a' h o t :
  h !! l = Some (CCtx a b n) ->
  set_ctx_impl (Some l) a' (mk h o t)
  = Ok (tt, mk (<[l := CCtx a' b n]> h) o t).
Proof.
  intros E. unfold set_ctx_impl.
  by rewrite (bind_ok _ _ _ _ _ (load_cell_run _ _ (mk h o t) E)).
Qed.
Lemma set_ctx_workBuf_run l a b n b' h o t :
  h !! l = Some (CCtx a b n) ->
  set_ctx_workBuf (Some l) b' (mk h o t)
  = Ok (tt, mk (<[l := CCtx a b' n]> h) o t).
Proof.
  intros E. unfold set_ctx_workBuf.
  by rewrite (bind_ok _ _ _ _ _ (load_cell_run _ _ (mk h o t) E)).
Qed.
Lemma set_ctx_bufSize_run l a b n n' h o t :
  h !! l = Some (CCtx a b n) ->
  set_ctx_bufSize (Some l) n' (mk h o t)
  = Ok (tt, mk (<[l := CCtx a b n']> h) o t).
Proof.
  intros E. unfold set_ctx_bufSize.
  by rewrite (bind_ok _ _ _ _ _ (load_cell_run _ _ (mk h o t) E)).
Qed.

Lemma free_run l x h o t :
  h !! l = Some x ->
  free (Some l) (mk h o t) = Ok (tt, mk (delete l h) o (t ++ [EvFree l])).
Proof.
  intros E. unfold free, bind, get_heap. cbn [heap]. by rewrite E.
Qed.

Lemma fresh_None (h : gmap loc cell) : h !! fresh (dom h) = None.
Proof. apply not_elem_of_dom. apply is_fresh. Qed.


Ltac step_with L := erewrite bind_ok; [|L]; cbv beta iota.

Lemma create_gen_fail1 v n s0 h o t :
  hd true o = false ->
  create_gen v n s0 (mk h o t)
  = Ok (NULL, mk h (tl o) (t ++ [EvAlloc NULL])).
Proof.
  intros E1. unfold create_gen.
  step_with ltac:(rewrite calloc_ctx_run, E1; reflexivity). done.
Qed.

Lemma create_gen_fail2 v n s0 h o t :
  hd true o = true -> hd true (tl o) = false ->
  create_gen v n s0 (mk h o t)
  = Ok (NULL, mk h (tl (tl o))
                (t ++ [EvAlloc (Some (fresh (dom h))); EvAlloc NULL;
                       EvFree (fresh (dom h))])).
Proof.
  intros E1 E2. unfold create_gen.
  set (c := fresh (dom h)).
  step_with ltac:(rewrite calloc_ctx_run, E1; reflexivity). fold c.
  step_with ltac:(eapply set_ctx_bufSize_run, lookup_insert_eq).
  rewrite insert_insert_eq.
  step_with ltac:(rewrite calloc_doubles_run, E2; reflexivity).
  step_with ltac:(eapply set_ctx_workBuf_run, lookup_insert_eq).
  rewrite insert_insert_eq.
  step_with ltac:(eapply ctx_workBuf_run, lookup_insert_eq).
  step_with ltac:(eapply free_run, lookup_insert_eq).
  unfold ret. do 2 f_equal. rewrite <- !app_assoc. f_equal.
  rewrite delete_insert_eq. apply delete_id, fresh_None.
Qed.

Lemma create_gen_fail3 v n s0 h o t :
  hd true o = true -> hd true (tl o) = true ->
  hd true (tl (tl o)) = false ->
  exists b, b <> fresh (dom h) /\ (b ∉ dom h) /\
  create_gen v n s0 (mk h o t)
  = Ok (NULL, mk h (tl (tl (tl o)))
                (t ++ [EvAlloc (Some (fresh (dom h))); EvAlloc (Some b);
                       EvEngineCreate v NULL; EvFree b;
                       EvFree (fresh (dom h))])).
Proof.
  intros E1 E2 E3. unfold create_gen.
  set (c := fresh (dom h)).
  set (b := fresh (dom (<[c := CCtx NULL NULL n]> h))).
  assert (Hb : b ∉ dom (<[c := CCtx NULL NULL n]> h)) by apply is_fresh.
  rewrite dom_insert_L in Hb.
  assert (Hbc : b <> c) by set_solver.
  exists b. split_and!; [done|set_solver|].
  step_with ltac:(rewrite calloc_ctx_run, E1; reflexivity). fold c.
  step_with ltac:(eapply set_ctx_bufSize_run, lookup_insert_eq).
  rewrite insert_insert_eq.
  step_with ltac:(rewrite calloc_doubles_run, E2; reflexivity). fold b.
  step_with ltac:(eapply set_ctx_workBuf_run;
                  rewrite lookup_insert_ne by done; apply lookup_insert_eq).
  step_with ltac:(eapply ctx_workBuf_run, lookup_insert_eq).
  step_with ltac:(eapply ctx_workBuf_run, lookup_insert_eq).
  step_with ltac:(eapply ctx_workBuf_run, lookup_insert_eq).
  step_with ltac:(rewrite create_engine_run, E3; reflexivity).
  step_with ltac:(eapply set_ctx_impl_run, lookup_insert_eq).
  step_with ltac:(eapply ctx_impl_run, lookup_insert_eq).
  step_with ltac:(step_with ltac:(eapply ctx_workBuf_run, lookup_insert_eq);
                  eapply free_run;
                  rewrite !lookup_insert_ne by done; apply lookup_insert_eq).
  step_with ltac:(eapply free_run;
                  rewrite lookup_delete_ne by done; apply lookup_insert_eq).
  unfold ret. do 2 f_equal. rewrite <- !app_assoc. f_equal.
  apply map_eq. intros l.
  pose proof (fresh_None h) as Hc. fold c in Hc.
  assert (h !! b = None) by (apply not_elem_of_dom; set_solver).
  destruct (decide (l = c)) as [->|]; [by rewrite lookup_delete_eq|].
  rewrite lookup_delete_ne by done.
  destruct (decide (l = b)) as [->|]; [by rewrite lookup_delete_eq|].
  rewrite lookup_delete_ne by done.
  by rewrite !lookup_insert_ne.
Qed.

Lemma create_gen_ok v (B : nat) s0 h o t :
  hd true o = true -> hd true (tl o) = true ->
  hd true (tl (tl o)) = true ->
  exists a b,
    a <> b /\ a <> fresh (dom h) /\ b <> fresh (dom h) /\
    (a ∉ dom h) /\ (b ∉ dom h) /\
    create_gen v (Z.of_nat B) s0 (mk h o t)
    = Ok (Some (fresh (dom h)),
          mk (<[fresh (dom h) := CCtx (Some a) (Some b) (Z.of_nat B)]>
                (<[a := CEngine (obj v b B s0)]>
                   (<[b := CDoubles
                            (replicate (Z.to_nat (int_mul 2 (Z.of_nat B)))
                               dzero)]> h)))
             (tl (tl (tl o)))
             (t ++ [EvAlloc (Some (fresh (dom h))); EvAlloc (Some b);
                    EvEngineCreate v (Some a)])).
Proof.
  intros E1 E2 E3. unfold create_gen.
  set (n := Z.of_nat B).
  set (c := fresh (dom h)).
  set (b := fresh (dom (<[c := CCtx NULL NULL n]> h))).
  set (zs := CDoubles (replicate (Z.to_nat (int_mul 2 n)) dzero)).
  set (a := fresh (dom (<[c := CCtx NULL (Some b) n]>
                          (<[b := zs]> (<[c := CCtx NULL NULL n]> h))))).
  assert (Hb : b ∉ dom (<[c := CCtx NULL NULL n]> h)) by apply is_fresh.
  assert (Ha : a ∉ dom (<[c := CCtx NULL (Some b) n]>
                          (<[b := zs]> (<[c := CCtx NULL NULL n]> h))))
    by apply is_fresh.
  rewrite !dom_insert_L in Ha. rewrite dom_insert_L in Hb.
  assert (Hbc : b <> c) by set_solver.
  assert (Hac : a <> c) by set_solver.
  assert (Hab : a <> b) by set_solver.
  exists a, b. split_and!; [done|done|done|set_solver|set_solver|].
  step_with ltac:(rewrite calloc_ctx_run, E1; reflexivity). fold c.
  step_with ltac:(eapply set_ctx_bufSize_run, lookup_insert_eq).
  rewrite insert_insert_eq.
  step_with ltac:(rewrite calloc_doubles_run, E2; reflexivity). fold b zs.
  step_with ltac:(eapply set_ctx_workBuf_run;
                  rewrite lookup_insert_ne by done; apply lookup_insert_eq).
  step_with ltac:(eapply ctx_workBuf_run, lookup_insert_eq).
  step_with ltac:(eapply ctx_workBuf_run, lookup_insert_eq).
  step_with ltac:(eapply ctx_workBuf_run, lookup_insert_eq).
  step_with ltac:(rewrite create_engine_run, E3; reflexivity). fold a.
  step_with ltac:(eapply set_ctx_impl_run;
                  rewrite lookup_insert_ne by done; apply lookup_insert_eq).
  step_with ltac:(eapply ctx_impl_run, lookup_insert_eq).
  unfold ret. do 2 f_equal. rewrite <- !app_assoc. f_equal.
  apply map_eq. intros l. unfold obj. fold n.
  destruct (decide (l = c)) as [->|]; [by rewrite !lookup_insert_eq|].
  rewrite !(lookup_insert_ne _ c) by done.
  destruct (decide (l = a)) as [->|]; [by rewrite !lookup_insert_eq|].
  rewrite !(lookup_insert_ne _ a) by done.
  rewrite (lookup_insert_ne _ c) by done.
  destruct (decide (l = b)) as [->|]; [by rewrite !lookup_insert_eq|].
  rewrite !(lookup_insert_ne _ b) by done.
  by rewrite (lookup_insert_ne _ c) by done.
Qed.


(** Everything [create] can come to, by the first failing attempt. *)
Lemma create_cases v sampleRate w :
  exists res w' evs,
    create_of v sampleRate w = Ok (res, w') /\
    trace w' = trace w ++ evs /\
    ((res = NULL /\ heap w' = heap w /\
      (evs = [EvAlloc NULL] \/
       (exists c, evs = [EvAlloc (Some c); EvAlloc NULL; EvFree c]) \/
       (exists c b, c <> b /\
          evs = [EvAlloc (Some c); EvAlloc (Some b);
                 EvEngineCreate v NULL; EvFree b; EvFree c]))) \/
     (exists c a b,
        res = Some c /\
        evs = [EvAlloc (Some c); EvAlloc (Some b);
               EvEngineCreate v (Some a)] /\
        instance v w' c = Some (a, b, initial_state v sampleRate) /\
        (c ∉ dom (heap w)) /\ (a ∉ dom (heap w)) /\ (b ∉ dom (heap w)) /\
        heap w' = <[c := CCtx (Some a) (Some b) (Z.of_nat BLOCK)]>
                    (<[a := CEngine (obj v b BLOCK
                                       (initial_state v sampleRate))]>
                       (<[b := CDoubles (replicate (2 * BLOCK) dzero)]>
                          (heap w))))).
Proof.
  destruct w as [h o t]. rewrite create_of_gen. cbn [heap trace].
  destruct (hd true o) eqn:E1.
  2:{ eexists _, _, _. split; [by apply create_gen_fail1|].
      cbn [trace heap]. split; [done|]. left. eauto. }
  destruct (hd true (tl o)) eqn:E2.
  2:{ eexists _, _, _. split; [by apply create_gen_fail2|].
      cbn [trace heap]. split; [done|]. left. eauto 6. }
  destruct (hd true (tl (tl o))) eqn:E3.
  2:{ destruct (create_gen_fail3 v 480 (initial_state v sampleRate) h o t)
        as (b & Hb & _ & Hrun); try done.
      eexists _, _, _. split; [exact Hrun|].
      cbn [trace heap]. split; [done|]. left. split_and!; [done|done|].
      right. right. exists (fresh (dom h)), b. eauto. }
  change 480 with (Z.of_nat BLOCK).
  destruct (create_gen_ok v BLOCK (initial_state v sampleRate) h o t)
    as (a & b & Hab & Hac & Hbc & Ha & Hb & Hrun); try done.
  eexists _, _, _. split; [exact Hrun|].
  cbn [trace heap]. split; [done|]. right.
  exists (fresh (dom h)), a, b. split_and!; try done.
  - eapply instance_intro; cbn [heap].
    + apply lookup_insert_eq.
    + rewrite lookup_insert_ne by done. apply lookup_insert_eq.
    + rewrite !lookup_insert_ne by done. apply lookup_insert_eq.
    + by rewrite length_replicate.
  - apply is_fresh.
Qed.

(** C7: [create] returns null exactly when one of its three attempts
    (the handle, the scratch buffer, the engine) fails.  Then the store
    is as it was before the call: what the call had allocated is freed,
    the handle after a scratch-buffer failure, the scratch buffer and then
    the handle after an engine failure.  Otherwise the handle is not null
    and owns three new cells: itself, its scratch buffer of 480 zeroed IQ
    pairs, and its engine, which works in place on that buffer. *)
Theorem create_failure_unwinds v sampleRate w :
  exists res w' evs,
    create_of v sampleRate w = Ok (res, w') /\
    trace w' = trace w ++ evs /\
    (res = NULL <-> Exists (fun e => failed_step e = true) evs) /\
    (res = NULL ->
       heap w' = heap w /\
       (evs = [EvAlloc NULL] \/
        (exists c, evs = [EvAlloc (Some c); EvAlloc NULL; EvFree c]) \/
        (exists c b, c <> b /\
           evs = [EvAlloc (Some c); EvAlloc (Some b);
                  EvEngineCreate v NULL; EvFree b; EvFree c]))) /\
    (forall c, res = Some c ->
       exists a b,
         evs = [EvAlloc (Some c); EvAlloc (Some b);
                EvEngineCreate v (Some a)] /\
         instance v w' c = Some (a, b, initial_state v sampleRate) /\
         (c ∉ dom (heap w)) /\ (a ∉ dom (heap w)) /\ (b ∉ dom (heap w)) /\
         dom (heap w') = dom (heap w) ∪ {[c; a; b]} /\
         (forall l, l ∈ dom (heap w) -> heap w' !! l = heap w !! l)).
Proof.
  destruct (create_cases v sampleRate w)
    as (res & w' & evs & Hrun & Htr & Hcases).
  exists res, w', evs. split; [done|]. split; [done|].
  destruct Hcases
    as [(-> & Hheap & Hevs)
       |(c & a & b & -> & -> & Hi & Hc & Ha & Hb & Hheap)].
  - split_and!.
    + split; [intros _|done].
      destruct Hevs as [->|[(c & ->)|(c & b & _ & ->)]];
        rewrite ?Exists_cons; cbn [failed_step]; tauto.
    + done.
    + done.
  - split_and!.
    + split; [done|]. rewrite !Exists_cons, Exists_nil. cbn [failed_step].
      intros [?|[?|[?|?]]]; done.
    + done.
    + intros c' [= <-]. exists a, b. split_and!; try done.
      * rewrite Hheap, !dom_insert_L.
        apply set_eq. intros l. rewrite !elem_of_union, !elem_of_singleton.
        tauto.
      * intros l Hl. rewrite Hheap.
        rewrite !lookup_insert_ne; [done|..]; by intros ->.
Qed.

(** C9: [destroy] on the null handle returns at once: the store and the
    trace (no teardown, no free) are as they were. *)
Theorem destroy_null_noop w :
  wdsp_emnr_destroy NULL w = Ok (tt, w) /\
  wdsp_anr_destroy NULL w = Ok (tt, w).
Proof. done. Qed.

(** C5: [wdsp_anr_create] does the same for every sample rate: the same
    result in the same store, hence the same behaviour of whatever the
    caller does next with the handle. *)
Theorem anr_create_ignores_rate r1 r2 w :
  wdsp_anr_create r1 w = wdsp_anr_create r2 w /\
  forall (A : Type) (client : ptr -> M A),
    bind (wdsp_anr_create r1) client w = bind (wdsp_anr_create r2) client w.
Proof. done. Qed.

End Create.

(** *** Sequences of calls, one instance and two *)
Section Sessions.
Context {Smp : Samples} {Eng : Engines}.

Lemma nchunks_le F : (nchunks BLOCK F <= F)%nat.
Proof.
  unfold nchunks, BLOCK. destruct F as [|F]; [done|].
  apply Nat.lt_succ_r. apply Nat.Div0.div_lt_upper_bound. lia.
Qed.

Lemma instance_frame v w w' c a b s :
  instance v w c = Some (a, b, s) ->
  heap w' !! c = heap w !! c -> heap w' !! a = heap w !! a ->
  heap w' !! b = heap w !! b ->
  instance v w' c = Some (a, b, s).
Proof.
  intros Hi Hc Ha Hb.
  destruct (instance_Some _ _ _ _ _ _ Hi) as (ds & Hc' & Ha' & Hb' & Hlen).
  eapply instance_intro; by rewrite ?Hc, ?Ha, ?Hb.
Qed.

Lemma feed_run v w c a b s p old xs :
  instance v w c = Some (a, b, s) -> floats_at w p = Some old ->
  Z.of_nat (length xs) <= INT_MAX ->
  exists w',
    feed v (Some c) (Some p) xs w
    = Ok ((run_chunks v BLOCK (length xs) (nchunks BLOCK (length xs))
             0 s xs).1.2, w') /\
    instance v w' c
    = Some (a, b, (run_chunks v BLOCK (length xs)
                     (nchunks BLOCK (length xs)) 0 s xs).1.1) /\
    is_Some (floats_at w' p) /\
    (forall l, l <> a -> l <> b -> l <> p -> heap w' !! l = heap w !! l).
Proof.
  intros Hi Hp Hlen. apply floats_at_Some in Hp.
  destruct (instance_Some _ _ _ _ _ _ Hi) as (ds & Hc & Ha & Hb & Hds).
  assert (a <> b /\ a <> p /\ b <> p /\ c <> a /\ c <> b /\ c <> p)
    as (Hab & Hap & Hbp & Hca & Hcb & Hcp).
  { split_and!; (eapply distinct_cells; [eassumption|eassumption|done]). }
  set (w1 := set_heap (<[p := CFloats xs]> (heap w)) w).
  assert (Hi1 : instance v w1 c = Some (a, b, s)).
  { eapply instance_frame; [exact Hi|..]; unfold w1; cbn [set_heap heap];
      by rewrite lookup_insert_ne. }
  assert (Hb1 : heap w1 !! b = Some (CDoubles ds)).
  { unfold w1. cbn [set_heap heap]. by rewrite lookup_insert_ne. }
  assert (Hp1 : heap w1 !! p = Some (CFloats xs)).
  { unfold w1. cbn [set_heap heap]. by rewrite lookup_insert_eq. }
  exists (after v w1 a b p (length xs) s ds xs). split_and!.
  - unfold feed.
    erewrite bind_ok; cycle 1.
    { rewrite (bind_ok _ _ _ _ _ (load_cell_run _ _ _ Hp)). reflexivity. }
    fold w1.
    erewrite bind_ok; cycle 1.
    { apply process_spec with (ds := ds); try done. apply nchunks_le. }
    erewrite bind_ok; cycle 1.
    { apply load_cell_run. unfold after, W. cbn [heap].
      apply lookup_insert_eq. }
    done.
  - by apply after_instance.
  - rewrite after_floats. eauto.
  - intros l Hla Hlb Hlp. rewrite after_other by done.
    unfold w1. cbn [set_heap heap]. by rewrite lookup_insert_ne.
Qed.

Lemma session_outs_step v s xs rest :
  session_outs v s (xs :: rest)
  = (run_chunks v BLOCK (length xs) (nchunks BLOCK (length xs)) 0 s xs).1.2
    :: session_outs v
         (run_chunks v BLOCK (length xs) (nchunks BLOCK (length xs))
            0 s xs).1.1 rest.
Proof. done. Qed.

Lemma session_outs_length v s inputs :
  length (session_outs v s inputs) = length inputs.
Proof.
  revert s. induction inputs as [|xs rest IH]; intros s; [done|].
  rewrite session_outs_step. cbn [length]. by rewrite IH.
Qed.

Lemma session_run v inputs : forall w c a b s p,
  instance v w c = Some (a, b, s) -> is_Some (floats_at w p) ->
  Forall (fun xs : list float => Z.of_nat (length xs) <= INT_MAX) inputs ->
  exists w',
    session v (Some c) (Some p) inputs w = Ok (session_outs v s inputs, w').
Proof.
  induction inputs as [|xs rest IH]; intros w c a b s p Hi [old Hp] Hall.
  { by exists w. }
  apply Forall_cons in Hall as [Hxs Hrest].
  destruct (feed_run v w c a b s p old xs Hi Hp Hxs)
    as (w1 & Hfeed & Hi1 & Hp1 & _).
  destruct (IH w1 c a b _ p Hi1 Hp1 Hrest) as (w2 & Hsess).
  exists w2. cbn [session].
  rewrite (bind_ok _ _ _ _ _ Hfeed), (bind_ok _ _ _ _ _ Hsess).
  by rewrite session_outs_step.
Qed.

Lemma create_success v sampleRate w c w' :
  create_of v sampleRate w = Ok (Some c, w') ->
  exists a b,
    instance v w' c = Some (a, b, initial_state v sampleRate) /\
    (c ∉ dom (heap w)) /\ (a ∉ dom (heap w)) /\ (b ∉ dom (heap w)) /\
    (forall l, l ∈ dom (heap w) -> heap w' !! l = heap w !! l).
Proof.
  intros Hrun.
  destruct (create_cases v sampleRate w)
    as (res & w'' & evs & Hrun' & _ & Hcases).
  rewrite Hrun in Hrun'. injection Hrun' as <- <-.
  destruct Hcases
    as [(? & _)|(c' & a & b & [= <-] & _ & Hi & Hc & Ha & Hb & Hheap)];
    [done|].
  exists a, b. split_and!; try done.
  intros l Hl. rewrite Hheap.
  rewrite !lookup_insert_ne; [done|..]; by intros ->.
Qed.

(** C8: two instances of one variant, each constructed with the same
    sample rate (in any two stores) and each fed the same sequence of
    inputs, return the same sequence of outputs, sample for sample; the
    engine is a function of its state and buffer ([Engines]). *)
Theorem two_instances_agree v sampleRate wA0 cA wA wB0 cB wB pA pB inputs :
  create_of v sampleRate wA0 = Ok (Some cA, wA) ->
  create_of v sampleRate wB0 = Ok (Some cB, wB) ->
  is_Some (floats_at wA pA) -> is_Some (floats_at wB pB) ->
  Forall (fun xs : list float => Z.of_nat (length xs) <= INT_MAX) inputs ->
  exists outs wA' wB',
    session v (Some cA) (Some pA) inputs wA = Ok (outs, wA') /\
    session v (Some cB) (Some pB) inputs wB = Ok (outs, wB') /\
    length outs = length inputs.
Proof.
  intros HcA HcB HpA HpB Hall.
  destruct (create_success _ _ _ _ _ HcA) as (aA & bA & HiA & _).
  destruct (create_success _ _ _ _ _ HcB) as (aB & bB & HiB & _).
  destruct (session_run v inputs wA cA aA bA _ pA HiA HpA Hall) as (wA' & HA).
  destruct (session_run v inputs wB cB aB bB _ pB HiB HpB Hall) as (wB' & HB).
  exists (session_outs v (initial_state v sampleRate) inputs), wA', wB'.
  split_and!; [done|done|apply session_outs_length].
Qed.


(** Two instances in one store do not interfere: fed the same inputs in
    turn, they return the same outputs, call by call. *)
Lemma duet_run v inputs : forall w c1 a1 b1 c2 a2 b2 s p1 p2,
  instance v w c1 = Some (a1, b1, s) ->
  instance v w c2 = Some (a2, b2, s) ->
  a1 <> a2 -> b1 <> b2 ->
  is_Some (floats_at w p1) -> is_Some (floats_at w p2) ->
  Forall (fun xs : list float => Z.of_nat (length xs) <= INT_MAX) inputs ->
  exists w',
    duet v (Some c1) (Some c2) (Some p1) (Some p2) inputs w
    = Ok ((fun ys => (ys, ys)) <$> session_outs v s inputs, w').
Proof.
  induction inputs as [|xs rest IH];
    intros w c1 a1 b1 c2 a2 b2 s p1 p2 Hi1 Hi2 Ha Hb [old1 Hp1] [old2 Hp2] Hall.
  { by exists w. }
  apply Forall_cons in Hall as [Hxs Hrest].
  destruct (instance_Some _ _ _ _ _ _ Hi1) as (ds1 & Hc1 & Ha1 & Hb1 & _).
  destruct (instance_Some _ _ _ _ _ _ Hi2) as (ds2 & Hc2 & Ha2 & Hb2 & _).
  pose proof (proj1 (floats_at_Some _ _ _) Hp1) as Hq1.
  pose proof (proj1 (floats_at_Some _ _ _) Hp2) as Hq2.
  destruct (feed_run v w c1 a1 b1 s p1 old1 xs Hi1 Hp1 Hxs)
    as (w1 & Hfeed1 & Hi1' & Hp1' & Hframe1).
  assert (Hi2' : instance v w1 c2 = Some (a2, b2, s)).
  { eapply instance_frame; [exact Hi2|..]; apply Hframe1;
      first [ done | congruence
            | (eapply distinct_cells; [eassumption|eassumption|done]) ]. }
  assert (Hp2' : is_Some (floats_at w1 p2)).
  { destruct (decide (p2 = p1)) as [->|Hne]; [done|].
    unfold floats_at. rewrite Hframe1; [by rewrite Hq2|..]; try done;
      (eapply distinct_cells; [eassumption|eassumption|done]). }
  destruct Hp2' as [old2' Hp2'].
  destruct (feed_run v w1 c2 a2 b2 s p2 old2' xs Hi2' Hp2' Hxs)
    as (w2 & Hfeed2 & Hi2'' & Hp2'' & Hframe2).
  destruct (instance_Some _ _ _ _ _ _ Hi1') as (ds1' & Hc1' & Ha1' & Hb1' & _).
  destruct (instance_Some _ _ _ _ _ _ Hi2') as (ds2' & Hc2' & Ha2' & Hb2' & _).
  pose proof (proj1 (floats_at_Some _ _ _) Hp2') as Hq2'.
  assert (Hi1'' : instance v w2 c1 = Some (a1, b1,
            (run_chunks v BLOCK (length xs) (nchunks BLOCK (length xs))
               0 s xs).1.1)).
  { eapply instance_frame; [exact Hi1'|..]; apply Hframe2;
      first [ done | congruence
            | (eapply distinct_cells; [eassumption|eassumption|done]) ]. }
  assert (Hp1'' : is_Some (floats_at w2 p1)).
  { destruct (decide (p1 = p2)) as [->|Hne]; [done|].
    destruct Hp1' as [old1' Hp1'].
    pose proof (proj1 (floats_at_Some _ _ _) Hp1') as Hq1'.
    unfold floats_at. rewrite Hframe2; [by rewrite Hq1'|..]; try done;
      (eapply distinct_cells; [eassumption|eassumption|done]). }
  destruct (IH w2 c1 a1 b1 c2 a2 b2 _ p1 p2 Hi1'' Hi2'' Ha Hb Hp1'' Hp2'' Hrest)
    as (w3 & Hduet).
  exists w3. cbn [duet].
  rewrite (bind_ok _ _ _ _ _ Hfeed1), (bind_ok _ _ _ _ _ Hfeed2),
    (bind_ok _ _ _ _ _ Hduet).
  by rewrite session_outs_step.
Qed.

(** X10: two instances constructed one after the other in one store do
    not interfere: fed the same inputs in turn, call by call, they return
    the same outputs. *)
Lemma duet_agree v sampleRate w0 c1 w1 c2 w2 p1 p2 inputs :
  create_of v sampleRate w0 = Ok (Some c1, w1) ->
  create_of v sampleRate w1 = Ok (Some c2, w2) ->
  is_Some (floats_at w2 p1) -> is_Some (floats_at w2 p2) ->
  Forall (fun xs : list float => Z.of_nat (length xs) <= INT_MAX) inputs ->
  exists outs w',
    duet v (Some c1) (Some c2) (Some p1) (Some p2) inputs w2 = Ok (outs, w') /\
    Forall (fun yy => yy.1 = yy.2) outs /\ length outs = length inputs.
Proof.
  intros Hc1 Hc2 Hp1 Hp2 Hall.
  destruct (create_success _ _ _ _ _ Hc1) as (a1 & b1 & Hi1 & _).
  destruct (create_success _ _ _ _ _ Hc2)
    as (a2 & b2 & Hi2 & Hc2n & Ha2n & Hb2n & Hframe).
  destruct (instance_Some _ _ _ _ _ _ Hi1) as (ds1 & Hh1 & Hh2 & Hh3 & _).
  assert (Hi1' : instance v w2 c1 = Some (a1, b1, initial_state v sampleRate)).
  { eapply instance_frame; [exact Hi1|..]; apply Hframe;
      apply elem_of_dom; eauto. }
  assert (a1 <> a2) by (intros ->; apply Ha2n, elem_of_dom; eauto).
  assert (b1 <> b2) by (intros ->; apply Hb2n, elem_of_dom; eauto).
  destruct (duet_run v inputs w2 c1 a1 b1 c2 a2 b2
              (initial_state v sampleRate) p1 p2) as (w' & Hd);
    try done.
  eexists _, w'. split; [exact Hd|]. split.
  - apply Forall_fmap. by apply Forall_true.
  - by rewrite length_fmap, session_outs_length.
Qed.

(** [destroy] on a ready handle tears the engine down, then frees the
    scratch buffer, then the handle. *)
Lemma destroy_ready v w c a b s :
  instance v w c = Some (a, b, s) ->
  destroy_of v (Some c) w
  = Ok (tt, {| heap := delete c (delete b (delete a (heap w)));
               oracle := oracle w;
               trace := trace w ++ [EvEngineDestroy v a; EvFree b; EvFree c] |}).
Proof.
  intros Hi.
  destruct (instance_Some _ _ _ _ _ _ Hi) as (ds & Hc & Ha & Hb & _).
  assert (a <> b /\ c <> a /\ c <> b) as (Hab & Hca & Hcb).
  { split_and!; (eapply distinct_cells; [eassumption|eassumption|done]). }
  assert (Hgen : destroy_of v (Some c)
    = bind (bind (ctx_impl (Some c)) (destroy_engine v)) (fun _ =>
      bind (bind (ctx_workBuf (Some c)) free) (fun _ => free (Some c))))
    by (by destruct v).
  rewrite Hgen.
  set (w1 := Build_world (delete a (heap w)) (oracle w)
               (trace w ++ [EvEngineDestroy v a])).
  erewrite (bind_ok _ _ _ tt w1); cycle 1.
  { rewrite (bind_ok _ _ _ _ _ (ctx_impl_run _ _ _ _ _ Hc)).
    unfold destroy_engine.
    erewrite (bind_ok _ _ _ (obj v b BLOCK s) w); cycle 1.
    { unfold load_engine.
      rewrite (bind_ok _ _ _ _ _ (load_cell_run _ _ _ Ha)).
      cbn [obj e_variant]. by rewrite decide_True. }
    reflexivity. }
  set (w2 := Build_world (delete b (delete a (heap w))) (oracle w)
               ((trace w ++ [EvEngineDestroy v a]) ++ [EvFree b])).
  erewrite (bind_ok _ _ _ tt w2); cycle 1.
  { erewrite (bind_ok _ _ _ (Some b) w1); cycle 1.
    { eapply ctx_workBuf_run. unfold w1. cbn [heap].
      rewrite lookup_delete_ne by done. exact Hc. }
    unfold w1. eapply free_run. rewrite lookup_delete_ne by done. exact Hb. }
  unfold w2. erewrite free_run; cycle 1.
  { rewrite !lookup_delete_ne by done. exact Hc. }
  by rewrite <- !app_assoc.
Qed.

(** X9: [create] then [destroy], with no call in between, leaves no
    cell behind: the store is as it was before [create]. *)
Lemma create_destroy_no_leak v sampleRate w c w1 :
  create_of v sampleRate w = Ok (Some c, w1) ->
  exists w2, destroy_of v (Some c) w1 = Ok (tt, w2) /\ heap w2 = heap w.
Proof.
  intros Hrun.
  destruct (create_cases v sampleRate w)
    as (res & w' & evs & Hrun' & _ & Hcases).
  rewrite Hrun in Hrun'. injection Hrun' as <- <-.
  destruct Hcases
    as [(? & _)|(c' & a & b & [= <-] & _ & Hi & Hc & Ha & Hb & Hheap)];
    [done|].
  eexists. split; [by eapply destroy_ready|]. cbn [heap].
  apply not_elem_of_dom in Hc, Ha, Hb.
  rewrite Hheap. apply map_eq. intros l.
  destruct (decide (l = c)) as [->|]; [by rewrite lookup_delete_eq|].
  rewrite lookup_delete_ne by done.
  destruct (decide (l = b)) as [->|]; [by rewrite lookup_delete_eq|].
  rewrite lookup_delete_ne by done.
  destruct (decide (l = a)) as [->|]; [by rewrite lookup_delete_eq|].
  rewrite lookup_delete_ne by done.
  by rewrite !lookup_insert_ne.
Qed.

End Sessions.

(** ** The code run on the small platform *)
Section Examples.
Import Toy.
#[local] Existing Instance toy_samples.
#[local] Existing Instance toy_engines.

Example toy_create :
  wdsp_emnr_create 48000 toy_w0 = Ok (Some 2%positive, toy_ready).
Proof. vm_compute. reflexivity. Qed.

(** Three samples are one chunk: the engine sees them doubled, Q = 0,
    then zeros; the caller gets the first three real outputs. *)
Example toy_process_3 :
  summary 1%positive
    (wdsp_emnr_process 1 (Some 2%positive) (Some 1%positive) 3 toy_ready)
  = Ok (Some [48031; 48043; 48055], [[10; 0; 14; 0; 18; 0; 0; 0]]).
Proof. vm_compute. reflexivity. Qed.

(** With a frame count of 2 the third sample stays. *)
Example toy_process_2 :
  summary 1%positive
    (wdsp_anr_process 5 (Some 2%positive) (Some 1%positive) 2 toy_ready)
  = Fault /\
  summary 1%positive
    (wdsp_emnr_process 5 (Some 2%positive) (Some 1%positive) 2 toy_ready)
  = Ok (Some [48031; 48043; 9], [[10; 0; 14; 0; 0; 0; 0; 0]]).
Proof. split; vm_compute; reflexivity. Qed.

(** The EMNR constructor does pass the sample rate on. *)
Example emnr_create_uses_rate :
  wdsp_emnr_create 48000 toy_w0 <> wdsp_emnr_create 12000 toy_w0.
Proof.
  intros H.
  apply (f_equal (fun r => match r with
                           | Ok (_, w) => heap w !! 4%positive
                           | _ => None
                           end)) in H.
  vm_compute in H. discriminate.
Qed.

(** A frame count beyond the caller's buffer is undefined behaviour. *)
Example process_past_buffer :
  wdsp_emnr_process 1 (Some 2%positive) (Some 1%positive) 4 toy_ready = Fault.
Proof. vm_compute. reflexivity. Qed.

(** With a block size of 0 the offset never moves. *)
Example process_stuck :
  wdsp_emnr_process 40 (Some 2%positive) (Some 1%positive) 3 toy_stuck
  = OutOfFuel.
Proof. vm_compute. reflexivity. Qed.

(** Too little fuel for the chunks there are. *)
Example process_needs_fuel :
  wdsp_emnr_process 0 (Some 2%positive) (Some 1%positive) 3 toy_ready
  = OutOfFuel.
Proof. vm_compute. reflexivity. Qed.

(** 960 samples of silence: exactly two engine invocations, 481 samples:
    two as well, no samples: none. *)
Example silence_960 :
  invocations (wdsp_emnr_process 2 (Some 2%positive) (Some 1%positive) 960
                 toy_silence) = Ok 2%nat /\
  invocations (wdsp_emnr_process 2 (Some 2%positive) (Some 1%positive) 481
                 toy_silence) = Ok 2%nat /\
  invocations (wdsp_emnr_process 0 (Some 2%positive) (Some 1%positive) 0
                 toy_silence) = Ok 0%nat.
Proof. split_and!; vm_compute; reflexivity. Qed.


(** *** The theorems at these inputs *)

Lemma final_chunk_zero_padded_witness :
  (ready EMNR toy_ready 2%positive /\
   floats_at toy_ready 1%positive = Some [5; 7; 9] /\
   0 <= 3 <= INT_MAX /\ 3 <= Z.of_nat (length [5; 7; 9]) /\
   3 mod 480 <> 0) /\
  exists w' evs l input output fs',
    (forall fuel, (Z.to_nat ((3 + 479) / 480) <= fuel)%nat ->
       process_of EMNR fuel (Some 2%positive) (Some 1%positive) 3 toy_ready
       = Ok (tt, w')) /\
    trace w' = trace toy_ready ++ evs ++ [EvEngineRun EMNR l input output] /\
    length input = 960%nat /\
    (forall i x, (i < Z.to_nat (3 mod 480))%nat ->
       [5; 7; 9] !! (Z.to_nat (3 - 3 mod 480) + i)%nat = Some x ->
       input !! (2 * i)%nat = Some (to_double x)) /\
    (forall i, (Z.to_nat (3 mod 480) <= i < 480)%nat ->
       input !! (2 * i)%nat = Some dzero /\
       input !! (2 * i + 1)%nat = Some dzero) /\
    floats_at w' 1%positive = Some fs' /\
    (forall i, (i < Z.to_nat (3 mod 480))%nat ->
       exists y, output !! (2 * i)%nat = Some y /\
         fs' !! (Z.to_nat (3 - 3 mod 480) + i)%nat = Some (to_float y)) /\
    (forall j : nat, 3 <= Z.of_nat j -> fs' !! j = [5; 7; 9] !! j).
Proof.
  assert (H1 : ready EMNR toy_ready 2%positive) by (vm_compute; eauto).
  assert (H2 : floats_at toy_ready 1%positive = Some [5; 7; 9])
    by (vm_compute; reflexivity).
  assert (H3 : 0 <= 3 <= INT_MAX) by (unfold INT_MAX; lia).
  assert (H4 : 3 <= Z.of_nat (length [5; 7; 9])) by (cbn; lia).
  assert (H5 : 3 mod 480 <> 0) by (vm_compute; discriminate).
  split; [by split_and!|].
  exact (final_chunk_zero_padded EMNR toy_ready 2%positive 1%positive
           [5; 7; 9] 3 H1 H2 H3 H4 H5).
Defined.

Lemma engine_invocation_count_witness :
  (ready EMNR toy_ready 2%positive /\
   floats_at toy_ready 1%positive = Some [5; 7; 9] /\
   0 <= 3 <= INT_MAX /\ 3 <= Z.of_nat (length [5; 7; 9])) /\
  exists evs,
    (forall fuel, (Z.to_nat ((3 + 479) / 480) <= fuel)%nat ->
       exists w',
         process_of EMNR fuel (Some 2%positive) (Some 1%positive) 3 toy_ready
         = Ok (tt, w') /\
         trace w' = trace toy_ready ++ evs) /\
    Forall (fun e => is_engine_run e = true) evs /\
    Z.of_nat (length (filter (fun e => is_engine_run e = true) evs))
      = (3 + 479) / 480.
Proof.
  assert (H1 : ready EMNR toy_ready 2%positive) by (vm_compute; eauto).
  assert (H2 : floats_at toy_ready 1%positive = Some [5; 7; 9])
    by (vm_compute; reflexivity).
  assert (H3 : 0 <= 3 <= INT_MAX) by (unfold INT_MAX; lia).
  assert (H4 : 3 <= Z.of_nat (length [5; 7; 9])) by (cbn; lia).
  split; [by split_and!|].
  exact (engine_invocation_count EMNR toy_ready 2%positive 1%positive
           [5; 7; 9] 3 H1 H2 H3 H4).
Defined.

Lemma process_touches_only_prefix_witness :
  (ready EMNR toy_ready 2%positive /\
   floats_at toy_ready 1%positive = Some [5; 7; 9] /\
   0 <= 2 <= INT_MAX /\ 2 <= Z.of_nat (length [5; 7; 9])) /\
  exists w' fs',
    (forall fuel, (Z.to_nat ((2 + 479) / 480) <= fuel)%nat ->
       process_of EMNR fuel (Some 2%positive) (Some 1%positive) 2 toy_ready
       = Ok (tt, w')) /\
    floats_at w' 1%positive = Some fs' /\
    length fs' = length [5; 7; 9] /\
    (forall j : nat, 2 <= Z.of_nat j -> fs' !! j = [5; 7; 9] !! j) /\
    (forall q, q <> 1%positive -> floats_at w' q = floats_at toy_ready q).
Proof.
  assert (H1 : ready EMNR toy_ready 2%positive) by (vm_compute; eauto).
  assert (H2 : floats_at toy_ready 1%positive = Some [5; 7; 9])
    by (vm_compute; reflexivity).
  assert (H3 : 0 <= 2 <= INT_MAX) by (unfold INT_MAX; lia).
  assert (H4 : 2 <= Z.of_nat (length [5; 7; 9])) by (cbn; lia).
  split; [by split_and!|].
  exact (process_touches_only_prefix EMNR toy_ready 2%positive 1%positive
           [5; 7; 9] 2 H1 H2 H3 H4).
Defined.

Lemma imaginary_slots_zero_witness :
  (ready EMNR toy_silence 2%positive /\
   floats_at toy_silence 1%positive = Some (replicate 960 0) /\
   0 <= 700 <= INT_MAX /\ 700 <= Z.of_nat (length (replicate 960 0))) /\
  exists evs,
    (forall fuel, (Z.to_nat ((700 + 479) / 480) <= fuel)%nat ->
       exists w',
         process_of EMNR fuel (Some 2%positive) (Some 1%positive) 700
           toy_silence = Ok (tt, w') /\
         trace w' = trace toy_silence ++ evs) /\
    forall v' l input output,
      EvEngineRun v' l input output ∈ evs ->
      length input = 960%nat /\
      forall i, (i < 480)%nat -> input !! (2 * i + 1)%nat = Some dzero.
Proof.
  assert (H1 : ready EMNR toy_silence 2%positive) by (vm_compute; eauto).
  assert (H2 : floats_at toy_silence 1%positive = Some (replicate 960 0))
    by (vm_compute; reflexivity).
  assert (H3 : 0 <= 700 <= INT_MAX) by (unfold INT_MAX; lia).
  assert (H4 : 700 <= Z.of_nat (length (replicate 960 0)))
    by (vm_compute; discriminate).
  split; [by split_and!|].
  exact (imaginary_slots_zero EMNR toy_silence 2%positive 1%positive
           (replicate 960 0) 700 H1 H2 H3 H4).
Defined.

Lemma process_terminates_witness :
  (ready EMNR toy_silence 2%positive /\
   floats_at toy_silence 1%positive = Some (replicate 960 0) /\
   0 <= 960 <= INT_MAX /\ 960 <= Z.of_nat (length (replicate 960 0))) /\
  (exists w', forall fuel, (Z.to_nat ((960 + 479) / 480) <= fuel)%nat ->
     process_of EMNR fuel (Some 2%positive) (Some 1%positive) 960 toy_silence
     = Ok (tt, w')) /\
  (forall w0 fs0 offset,
     ready EMNR w0 2%positive -> floats_at w0 1%positive = Some fs0 ->
     960 <= Z.of_nat (length fs0) -> 0 <= offset < 960 ->
     exists offset' w1 fs1,
       chunk_of EMNR (Some 2%positive) (Some 1%positive) 960 offset w0
       = Ok (offset', w1) /\
       offset + 1 <= offset' <= 960 /\
       ready EMNR w1 2%positive /\ floats_at w1 1%positive = Some fs1 /\
       length fs1 = length fs0).
Proof.
  assert (H1 : ready EMNR toy_silence 2%positive) by (vm_compute; eauto).
  assert (H2 : floats_at toy_silence 1%positive = Some (replicate 960 0))
    by (vm_compute; reflexivity).
  assert (H3 : 0 <= 960 <= INT_MAX) by (unfold INT_MAX; lia).
  assert (H4 : 960 <= Z.of_nat (length (replicate 960 0)))
    by (vm_compute; discriminate).
  split; [by split_and!|].
  exact (process_terminates EMNR toy_silence 2%positive 1%positive
           (replicate 960 0) 960 H1 H2 H3 H4).
Defined.

Lemma process_negative_noop_witness :
  -1 < 0 /\
  process_of ANR 0 NULL (Some 1%positive) (-1) toy_w0 = Ok (tt, toy_w0).
Proof.
  assert (H1 : -1 < 0) by lia.
  split; [exact H1|].
  exact (process_negative_noop ANR 0%nat NULL (Some 1%positive) (-1) toy_w0 H1).
Defined.

Lemma two_instances_agree_witness :
  (create_of EMNR 48000 toy_w0 = Ok (Some 2%positive, toy_ready) /\
   create_of EMNR 48000 toy_w1 = Ok (Some 8%positive, toy_ready1) /\
   is_Some (floats_at toy_ready 1%positive) /\
   is_Some (floats_at toy_ready1 7%positive) /\
   Forall (fun xs : list float => Z.of_nat (length xs) <= INT_MAX)
     [[1; 2; 3]; []; [4]]) /\
  exists outs wA' wB',
    session EMNR (Some 2%positive) (Some 1%positive) [[1; 2; 3]; []; [4]]
      toy_ready = Ok (outs, wA') /\
    session EMNR (Some 8%positive) (Some 7%positive) [[1; 2; 3]; []; [4]]
      toy_ready1 = Ok (outs, wB') /\
    length outs = length [[1; 2; 3]; []; [4]].
Proof.
  assert (H1 : create_of EMNR 48000 toy_w0 = Ok (Some 2%positive, toy_ready))
    by (vm_compute; reflexivity).
  assert (H2 : create_of EMNR 48000 toy_w1 = Ok (Some 8%positive, toy_ready1))
    by (vm_compute; reflexivity).
  assert (H3 : is_Some (floats_at toy_ready 1%positive))
    by (vm_compute; eauto).
  assert (H4 : is_Some (floats_at toy_ready1 7%positive))
    by (vm_compute; eauto).
  assert (H5 : Forall (fun xs : list float => Z.of_nat (length xs) <= INT_MAX)
                 [[1; 2; 3]; []; [4]])
    by (repeat constructor; vm_compute; discriminate).
  split; [by split_and!|].
  exact (two_instances_agree EMNR 48000 toy_w0 2%positive toy_ready
           toy_w1 8%positive toy_ready1 1%positive 7%positive
           [[1; 2; 3]; []; [4]] H1 H2 H3 H4 H5).
Defined.

End Examples.

(** * More of the wrapper *)

(** *** The stream seen from the front *)
Section StreamFacts.
Context {Smp : Samples} {Eng : Engines}.

Lemma splice_app_l (pre ys fs : list float) off :
  splice (length pre + off) ys (pre ++ fs) = pre ++ splice off ys fs.
Proof.
  unfold splice. rewrite take_app_add, <- app_assoc. do 2 f_equal.
  rewrite <- Nat.add_assoc. by rewrite drop_app_add.
Qed.

Lemma run_chunks_shift v B F n : forall off s (pre fs : list float),
  run_chunks v B (length pre + F) n (length pre + off) s (pre ++ fs)
  = let r := run_chunks v B F n off s fs in (r.1.1, pre ++ r.1.2, r.2).
Proof.
  induction n as [|n IH]; intros off s pre fs; [done|].
  cbn [run_chunks].
  replace (length pre + F - (length pre + off))%nat with (F - off)%nat by lia.
  rewrite drop_app_add.
  destruct (eng_block _ _ _) as [s1 out].
  rewrite splice_app_l, <- Nat.add_assoc, IH. cbv zeta.
  by destruct (run_chunks _ _ _ _ _ _ _) as [[s2 fs2] ios].
Qed.

Lemma run_chunks_stream v B n : forall F s (fs : list float),
  run_chunks v B F n 0 s fs = stream v B n F s fs.
Proof.
  induction n as [|n IH]; intros F s fs; [done|].
  cbn [run_chunks stream]. rewrite Nat.sub_0_r, drop_0.
  set (len := Nat.min F B).
  destruct (eng_block _ _ _) as [s1 out].
  assert (Hsp : splice 0 (unpack len out) fs = unpack len out ++ drop len fs).
  { unfold splice. by rewrite take_0, unpack_length. }
  rewrite Hsp.
  pose proof (run_chunks_shift v B (F - len) n 0 s1 (unpack len out)
                (drop len fs)) as Hsh.
  rewrite unpack_length, Nat.add_0_r in Hsh.
  replace (len + (F - len))%nat with F in Hsh by lia.
  cbn [Nat.add]. rewrite Hsh, IH. cbv zeta.
  by destruct (stream _ _ _ _ _ _) as [[s2 fs2] ios].
Qed.


(** Only the first [F] samples matter; the others are handed back. *)
Lemma stream_prefix v B n : forall F s (fs : list float),
  stream v B n F s fs
  = let r := stream v B n F s (take F fs) in
    (r.1.1, r.1.2 ++ drop F fs, r.2).
Proof.
  induction n as [|n IH]; intros F s fs.
  { cbn [stream]. cbv zeta. cbn [fst snd]. by rewrite take_drop. }
  cbn [stream]. set (len := Nat.min F B).
  assert (Hlen : len = Nat.min F B) by done. clearbody len.
  rewrite take_take. replace (Nat.min len F) with len by lia.
  destruct (eng_block _ _ _) as [s1 out].
  rewrite (IH (F - len)%nat s1 (drop len fs)).
  rewrite (IH (F - len)%nat s1 (drop len (take F fs))).
  cbv zeta.
  assert (Ht : take (F - len) (drop len (take F fs))
               = take (F - len) (drop len fs)).
  { rewrite !take_drop_commute, take_take. do 2 f_equal. lia. }
  rewrite Ht.
  destruct (stream _ _ _ _ _ _) as [[s2 fs2] ios]. cbn [fst snd].
  rewrite <- !app_assoc. do 3 f_equal.
  rewrite !drop_drop.
  rewrite (drop_ge (take F fs)) by (rewrite length_take; lia).
  cbn [app]. do 2 f_equal. lia.
Qed.

Lemma stream_count v B n F s (fs : list float) :
  length (stream v B n F s fs).2 = n.
Proof.
  revert F s fs. induction n as [|n IH]; intros F s fs; [done|].
  cbn [stream]. destruct (eng_block _ _ _) as [s1 out].
  specialize (IH (F - Nat.min F B)%nat s1 (drop (Nat.min F B) fs)).
  destruct (stream _ _ _ _ _ _) as [[s2 fs2] ios]. cbn [snd length] in *.
  by rewrite IH.
Qed.

(** A stream cut at a multiple of the block size is two streams. *)
Lemma stream_app v B m F2 (ys : list float) k : forall s (xs : list float),
  (0 < B)%nat -> length xs = (k * B)%nat ->
  stream v B (k + m) (k * B + F2) s (xs ++ ys)
  = let r1 := stream v B k (k * B) s xs in
    let r2 := stream v B m F2 r1.1.1 ys in
    (r2.1.1, r1.1.2 ++ r2.1.2, r1.2 ++ r2.2).
Proof.
  induction k as [|k IH]; intros s xs HB Hxs.
  { destruct xs; [|done]. cbn [stream Nat.add Nat.mul app]. cbv zeta.
    by destruct (stream _ _ _ _ _ _) as [[s2 fs2] ios]. }
  cbn [Nat.add stream].
  replace (Nat.min (S k * B + F2) B) with B by lia.
  replace (Nat.min (S k * B) B) with B by lia.
  rewrite take_app_le, drop_app_le by lia.
  destruct (eng_block _ _ _) as [s1 out].
  replace (S k * B + F2 - B)%nat with (k * B + F2)%nat by lia.
  replace (S k * B - B)%nat with (k * B)%nat by lia.
  rewrite IH by (rewrite ?length_drop; lia). cbv zeta.
  destruct (stream v B k _ _ _) as [[s2 fs2] ios2]. cbn [fst snd].
  destruct (stream v B m _ _ _) as [[s3 fs3] ios3]. cbn [fst snd].
  by rewrite <- app_assoc.
Qed.

Lemma nchunks_aligned B k F2 :
  (0 < B)%nat ->
  nchunks B (k * B + F2) = (k + nchunks B F2)%nat /\ nchunks B (k * B) = k.
Proof.
  intros HB. unfold nchunks. split.
  - rewrite <- Nat.add_assoc, Nat.div_add_l by lia. done.
  - rewrite Nat.div_add_l by lia. rewrite (Nat.div_small (B - 1)) by lia. lia.
Qed.

(** What the engine is given and what comes back, chunk by chunk. *)
Lemma stream_blocks v B n : forall F s (fs : list float) k io,
  (0 < B)%nat ->
  (stream v B n F s fs).2 !! k = Some io ->
  io.1 = pack B (take B (drop (k * B) (take F fs))) /\
  io.2 = (eng_block v
            (state_after v s (take k (fst <$> (stream v B n F s fs).2)))
            io.1).2 /\
  forall i, (i < B)%nat -> (k * B + i < F)%nat ->
    (stream v B n F s fs).1.2 !! (k * B + i)%nat
    = Some (to_float (default dzero (io.2 !! (2 * i)%nat))).
Proof.
  induction n as [|n IH]; intros F s fs k io HB Hk; [done|].
  cbn [stream] in *. set (len := Nat.min F B) in *.
  assert (Hlen : len = Nat.min F B) by done. clearbody len.
  destruct (eng_block v s (pack B (take len fs))) as [s1 out] eqn:E.
  specialize (IH (F - len)%nat s1 (drop len fs)).
  destruct (stream v B n (F - len) s1 (drop len fs)) as [[s2 fs2] ios].
  cbn [fst snd] in *.
  destruct k as [|k].
  - injection Hk as <-. unfold state_after.
    cbn [fst snd]. change (0 * B)%nat with 0%nat.
    rewrite take_0. cbn [foldl].
    rewrite drop_0, take_take. replace (Nat.min B F) with len by lia.
    rewrite E. split_and!; [done|done|].
    intros i Hi HiF. cbn [Nat.add].
    rewrite lookup_app_l by (rewrite unpack_length; lia).
    apply unpack_lookup. lia.
  - cbn [lookup list_lookup] in Hk.
    destruct (IH k io HB Hk) as (Hin & Hout & Hfs).
    assert (HF : forall i, (S k * B + i < F)%nat -> len = B) by lia.
    split_and!.
    + rewrite Hin. do 2 f_equal.
      destruct (decide (B <= F)%nat) as [Hle|Hgt].
      * replace len with B by lia.
        rewrite take_drop_commute, drop_drop. do 2 f_equal; lia.
      * replace len with F by lia. rewrite Nat.sub_diag, take_0, drop_nil.
        rewrite drop_ge; [done|]. rewrite length_take. lia.
    + rewrite Hout. unfold state_after.
      cbn [fmap list_fmap fst]. rewrite firstn_cons. cbn [foldl].
      by rewrite E.
    + intros i Hi HiF. rewrite (HF i HiF) in *.
      rewrite lookup_app_r by (rewrite unpack_length; lia).
      rewrite unpack_length.
      replace (S k * B + i - B)%nat with (k * B + i)%nat by lia.
      apply Hfs; lia.
Qed.


(** Packing then unpacking a chunk is the two casts. *)
Lemma unpack_pack B (chunk : list float) :
  (length chunk <= B)%nat ->
  unpack (length chunk) (pack B chunk)
  = (fun x => to_float (to_double x)) <$> chunk.
Proof.
  intros Hlen. apply list_eq. intros i.
  destruct (decide (i < length chunk)%nat) as [Hi|Hi].
  - rewrite unpack_lookup by done.
    destruct (lookup_lt_is_Some_2 chunk i Hi) as [x Hx].
    rewrite (pack_lookup_re _ _ _ _ Hx), list_lookup_fmap, Hx. done.
  - rewrite !lookup_ge_None_2; [done|..];
      rewrite ?length_fmap, ?unpack_length; lia.
Qed.

(** With an engine that hands the buffer back, the stream is the two
    casts on the first [F] samples. *)
Lemma stream_echo v B n : forall F s (fs : list float),
  (forall s buf, (eng_block v s buf).2 = buf) ->
  (F <= length fs)%nat ->
  (n * B >= F)%nat ->
  (stream v B n F s fs).1.2
  = ((fun x => to_float (to_double x)) <$> take F fs) ++ drop F fs.
Proof.
  induction n as [|n IH]; intros F s fs Hecho HF Hn.
  { assert (F = 0)%nat as -> by lia. by rewrite take_0, drop_0. }
  cbn [stream]. set (len := Nat.min F B).
  assert (Hlen : len = Nat.min F B) by done. clearbody len.
  pose proof (Hecho s (pack B (take len fs))) as Hout.
  destruct (eng_block v s _) as [s1 out]. cbn [snd] in Hout. subst out.
  specialize (IH (F - len)%nat s1 (drop len fs) Hecho).
  destruct (stream _ _ _ _ _ _) as [[s2 fs2] ios]. cbn [fst snd] in *.
  rewrite IH by (rewrite ?length_drop; lia).
  assert (Hl : length (take len fs) = len) by (rewrite length_take; lia).
  rewrite <- Hl at 1. rewrite unpack_pack by lia.
  rewrite app_assoc, <- fmap_app.
  rewrite take_take_drop, drop_drop.
  by replace (len + (F - len))%nat with F by lia.
Qed.

End StreamFacts.

(** *** Calls on a ready handle, by the stream *)
Section MoreProcess.
Context {Smp : Samples} {Eng : Engines}.

(** The store after a call, told by [stream]. *)
Lemma process_by_stream v w c p fs F :
  ready v w c -> floats_at w p = Some fs ->
  0 <= F <= INT_MAX -> F <= Z.of_nat (length fs) ->
  exists w' a b s,
    instance v w c = Some (a, b, s) /\
    a <> b /\ a <> p /\ b <> p /\ c <> a /\ c <> b /\ c <> p /\
    (forall fuel, (Z.to_nat ((F + 479) / 480) <= fuel)%nat ->
       process_of v fuel (Some c) (Some p) F w = Ok (tt, w')) /\
    let r := stream v BLOCK (nchunks BLOCK (Z.to_nat F)) (Z.to_nat F) s fs in
    floats_at w' p = Some r.1.2 /\
    instance v w' c = Some (a, b, r.1.1) /\
    trace w' = trace w ++ events_of v a r.2 /\
    oracle w' = oracle w /\
    dom (heap w') = dom (heap w) /\
    (forall l, l <> a -> l <> b -> l <> p -> heap w' !! l = heap w !! l).
Proof.
  intros Hr Hp HF Hfs.
  destruct (process_run v w c p fs F Hr Hp HF Hfs)
    as (a & b & s & ds & Hi & Hb & Hab & Hap & Hbp & Hca & Hcb & Hcp & Hrun).
  destruct (instance_Some _ _ _ _ _ _ Hi) as (ds' & Hc & Ha & _ & _).
  apply floats_at_Some in Hp.
  exists (after v w a b p (Z.to_nat F) s ds fs), a, b, s.
  split_and!; try done. cbv zeta. rewrite <- run_chunks_stream. split_and!.
  - apply after_floats.
  - by apply after_instance.
  - apply after_trace.
  - done.
  - unfold after, W. cbn [heap]. rewrite !dom_insert_L.
    apply set_eq. intros l. rewrite !elem_of_union, !elem_of_singleton.
    split; [|tauto].
    intros [->|[->|[->|?]]]; try done; apply elem_of_dom; eauto.
  - intros l ? ? ?. by apply after_other.
Qed.

Lemma stream_length v n F s (fs : list float) :
  (F <= length fs)%nat ->
  length (stream v BLOCK n F s fs).1.2 = length fs.
Proof.
  intros HF. rewrite <- run_chunks_stream.
  apply run_chunks_frame; lia.
Qed.



(** X2: a call reads the engine state and the first [F] samples, nothing
    else: from equal engine states and equal first [F] samples, two calls
    (on any two ready handles, in any two stores, whatever the scratch
    buffers and the samples from [F] on hold) give the engine the same
    inputs, get the same outputs, leave equal engine states and equal
    first [F] samples. *)
Theorem process_reads_only_prefix v w1 w2 c1 c2 a1 b1 a2 b2 s p1 p2
    fs1 fs2 F :
  instance v w1 c1 = Some (a1, b1, s) ->
  instance v w2 c2 = Some (a2, b2, s) ->
  floats_at w1 p1 = Some fs1 -> floats_at w2 p2 = Some fs2 ->
  0 <= F <= INT_MAX ->
  F <= Z.of_nat (length fs1) -> F <= Z.of_nat (length fs2) ->
  take (Z.to_nat F) fs1 = take (Z.to_nat F) fs2 ->
  exists w1' w2' fs1' fs2' s' ios,
    (forall fuel, (Z.to_nat ((F + 479) / 480) <= fuel)%nat ->
       process_of v fuel (Some c1) (Some p1) F w1 = Ok (tt, w1') /\
       process_of v fuel (Some c2) (Some p2) F w2 = Ok (tt, w2')) /\
    floats_at w1' p1 = Some fs1' /\ floats_at w2' p2 = Some fs2' /\
    take (Z.to_nat F) fs1' = take (Z.to_nat F) fs2' /\
    drop (Z.to_nat F) fs1' = drop (Z.to_nat F) fs1 /\
    drop (Z.to_nat F) fs2' = drop (Z.to_nat F) fs2 /\
    instance v w1' c1 = Some (a1, b1, s') /\
    instance v w2' c2 = Some (a2, b2, s') /\
    trace w1' = trace w1 ++ events_of v a1 ios /\
    trace w2' = trace w2 ++ events_of v a2 ios.
Proof.
  intros Hi1 Hi2 Hp1 Hp2 HF Hfs1 Hfs2 Htake.
  destruct (process_by_stream v w1 c1 p1 fs1 F (mk_is_Some _ _ Hi1)
              Hp1 HF Hfs1)
    as (w1' & a & b & s1 & Hi & _ & _ & _ & _ & _ & _ & Hrun1 & Hres1).
  rewrite Hi1 in Hi. injection Hi as <- <- <-.
  destruct (process_by_stream v w2 c2 p2 fs2 F (mk_is_Some _ _ Hi2)
              Hp2 HF Hfs2)
    as (w2' & a & b & s2 & Hi & _ & _ & _ & _ & _ & _ & Hrun2 & Hres2).
  rewrite Hi2 in Hi. injection Hi as <- <- <-.
  cbv zeta in Hres1, Hres2.
  rewrite stream_prefix in Hres1, Hres2. cbv zeta in Hres1, Hres2.
  cbn [fst snd] in Hres1, Hres2. rewrite <- Htake in Hres2.
  destruct Hres1 as (Hfl1 & Hi1' & Htr1 & _).
  destruct Hres2 as (Hfl2 & Hi2' & Htr2 & _).
  set (n := nchunks BLOCK (Z.to_nat F)) in *.
  set (r := stream v BLOCK n (Z.to_nat F) s (take (Z.to_nat F) fs1)) in *.
  assert (Hlen : length r.1.2 = Z.to_nat F).
  { unfold r. rewrite stream_length; rewrite length_take; lia. }
  eexists w1', w2', _, _, _, _. split_and!; try done.
  - intros fuel Hfuel. split; [by apply Hrun1|by apply Hrun2].
  - by rewrite !take_app_length' by done.
  - by rewrite drop_app_length' by done.
  - by rewrite drop_app_length' by done.
Qed.

(** X3: packing and unpacking are inverse up to the two casts: when the
    engine hands its buffer back untouched and [(float)(double)x] is [x],
    a call leaves every sample of the caller's buffer as it was. *)
Theorem passthrough_round_trip v w c p fs F :
  (forall s buf, (eng_block v s buf).2 = buf) ->
  (forall x, to_float (to_double x) = x) ->
  ready v w c -> floats_at w p = Some fs ->
  0 <= F <= INT_MAX -> F <= Z.of_nat (length fs) ->
  exists w',
    (forall fuel, (Z.to_nat ((F + 479) / 480) <= fuel)%nat ->
       process_of v fuel (Some c) (Some p) F w = Ok (tt, w')) /\
    floats_at w' p = Some fs.
Proof.
  intros Hecho Hcast Hr Hp HF Hfs.
  destruct (process_by_stream v w c p fs F Hr Hp HF Hfs)
    as (w' & a & b & s & Hi & _ & _ & _ & _ & _ & _ & Hrun & Hres).
  cbv zeta in Hres. destruct Hres as (Hfl & _).
  exists w'. split; [done|]. rewrite Hfl. f_equal.
  rewrite stream_echo; [| done | lia |].
  - rewrite (list_fmap_ext _ id (take (Z.to_nat F) fs))
      by (intros; apply Hcast).
    by rewrite list_fmap_id, take_drop.
  - pose proof (nchunks_pos BLOCK (Z.to_nat F)) as Hpos.
    unfold nchunks, BLOCK in *.
    pose proof (Nat.div_mod_eq (Z.to_nat F + (480 - 1)) 480) as Hd.
    pose proof (Nat.mod_upper_bound (Z.to_nat F + (480 - 1)) 480) as Hm.
    lia.
Qed.

(** X4: a call allocates nothing and frees nothing: the live addresses
    and the allocation decisions to come are as before; it writes the
    engine object, the scratch buffer and the caller's buffer, and no
    other cell, the handle struct included; the handle stays ready. *)
Theorem process_allocates_nothing v w c a b s p fs F :
  instance v w c = Some (a, b, s) -> floats_at w p = Some fs ->
  0 <= F <= INT_MAX -> F <= Z.of_nat (length fs) ->
  exists w',
    (forall fuel, (Z.to_nat ((F + 479) / 480) <= fuel)%nat ->
       process_of v fuel (Some c) (Some p) F w = Ok (tt, w')) /\
    dom (heap w') = dom (heap w) /\
    oracle w' = oracle w /\
    heap w' !! c = heap w !! c /\
    (forall l, l <> a -> l <> b -> l <> p -> heap w' !! l = heap w !! l) /\
    ready v w' c.
Proof.
  intros Hi Hp HF Hfs.
  destruct (process_by_stream v w c p fs F (mk_is_Some _ _ Hi) Hp HF Hfs)
    as (w' & a' & b' & s' & Hi' & Hab & Hap & Hbp & Hca & Hcb & Hcp
        & Hrun & Hres).
  rewrite Hi in Hi'. injection Hi' as <- <- <-.
  cbv zeta in Hres. destruct Hres as (_ & Hi' & _ & Ho & Hdom & Hframe).
  exists w'. split_and!; try done.
  - by apply Hframe.
  - by eexists.
Qed.

(** X5: [process] has no null check: with a null handle it is undefined
    behaviour as soon as there is a sample to process, and does nothing
    when there is none. *)
Theorem process_null_handle v fuel inOut F w :
  (0 < fuel)%nat ->
  process_of v fuel NULL inOut F w = if 0 <? F then Fault else Ok (tt, w).
Proof.
  intros Hfuel. rewrite process_of_unfold. unfold bind at 1.
  destruct fuel as [|fuel]; [lia|]. cbn [while_].
  destruct (Z.ltb_spec 0 F); [|done].
  rewrite chunk_of_gen. by unfold bind at 1.
Qed.

(** X12: [process] does not know the length of the caller's buffer: a
    frame count beyond it is undefined behaviour, met when the loop
    reaches the chunk that runs over the end (after one engine call for
    each full chunk before it). *)
Theorem process_past_buffer_faults v w c p fs F :
  ready v w c -> floats_at w p = Some fs ->
  Z.of_nat (length fs) < F <= INT_MAX ->
  forall fuel, (length fs / 480 < fuel)%nat ->
    process_of v fuel (Some c) (Some p) F w = Fault.
Proof.
  intros [[[a b] s] Hi] Hp HF fuel Hfuel.
  apply floats_at_Some in Hp.
  destruct (instance_Some _ _ _ _ _ _ Hi) as (ds & Hc & Ha & Hb & Hlen).
  assert (a <> b /\ a <> p /\ b <> p /\ c <> a /\ c <> b /\ c <> p)
    as (Hab & Hap & Hbp & Hca & Hcb & Hcp).
  { split_and!; (eapply distinct_cells; [eassumption|eassumption|done]). }
  rewrite process_of_unfold.
  rewrite (world_as_W _ _ _ _ _ _ _ _ _ Hi Hb Hp) at 1.
  rewrite <- (Z2Nat.id F) by lia. change 0 with (Z.of_nat 0).
  unfold bind at 1.
  rewrite (loop_W_past v c a b p (heap w) (oracle w) (trace w) BLOCK)
    with (n := (length fs / BLOCK)%nat);
    first [ done | lia | apply BLOCK_bound | by rewrite Nat.sub_0_r
          | (unfold BLOCK; lia) ].
Qed.

End MoreProcess.

(** *** Sequences of calls, and the end of a handle *)
Section MoreSessions.
Context {Smp : Samples} {Eng : Engines}.

Lemma feed_after v w c a b s p old xs :
  instance v w c = Some (a, b, s) -> floats_at w p = Some old ->
  Z.of_nat (length xs) <= INT_MAX ->
  let r := stream v BLOCK (nchunks BLOCK (length xs)) (length xs) s xs in
  exists w',
    feed v (Some c) (Some p) xs w = Ok (r.1.2, w') /\
    instance v w' c = Some (a, b, r.1.1) /\
    floats_at w' p = Some r.1.2 /\
    trace w' = trace w ++ events_of v a r.2.
Proof.
  intros Hi Hp Hlen. cbv zeta. rewrite <- run_chunks_stream.
  apply floats_at_Some in Hp.
  destruct (instance_Some _ _ _ _ _ _ Hi) as (ds & Hc & Ha & Hb & Hds).
  assert (a <> b /\ a <> p /\ b <> p /\ c <> a /\ c <> b /\ c <> p)
    as (Hab & Hap & Hbp & Hca & Hcb & Hcp).
  { split_and!; (eapply distinct_cells; [eassumption|eassumption|done]). }
  set (w1 := set_heap (<[p := CFloats xs]> (heap w)) w).
  assert (Hi1 : instance v w1 c = Some (a, b, s)).
  { eapply instance_frame; [exact Hi|..]; unfold w1; cbn [set_heap heap];
      by rewrite lookup_insert_ne. }
  assert (Hb1 : heap w1 !! b = Some (CDoubles ds)).
  { unfold w1. cbn [set_heap heap]. by rewrite lookup_insert_ne. }
  assert (Hp1 : heap w1 !! p = Some (CFloats xs)).
  { unfold w1. cbn [set_heap heap]. by rewrite lookup_insert_eq. }
  exists (after v w1 a b p (length xs) s ds xs). split_and!.
  - unfold feed.
    erewrite bind_ok; cycle 1.
    { rewrite (bind_ok _ _ _ _ _ (load_cell_run _ _ _ Hp)). reflexivity. }
    fold w1.
    erewrite bind_ok; cycle 1.
    { apply process_spec with (ds := ds); try done. apply nchunks_le. }
    erewrite bind_ok; cycle 1.
    { apply load_cell_run. unfold after, W. cbn [heap].
      apply lookup_insert_eq. }
    done.
  - by apply after_instance.
  - apply after_floats.
  - by rewrite after_trace.
Qed.

(** X6: a stream may be cut at any multiple of 480 samples: processing
    [xs] and then [ys] in two calls gives the engine the same inputs,
    leaves the same engine state and returns the same samples as
    processing [xs ++ ys] in one call. *)
Theorem aligned_split_composes v w c p (xs ys : list float) k :
  ready v w c -> is_Some (floats_at w p) ->
  length xs = (k * 480)%nat ->
  Z.of_nat (length xs + length ys) <= INT_MAX ->
  exists o1 o2 wA wB,
    session v (Some c) (Some p) [xs; ys] w = Ok ([o1; o2], wA) /\
    session v (Some c) (Some p) [xs ++ ys] w = Ok ([o1 ++ o2], wB) /\
    length o1 = length xs /\ length o2 = length ys /\
    instance v wA c = instance v wB c /\
    trace wA = trace wB.
Proof.
  intros [[[a b] s] Hi] [old Hp] Hxs Hmax.
  destruct (nchunks_aligned BLOCK k (length ys)) as [Hn1 Hn2];
    [unfold BLOCK; lia|].
  (* two calls *)
  destruct (feed_after v w c a b s p old xs Hi Hp ltac:(lia))
    as (w1 & Hf1 & Hi1 & Hp1 & Ht1).
  set (r1 := stream v BLOCK (nchunks BLOCK (length xs)) (length xs) s xs) in *.
  destruct (feed_after v w1 c a b r1.1.1 p r1.1.2 ys Hi1 Hp1 ltac:(lia))
    as (w2 & Hf2 & Hi2 & Hp2 & Ht2).
  set (r2 := stream v BLOCK (nchunks BLOCK (length ys)) (length ys)
               r1.1.1 ys) in *.
  (* one call *)
  destruct (feed_after v w c a b s p old (xs ++ ys) Hi Hp
              ltac:(rewrite length_app; lia)) as (w3 & Hf3 & Hi3 & Hp3 & Ht3).
  assert (Hr : stream v BLOCK (nchunks BLOCK (length (xs ++ ys)))
                 (length (xs ++ ys)) s (xs ++ ys)
               = (r2.1.1, r1.1.2 ++ r2.1.2, r1.2 ++ r2.2)).
  { unfold r2, r1. rewrite length_app, Hxs.
    change 480%nat with BLOCK. rewrite Hn1, Hn2.
    apply stream_app; [unfold BLOCK; lia|done]. }
  rewrite Hr in Hf3, Hi3, Ht3. cbn [fst snd] in Hf3, Hi3, Ht3.
  exists r1.1.2, r2.1.2, w2, w3. split_and!.
  - cbn [session]. rewrite (bind_ok _ _ _ _ _ Hf1). unfold bind at 1.
    rewrite (bind_ok _ _ _ _ _ Hf2). done.
  - cbn [session]. rewrite (bind_ok _ _ _ _ _ Hf3). done.
  - unfold r1. by apply stream_length.
  - unfold r2. by apply stream_length.
  - by rewrite Hi2, Hi3.
  - rewrite Ht2, Ht1, Ht3. unfold events_of.
    by rewrite fmap_app, app_assoc.
Qed.

(** X7: [destroy] on a ready handle tears the engine down, then frees the
    scratch buffer, then the handle, and touches nothing else: these
    three cells are gone, every other cell is as it was, and the handle
    is no longer ready. *)
Theorem destroy_releases_instance v w c a b s :
  instance v w c = Some (a, b, s) ->
  exists w',
    destroy_of v (Some c) w = Ok (tt, w') /\
    trace w' = trace w ++ [EvEngineDestroy v a; EvFree b; EvFree c] /\
    oracle w' = oracle w /\
    heap w' !! c = None /\ heap w' !! a = None /\ heap w' !! b = None /\
    (forall l, l <> c -> l <> a -> l <> b -> heap w' !! l = heap w !! l) /\
    instance v w' c = None.
Proof.
  intros Hi. eexists. split; [by apply (destroy_ready v w c a b s)|].
  destruct (instance_Some _ _ _ _ _ _ Hi) as (ds & Hc & Ha & Hb & _).
  assert (a <> b /\ c <> a /\ c <> b) as (Hab & Hca & Hcb).
  { split_and!; (eapply distinct_cells; [eassumption|eassumption|done]). }
  cbn [heap trace oracle]. split_and!; try done.
  - apply lookup_delete_eq.
  - rewrite !lookup_delete_ne by done. apply lookup_delete_eq.
  - rewrite lookup_delete_ne by done. apply lookup_delete_eq.
  - intros l ? ? ?. by rewrite !lookup_delete_ne.
  - unfold instance. cbn [heap]. by rewrite lookup_delete_eq.
Qed.

(** X8: a destroyed handle is dead: a second [destroy] on it and any
    [process] of at least one sample through it are undefined
    behaviour. *)
Theorem use_after_destroy_faults v w c a b s :
  instance v w c = Some (a, b, s) ->
  exists w',
    destroy_of v (Some c) w = Ok (tt, w') /\
    destroy_of v (Some c) w' = Fault /\
    forall fuel inOut F, (0 < fuel)%nat -> 0 < F ->
      process_of v fuel (Some c) inOut F w' = Fault.
Proof.
  intros Hi. eexists. split; [by apply (destroy_ready v w c a b s)|].
  set (w' := Build_world _ _ _).
  assert (Hc : heap w' !! c = None) by apply lookup_delete_eq.
  clearbody w'.
  assert (Hload : forall A (k : cell -> M A),
            bind (load_cell (Some c)) k w' = Fault).
  { intros A k. unfold load_cell, bind, get_heap. by rewrite Hc. }
  split.
  - assert (Hgen : destroy_of v (Some c)
      = bind (bind (ctx_impl (Some c)) (destroy_engine v)) (fun _ =>
        bind (bind (ctx_workBuf (Some c)) free) (fun _ => free (Some c))))
      by (by destruct v).
    rewrite Hgen. unfold ctx_impl. unfold bind at 1 2. by rewrite Hload.
  - intros fuel inOut F Hfuel HF.
    rewrite process_of_unfold. unfold bind at 1.
    destruct fuel as [|fuel]; [lia|]. cbn [while_].
    destruct (Z.ltb_spec 0 F); [|lia].
    rewrite chunk_of_gen. unfold bind at 1. unfold chunk_gen, ctx_bufSize.
    unfold bind at 1. by rewrite Hload.
Qed.

(** X11: a cut that is not at a multiple of 480 is seen by the engine:
    with [k] full chunks and [r] more samples in [xs], and [ys] not
    empty, the engine's input number [k] has zero in real slot [r] when
    [xs] and [ys] are processed in two calls (the last chunk of [xs] is
    padded), and the first sample of [ys] there when [xs ++ ys] is
    processed in one call. *)
Theorem unaligned_split_pads v w c p (xs ys : list float) k r y :
  ready v w c -> is_Some (floats_at w p) ->
  length xs = (k * 480 + r)%nat -> (0 < r < 480)%nat ->
  ys !! 0%nat = Some y ->
  Z.of_nat (length xs + length ys) <= INT_MAX ->
  exists oA oB wA wB l inA outA inB outB,
    session v (Some c) (Some p) [xs; ys] w = Ok (oA, wA) /\
    session v (Some c) (Some p) [xs ++ ys] w = Ok (oB, wB) /\
    trace wA !! (length (trace w) + k)%nat
    = Some (EvEngineRun v l inA outA) /\
    trace wB !! (length (trace w) + k)%nat
    = Some (EvEngineRun v l inB outB) /\
    inA !! (2 * r)%nat = Some dzero /\
    inB !! (2 * r)%nat = Some (to_double y).
Proof.
  intros [[[a b] s] Hi] [old Hp] Hxs Hr Hy Hmax.
  assert (HB : (0 < BLOCK)%nat) by (unfold BLOCK; lia).
  destruct (feed_after v w c a b s p old xs Hi Hp ltac:(lia))
    as (w1 & Hf1 & Hi1 & Hp1 & Ht1).
  set (r1 := stream v BLOCK (nchunks BLOCK (length xs)) (length xs) s xs) in *.
  destruct (feed_after v w1 c a b r1.1.1 p r1.1.2 ys Hi1 Hp1 ltac:(lia))
    as (w2 & Hf2 & Hi2 & Hp2 & Ht2).
  destruct (feed_after v w c a b s p old (xs ++ ys) Hi Hp
              ltac:(rewrite length_app; lia)) as (w3 & Hf3 & Hi3 & Hp3 & Ht3).
  set (r3 := stream v BLOCK (nchunks BLOCK (length (xs ++ ys)))
               (length (xs ++ ys)) s (xs ++ ys)) in *.
  assert (Hys : (0 < length ys)%nat) by (by eapply lookup_lt_Some).
  (* each run has an invocation number k *)
  assert (Hn1 : (k < nchunks BLOCK (length xs))%nat).
  { rewrite Hxs. change 480%nat with BLOCK.
    rewrite (proj1 (nchunks_aligned BLOCK k r HB)).
    rewrite (nchunks_pos BLOCK r) by lia. lia. }
  assert (Hn3 : (k < nchunks BLOCK (length (xs ++ ys)))%nat).
  { rewrite length_app, Hxs. change 480%nat with BLOCK.
    rewrite <- Nat.add_assoc.
    rewrite (proj1 (nchunks_aligned BLOCK k (r + length ys) HB)).
    rewrite (nchunks_pos BLOCK (r + length ys)) by lia. lia. }
  destruct (lookup_lt_is_Some_2 r1.2 k) as [io1 Hio1];
    [unfold r1; by rewrite stream_count|].
  destruct (lookup_lt_is_Some_2 r3.2 k) as [io3 Hio3];
    [unfold r3; by rewrite stream_count|].
  destruct (stream_blocks v BLOCK _ _ _ _ _ _ HB Hio1) as (Hin1 & _).
  destruct (stream_blocks v BLOCK _ _ _ _ _ _ HB Hio3) as (Hin3 & _).
  exists [r1.1.2; (stream v BLOCK (nchunks BLOCK (length ys)) (length ys)
                     r1.1.1 ys).1.2], [r3.1.2], w2, w3, a,
    io1.1, io1.2, io3.1, io3.2.
  split_and!.
  - cbn [session]. rewrite (bind_ok _ _ _ _ _ Hf1). unfold bind at 1.
    rewrite (bind_ok _ _ _ _ _ Hf2). done.
  - cbn [session]. rewrite (bind_ok _ _ _ _ _ Hf3). done.
  - rewrite Ht2, Ht1, <- app_assoc, lookup_app_r by lia.
    replace (length (trace w) + k - length (trace w))%nat with k by lia.
    rewrite lookup_app_l
      by (unfold events_of; rewrite length_fmap; by eapply lookup_lt_Some).
    unfold events_of. by rewrite list_lookup_fmap, Hio1.
  - rewrite Ht3, lookup_app_r by lia.
    replace (length (trace w) + k - length (trace w))%nat with k by lia.
    unfold events_of. by rewrite list_lookup_fmap, Hio3.
  - rewrite Hin1. apply pack_lookup_pad.
    rewrite length_take, length_drop, firstn_all, Hxs. unfold BLOCK. lia.
  - rewrite Hin3. apply pack_lookup_re.
    rewrite firstn_all, lookup_take_lt, lookup_drop by (unfold BLOCK; lia).
    rewrite lookup_app_r by (unfold BLOCK; lia).
    replace (k * BLOCK + r - length xs)%nat with 0%nat
      by (unfold BLOCK; lia).
    done.
Qed.

End MoreSessions.

(** *** These theorems at inputs of the small platforms *)
Section MoreExamples.
Import Toy Toy2.
#[local] Existing Instance toy_samples.
#[local] Existing Instance toy_engines.


Lemma process_reads_only_prefix_witness :
  (instance EMNR toy_ready 2%positive = Some (4%positive, 3%positive, 48000) /\
   instance EMNR toy_other 12%positive
   = Some (14%positive, 13%positive, 48000) /\
   floats_at toy_ready 1%positive = Some [5; 7; 9] /\
   floats_at toy_other 11%positive = Some [5; 7; 1; 1] /\
   0 <= 2 <= INT_MAX /\
   2 <= Z.of_nat (length [5; 7; 9]) /\ 2 <= Z.of_nat (length [5; 7; 1; 1]) /\
   take (Z.to_nat 2) [5; 7; 9] = take (Z.to_nat 2) [5; 7; 1; 1]) /\
  exists w1' w2' fs1' fs2' s' ios,
    (forall fuel, (Z.to_nat ((2 + 479) / 480) <= fuel)%nat ->
       process_of EMNR fuel (Some 2%positive) (Some 1%positive) 2 toy_ready
       = Ok (tt, w1') /\
       process_of EMNR fuel (Some 12%positive) (Some 11%positive) 2 toy_other
       = Ok (tt, w2')) /\
    floats_at w1' 1%positive = Some fs1' /\
    floats_at w2' 11%positive = Some fs2' /\
    take (Z.to_nat 2) fs1' = take (Z.to_nat 2) fs2' /\
    drop (Z.to_nat 2) fs1' = drop (Z.to_nat 2) [5; 7; 9] /\
    drop (Z.to_nat 2) fs2' = drop (Z.to_nat 2) [5; 7; 1; 1] /\
    instance EMNR w1' 2%positive = Some (4%positive, 3%positive, s') /\
    instance EMNR w2' 12%positive = Some (14%positive, 13%positive, s') /\
    trace w1' = trace toy_ready ++ events_of EMNR 4%positive ios /\
    trace w2' = trace toy_other ++ events_of EMNR 14%positive ios.
Proof.
  assert (H1 : instance EMNR toy_ready 2%positive
               = Some (4%positive, 3%positive, 48000))
    by (vm_compute; reflexivity).
  assert (H2 : instance EMNR toy_other 12%positive
               = Some (14%positive, 13%positive, 48000))
    by (vm_compute; reflexivity).
  assert (H3 : floats_at toy_ready 1%positive = Some [5; 7; 9])
    by (vm_compute; reflexivity).
  assert (H4 : floats_at toy_other 11%positive = Some [5; 7; 1; 1])
    by (vm_compute; reflexivity).
  assert (H5 : 0 <= 2 <= INT_MAX) by (unfold INT_MAX; lia).
  assert (H6 : 2 <= Z.of_nat (length [5; 7; 9])) by (cbn; lia).
  assert (H7 : 2 <= Z.of_nat (length [5; 7; 1; 1])) by (cbn; lia).
  assert (H8 : take (Z.to_nat 2) [5; 7; 9] = take (Z.to_nat 2) [5; 7; 1; 1])
    by reflexivity.
  split; [split_and!; first [assumption | lia]|].
  exact (process_reads_only_prefix EMNR toy_ready toy_other
           2%positive 12%positive 4%positive 3%positive 14%positive
           13%positive 48000 1%positive 11%positive [5; 7; 9] [5; 7; 1; 1] 2
           H1 H2 H3 H4 H5 H6 H7 H8).
Defined.

Lemma process_allocates_nothing_witness :
  (instance EMNR toy_ready 2%positive = Some (4%positive, 3%positive, 48000) /\
   floats_at toy_ready 1%positive = Some [5; 7; 9] /\
   0 <= 3 <= INT_MAX /\ 3 <= Z.of_nat (length [5; 7; 9])) /\
  exists w',
    (forall fuel, (Z.to_nat ((3 + 479) / 480) <= fuel)%nat ->
       process_of EMNR fuel (Some 2%positive) (Some 1%positive) 3 toy_ready
       = Ok (tt, w')) /\
    dom (heap w') = dom (heap toy_ready) /\
    oracle w' = oracle toy_ready /\
    heap w' !! 2%positive = heap toy_ready !! 2%positive /\
    (forall l, l <> 4%positive -> l <> 3%positive -> l <> 1%positive ->
       heap w' !! l = heap toy_ready !! l) /\
    ready EMNR w' 2%positive.
Proof.
  assert (H1 : instance EMNR toy_ready 2%positive
               = Some (4%positive, 3%positive, 48000))
    by (vm_compute; reflexivity).
  assert (H2 : floats_at toy_ready 1%positive = Some [5; 7; 9])
    by (vm_compute; reflexivity).
  assert (H3 : 0 <= 3 <= INT_MAX) by (unfold INT_MAX; lia).
  assert (H4 : 3 <= Z.of_nat (length [5; 7; 9])) by (cbn; lia).
  split; [split_and!; first [assumption | lia]|].
  exact (process_allocates_nothing EMNR toy_ready 2%positive 4%positive
           3%positive 48000 1%positive [5; 7; 9] 3 H1 H2 H3 H4).
Defined.

Lemma process_null_handle_witness :
  (0 < 1)%nat /\
  process_of ANR 1 NULL (Some 1%positive) 1 toy_w0
  = (if 0 <? 1 then Fault else Ok (tt, toy_w0)).
Proof.
  assert (H1 : (0 < 1)%nat) by lia.
  split; [exact H1|].
  exact (process_null_handle ANR 1%nat (Some 1%positive) 1 toy_w0 H1).
Defined.

Lemma process_past_buffer_faults_witness :
  (ready EMNR toy_ready 2%positive /\
   floats_at toy_ready 1%positive = Some [5; 7; 9] /\
   Z.of_nat (length [5; 7; 9]) < 4 <= INT_MAX) /\
  forall fuel, (length [5; 7; 9] / 480 < fuel)%nat ->
    process_of EMNR fuel (Some 2%positive) (Some 1%positive) 4 toy_ready
    = Fault.
Proof.
  assert (H1 : ready EMNR toy_ready 2%positive) by (vm_compute; eauto).
  assert (H2 : floats_at toy_ready 1%positive = Some [5; 7; 9])
    by (vm_compute; reflexivity).
  assert (H3 : Z.of_nat (length [5; 7; 9]) < 4 <= INT_MAX)
    by (unfold INT_MAX; cbn; lia).
  split; [split_and!; first [assumption | lia]|].
  exact (process_past_buffer_faults EMNR toy_ready 2%positive 1%positive
           [5; 7; 9] 4 H1 H2 H3).
Defined.

Lemma aligned_split_composes_witness :
  (ready EMNR toy_ready 2%positive /\
   is_Some (floats_at toy_ready 1%positive) /\
   length (replicate 480 1) = (1 * 480)%nat /\
   Z.of_nat (length (replicate 480 1) + length [4; 5]) <= INT_MAX) /\
  exists o1 o2 wA wB,
    session EMNR (Some 2%positive) (Some 1%positive)
      [replicate 480 1; [4; 5]] toy_ready = Ok ([o1; o2], wA) /\
    session EMNR (Some 2%positive) (Some 1%positive)
      [replicate 480 1 ++ [4; 5]] toy_ready = Ok ([o1 ++ o2], wB) /\
    length o1 = length (replicate 480 1) /\ length o2 = length [4; 5] /\
    instance EMNR wA 2%positive = instance EMNR wB 2%positive /\
    trace wA = trace wB.
Proof.
  assert (H1 : ready EMNR toy_ready 2%positive) by (vm_compute; eauto).
  assert (H2 : is_Some (floats_at toy_ready 1%positive))
    by (vm_compute; eauto).
  assert (H3 : length (replicate 480 1) = (1 * 480)%nat)
    by (vm_compute; reflexivity).
  assert (H4 : Z.of_nat (length (replicate 480 1) + length [4; 5]) <= INT_MAX)
    by (vm_compute; discriminate).
  split; [split_and!; first [assumption | lia]|].
  exact (aligned_split_composes EMNR toy_ready 2%positive 1%positive
           (replicate 480 1) [4; 5] 1%nat H1 H2 H3 H4).
Defined.

Lemma unaligned_split_pads_witness :
  (ready EMNR toy_ready 2%positive /\
   is_Some (floats_at toy_ready 1%positive) /\
   length [1; 2] = (0 * 480 + 2)%nat /\ (0 < 2 < 480)%nat /\
   [3] !! 0%nat = Some 3 /\
   Z.of_nat (length [1; 2] + length [3]) <= INT_MAX) /\
  exists oA oB wA wB l inA outA inB outB,
    session EMNR (Some 2%positive) (Some 1%positive) [[1; 2]; [3]] toy_ready
    = Ok (oA, wA) /\
    session EMNR (Some 2%positive) (Some 1%positive) [[1; 2] ++ [3]] toy_ready
    = Ok (oB, wB) /\
    trace wA !! (length (trace toy_ready) + 0)%nat
    = Some (EvEngineRun EMNR l inA outA) /\
    trace wB !! (length (trace toy_ready) + 0)%nat
    = Some (EvEngineRun EMNR l inB outB) /\
    inA !! (2 * 2)%nat = Some dzero /\
    inB !! (2 * 2)%nat = Some (to_double 3).
Proof.
  assert (H1 : ready EMNR toy_ready 2%positive) by (vm_compute; eauto).
  assert (H2 : is_Some (floats_at toy_ready 1%positive))
    by (vm_compute; eauto).
  assert (H3 : length [1; 2] = (0 * 480 + 2)%nat) by reflexivity.
  assert (H4 : (0 < 2 < 480)%nat) by lia.
  assert (H5 : [3] !! 0%nat = Some 3) by reflexivity.
  assert (H6 : Z.of_nat (length [1; 2] + length [3]) <= INT_MAX)
    by (vm_compute; discriminate).
  split; [split_and!; first [assumption | lia]|].
  exact (unaligned_split_pads EMNR toy_ready 2%positive 1%positive
           [1; 2] [3] 0%nat 2%nat 3 H1 H2 H3 H4 H5 H6).
Defined.

Lemma destroy_releases_instance_witness :
  instance EMNR toy_ready 2%positive = Some (4%positive, 3%positive, 48000) /\
  exists w',
    destroy_of EMNR (Some 2%positive) toy_ready = Ok (tt, w') /\
    trace w' = trace toy_ready ++
      [EvEngineDestroy EMNR 4%positive; EvFree 3%positive; EvFree 2%positive] /\
    oracle w' = oracle toy_ready /\
    heap w' !! 2%positive = None /\ heap w' !! 4%positive = None /\
    heap w' !! 3%positive = None /\
    (forall l, l <> 2%positive -> l <> 4%positive -> l <> 3%positive ->
       heap w' !! l = heap toy_ready !! l) /\
    instance EMNR w' 2%positive = None.
Proof.
  assert (H1 : instance EMNR toy_ready 2%positive
               = Some (4%positive, 3%positive, 48000))
    by (vm_compute; reflexivity).
  split; [exact H1|].
  exact (destroy_releases_instance EMNR toy_ready 2%positive 4%positive
           3%positive 48000 H1).
Defined.

Lemma use_after_destroy_faults_witness :
  instance EMNR toy_ready 2%positive = Some (4%positive, 3%positive, 48000) /\
  exists w',
    destroy_of EMNR (Some 2%positive) toy_ready = Ok (tt, w') /\
    destroy_of EMNR (Some 2%positive) w' = Fault /\
    forall fuel inOut F, (0 < fuel)%nat -> 0 < F ->
      process_of EMNR fuel (Some 2%positive) inOut F w' = Fault.
Proof.
  assert (H1 : instance EMNR toy_ready 2%positive
               = Some (4%positive, 3%positive, 48000))
    by (vm_compute; reflexivity).
  split; [exact H1|].
  exact (use_after_destroy_faults EMNR toy_ready 2%positive 4%positive
           3%positive 48000 H1).
Defined.

Lemma create_destroy_no_leak_witness :
  create_of EMNR 48000 toy_w0 = Ok (Some 2%positive, toy_ready) /\
  exists w2, destroy_of EMNR (Some 2%positive) toy_ready = Ok (tt, w2) /\
             heap w2 = heap toy_w0.
Proof.
  assert (H1 : create_of EMNR 48000 toy_w0 = Ok (Some 2%positive, toy_ready))
    by (vm_compute; reflexivity).
  split; [exact H1|].
  exact (create_destroy_no_leak EMNR 48000 toy_w0 2%positive toy_ready H1).
Defined.

Lemma duet_agree_witness :
  (create_of EMNR 48000 toy_w0 = Ok (Some 2%positive, toy_ready) /\
   create_of EMNR 48000 toy_ready = Ok (Some 5%positive, toy_pair) /\
   is_Some (floats_at toy_pair 1%positive) /\
   is_Some (floats_at toy_pair 1%positive) /\
   Forall (fun xs : list float => Z.of_nat (length xs) <= INT_MAX)
     [[1; 2; 3]; [4]]) /\
  exists outs w',
    duet EMNR (Some 2%positive) (Some 5%positive) (Some 1%positive)
      (Some 1%positive) [[1; 2; 3]; [4]] toy_pair = Ok (outs, w') /\
    Forall (fun yy => yy.1 = yy.2) outs /\
    length outs = length [[1; 2; 3]; [4]].
Proof.
  assert (H1 : create_of EMNR 48000 toy_w0 = Ok (Some 2%positive, toy_ready))
    by (vm_compute; reflexivity).
  assert (H2 : create_of EMNR 48000 toy_ready = Ok (Some 5%positive, toy_pair))
    by (vm_compute; reflexivity).
  assert (H3 : is_Some (floats_at toy_pair 1%positive))
    by (vm_compute; eauto).
  assert (H5 : Forall (fun xs : list float => Z.of_nat (length xs) <= INT_MAX)
                 [[1; 2; 3]; [4]])
    by (repeat constructor; vm_compute; discriminate).
  split; [split_and!; first [assumption | lia]|].
  exact (duet_agree EMNR 48000 toy_w0 2%positive toy_ready 5%positive toy_pair
           1%positive 1%positive [[1; 2; 3]; [4]] H1 H2 H3 H3 H5).
Defined.

End MoreExamples.

Section EchoExamples.
Import Echo.
#[local] Existing Instance echo_samples.
#[local] Existing Instance echo_engines.

Lemma passthrough_round_trip_witness :
  ((forall s buf, (eng_block ANR s buf).2 = buf) /\
   (forall x, to_float (to_double x) = x) /\
   ready ANR echo_ready 2%positive /\
   floats_at echo_ready 1%positive = Some [5; 7; 9] /\
   0 <= 3 <= INT_MAX /\ 3 <= Z.of_nat (length [5; 7; 9])) /\
  exists w',
    (forall fuel, (Z.to_nat ((3 + 479) / 480) <= fuel)%nat ->
       process_of ANR fuel (Some 2%positive) (Some 1%positive) 3 echo_ready
       = Ok (tt, w')) /\
    floats_at w' 1%positive = Some [5; 7; 9].
Proof.
  assert (H1 : forall s buf, (eng_block ANR s buf).2 = buf)
    by (intros; reflexivity).
  assert (H2 : forall x, to_float (to_double x) = x) by (intros; reflexivity).
  assert (H3 : ready ANR echo_ready 2%positive) by (vm_compute; eauto).
  assert (H4 : floats_at echo_ready 1%positive = Some [5; 7; 9])
    by (vm_compute; reflexivity).
  assert (H5 : 0 <= 3 <= INT_MAX) by (unfold INT_MAX; lia).
  assert (H6 : 3 <= Z.of_nat (length [5; 7; 9])) by (cbn; lia).
  split; [split_and!; first [assumption | lia]|].
  exact (passthrough_round_trip ANR echo_ready 2%positive 1%positive
           [5; 7; 9] 3 H1 H2 H3 H4 H5 H6).
Defined.

End EchoExamples.
